(** * MechGen to F0AM conversion: a shallow embedding of
    [utils/box_model_f0am/fun_reaction_extractor.py]

    The Python module turns a MechGen mechanism file into MATLAB text for the
    F0AM box model.  This development embeds its three classes,

    - [SpeciesExtractor]  ([extract_species], [build_compounds],
      [clean_null_compounds]),
    - [ReactionExtractor] ([parse_reactions], [handle_photolysis],
      [format_rate], [load_ref_rxns], [format_for_f0am]),
    - [MechanismWriter]   ([write_mech]),

    the script [mg_output_mech2f0am.py] that chains them, and the two pure
    functions of the set-up scripts ([escape_smiles], [wait_for_file]),
    together with the Python built-ins they rely on ([str] methods, the three
    regular expressions, [int], [float]), and proves properties of them.

    Conventions.
    - A Python [str] is a Rocq [string]; a character is one of the 256 code
      points U+0000..U+00FF, and the character classes ([isspace], [isdigit],
      the regex classes [\s] and [\w]) are the ones Python has on that range.
    - A Python exception is a value [Raise e] of the type [result].
    - A Python [float] is an IEEE 754 binary64 number, [spec_float] of the
      standard library with [prec = 53] and [emax = 1024].
    - A file is the list of its lines as [readlines()] returns them. *)

From Stdlib Require Import ZArith Ascii String List Bool Lia.
From Stdlib Require Import SpecFloat.
From stdpp Require Import base option list strings gmap.

Local Open Scope Z_scope.

(** ** Exceptions *)

Inductive exn : Set :=
| ValueError
| IndexError.

Inductive result (A : Type) : Type :=
| Ok (a : A)
| Raise (e : exn).
Arguments Ok {A} a.
Arguments Raise {A} e.

Global Instance result_ret : MRet result := fun A a => Ok a.
Global Instance result_bind : MBind result := fun A B k r =>
  match r with
  | Ok a => k a
  | Raise e => Raise e
  end.

Definition is_ok {A : Type} (r : result A) : bool :=
  match r with Ok _ => true | Raise _ => false end.

(** ** Python built-ins on characters and strings *)

Module Py.

Definition code (c : ascii) : N := N_of_ascii c.

(** [str.isspace] on one character. *)
Definition isspace (c : ascii) : bool :=
  let n := code c in
  ((9 <=? n) && (n <=? 13) || (28 <=? n) && (n <=? 32)
   || (n =? 133) || (n =? 160))%N.

(** The decimal digits [0-9] (Unicode category Nd on this range). *)
Definition isdecimal (c : ascii) : bool :=
  let n := code c in ((48 <=? n) && (n <=? 57))%N.

(** [str.isdigit] on one character: the decimal digits and the superscript
    digits U+00B2, U+00B3, U+00B9. *)
Definition isdigit (c : ascii) : bool :=
  let n := code c in
  (isdecimal c || (n =? 178) || (n =? 179) || (n =? 185))%N.

(** The regex class [\w] of a [str] pattern: alphanumeric or underscore. *)
Definition isword (c : ascii) : bool :=
  let n := code c in
  (isdigit c
   || (65 <=? n) && (n <=? 90) || (n =? 95) || (97 <=? n) && (n <=? 122)
   || (n =? 170) || (n =? 181) || (n =? 186)
   || (188 <=? n) && (n <=? 190)
   || (192 <=? n) && (n <=? 214) || (216 <=? n) && (n <=? 246)
   || (248 <=? n) && (n <=? 255))%N.

Definition nl : ascii := ascii_of_N 10.
Definition NL : string := String nl EmptyString.

Definition eqc (a b : ascii) : bool := Ascii.eqb a b.

(** [s.split(sep)] for a one-character separator: never empty. *)
Fixpoint split (sep : ascii) (s : string) : list string :=
  match s with
  | EmptyString => [EmptyString]
  | String c s' =>
      if eqc c sep then EmptyString :: split sep s'
      else match split sep s' with
           | [] => [String c EmptyString]
           | w :: ws => String c w :: ws
           end
  end.

Definition push (w : string) (ws : list string) : list string :=
  match w with
  | EmptyString => ws
  | _ => w :: ws
  end.

(** The word that starts at the head of [s] and the words after it. *)
Fixpoint words (s : string) : string * list string :=
  match s with
  | EmptyString => (EmptyString, [])
  | String c s' =>
      let '(w, ws) := words s' in
      if isspace c then (EmptyString, push w ws) else (String c w, ws)
  end.

(** [s.split()]: the maximal runs of non-whitespace characters. *)
Definition split_ws (s : string) : list string :=
  let '(w, ws) := words s in push w ws.

Fixpoint lstrip (s : string) : string :=
  match s with
  | EmptyString => EmptyString
  | String c s' => if isspace c then lstrip s' else s
  end.

Fixpoint rstrip (s : string) : string :=
  match s with
  | EmptyString => EmptyString
  | String c s' =>
      match rstrip s' with
      | EmptyString => if isspace c then EmptyString else String c EmptyString
      | r => String c r
      end
  end.

(** [s.strip()] *)
Definition strip (s : string) : string := rstrip (lstrip s).

(** [s.replace(a, b)] for one-character [a] and [b]. *)
Fixpoint replace (a b : ascii) (s : string) : string :=
  match s with
  | EmptyString => EmptyString
  | String c s' => String (if eqc c a then b else c) (replace a b s')
  end.

(** [s.replace(a, '')] for a one-character [a]. *)
Fixpoint remove (a : ascii) (s : string) : string :=
  match s with
  | EmptyString => EmptyString
  | String c s' => if eqc c a then remove a s' else String c (remove a s')
  end.

(** [s.replace(a, '', 1)] for a one-character [a]. *)
Fixpoint remove_first (a : ascii) (s : string) : string :=
  match s with
  | EmptyString => EmptyString
  | String c s' => if eqc c a then s' else String c (remove_first a s')
  end.

(** [s.startswith(p)] *)
Fixpoint startswith (p s : string) : bool :=
  match p, s with
  | EmptyString, _ => true
  | String a p', String b s' => eqc a b && startswith p' s'
  | String _ _, EmptyString => false
  end.

(** [s.find(p)], with [None] for Python's [-1]. *)
Fixpoint find (p s : string) : option nat :=
  if startswith p s then Some 0%nat
  else match s with
       | EmptyString => None
       | String _ s' => S <$> find p s'
       end.

(** [s[n:]] *)
Fixpoint drop (n : nat) (s : string) : string :=
  match n, s with
  | O, _ => s
  | S n', String _ s' => drop n' s'
  | S _, EmptyString => EmptyString
  end.

Fixpoint forallb (f : ascii -> bool) (s : string) : bool :=
  match s with
  | EmptyString => true
  | String c s' => f c && forallb f s'
  end.

(** [s.isdigit()]: every character is a digit and there is at least one. *)
Definition str_isdigit (s : string) : bool :=
  match s with
  | EmptyString => false
  | _ => forallb isdigit s
  end.

(** [''.join(filter(f, s))] *)
Fixpoint filter (f : ascii -> bool) (s : string) : string :=
  match s with
  | EmptyString => EmptyString
  | String c s' => if f c then String c (filter f s') else filter f s'
  end.

(** [sep.join(l)] *)
Fixpoint join (sep : string) (l : list string) : string :=
  match l with
  | [] => EmptyString
  | [x] => x
  | x :: l' => x +:+ sep +:+ join sep l'
  end.

(** [''.join(l)] *)
Definition concat (l : list string) : string := join EmptyString l.

(** [bool(s)]: a string is true when it is not empty. *)
Definition truthy (s : string) : bool :=
  match s with EmptyString => false | _ => true end.

(** [l[-1]] of a list that [split] returned. *)
Definition last_or_empty (l : list string) : string := List.last l EmptyString.

(** [l[0]] *)
Definition item0 (l : list string) : result string :=
  match l with
  | x :: _ => Ok x
  | [] => Raise IndexError
  end.

(** [l[1]] *)
Definition item1 (l : list string) : result string :=
  match l with
  | _ :: x :: _ => Ok x
  | _ => Raise IndexError
  end.

(** The value of a string of decimal digits, most significant first. *)
Fixpoint digits_value (acc : Z) (s : string) : Z :=
  match s with
  | EmptyString => acc
  | String c s' => digits_value (10 * acc + (Z.of_N (code c) - 48)) s'
  end.

(** [int(s)] where [s] is the result of [filter(str.isdigit, ...)]: such an
    [s] holds no sign, space or underscore, so [int] accepts it exactly when
    it is a non-empty string of decimal digits (a superscript digit passes
    [isdigit] but is refused by [int]). *)
Definition int_of_digits (s : string) : result Z :=
  match s with
  | EmptyString => Raise ValueError
  | _ => if forallb isdecimal s then Ok (digits_value 0 s) else Raise ValueError
  end.

Definition digit_char (d : Z) : ascii := ascii_of_N (Z.to_N (48 + d)).

(** The decimal digits of a natural number; [fuel] bounds their count. *)
Fixpoint digits_of (fuel : nat) (n : Z) (acc : string) : string :=
  match fuel with
  | O => acc
  | S f =>
      let acc' := String (digit_char (n mod 10)) acc in
      if n / 10 =? 0 then acc' else digits_of f (n / 10) acc'
  end.

(** [str(n)] for [n >= 0]. *)
Definition str_of_nat (n : Z) : string :=
  digits_of (S (Z.to_nat (Z.log2 n))) n EmptyString.

Fixpoint zeros (n : nat) : string :=
  match n with
  | O => EmptyString
  | S n' => String "0" (zeros n')
  end.

(** [format(n, '03')] for [n >= 0]. *)
Definition str_of_nat_03 (n : Z) : string :=
  let s := str_of_nat n in
  zeros (3 - String.length s) +:+ s.

(** [l.index(x)], and [l.index(x, start)] with the offset added back. *)
Fixpoint index (x : string) (l : list string) : result nat :=
  match l with
  | [] => Raise ValueError
  | y :: l' => if String.eqb y x then Ok O else k ← index x l'; Ok (S k)
  end.

(** [l[a:b]] for [a, b >= 0]. *)
Definition slice {A : Type} (a b : nat) (l : list A) : list A :=
  take (b - a) (List.skipn a l).

(** [s[:n]] *)
Fixpoint take (n : nat) (s : string) : string :=
  match n, s with
  | S n', String c s' => String c (take n' s')
  | _, _ => EmptyString
  end.

(** [s[a:b]] for [a, b >= 0] *)
Definition substr (a b : nat) (s : string) : string := take (b - a) (drop a s).

(** [s.find(p, start)] for [start >= 0], with [None] for Python's [-1]. *)
Definition find_from (p : string) (start : nat) (s : string) : option nat :=
  if (String.length s <? start)%nat then None
  else (fun k => (start + k)%nat) <$> find p (drop start s).

(** [s.replace(old, new)] for a non-empty [old]: the occurrences of [old] are
    replaced from left to right, and [skip] counts the characters of the last
    occurrence still to pass over. *)
Fixpoint replace_go (old new s : string) (skip : nat) : string :=
  match s with
  | EmptyString => EmptyString
  | String c s' =>
      match skip with
      | S k => replace_go old new s' k
      | O =>
          if startswith old s
          then new +:+ replace_go old new s' (String.length old - 1)
          else String c (replace_go old new s' O)
      end
  end.

(** [s.replace('', new)]: [new] before every character and at the end. *)
Fixpoint intersperse (new s : string) : string :=
  match s with
  | EmptyString => new
  | String c s' => new +:+ String c (intersperse new s')
  end.

(** [s.replace(old, new)] *)
Definition replace_str (old new s : string) : string :=
  match old with
  | EmptyString => intersperse new s
  | _ => replace_go old new s O
  end.

Fixpoint range_go (fuel i stop step : nat) : list nat :=
  match fuel with
  | O => []
  | S f => if (i <? stop)%nat then i :: range_go f (i + step) stop step else []
  end.

(** [range(start, stop, step)] for [start >= 0] and [step >= 1] *)
Definition range (start stop step : nat) : list nat :=
  range_go stop start stop step.

End Py.

(** ** Python floats: IEEE 754 binary64 *)

Module PyFloat.

Definition prec : Z := 53.
Definition emax : Z := 1024.

Definition float : Set := spec_float.

Definition zero : float := S754_zero false.

(** The binary64 number nearest to [(-1)^s * m * 10^e], ties to even: what
    the correctly rounded [strtod] of CPython yields for a decimal numeral. *)
Definition of_decimal (s : bool) (m e : Z) : float :=
  match m with
  | Zpos p =>
      if 0 <=? e then binary_round prec emax s (p * Z.to_pos (10 ^ e)) 0
      else
        let '(q, e', l) :=
          SFdiv_core_binary prec emax (Zpos p) 0 (10 ^ (- e)) 0 in
        binary_round_aux prec emax s q e' l
  | _ => S754_zero s
  end.

(** Underscores of a numeral: allowed only between two decimal digits.
    The result is the numeral without them. *)
Fixpoint underscores (prev : ascii) (s : string) : option string :=
  match s with
  | EmptyString => if Py.eqc prev "_" then None else Some EmptyString
  | String c s' =>
      if Py.eqc c "_" then
        if Py.isdecimal prev then underscores c s' else None
      else if Py.eqc prev "_" && negb (Py.isdecimal c) then None
      else String c <$> underscores c s'
  end.

Definition sign_of (s : string) : bool * string :=
  match s with
  | String "-" r => (true, r)
  | String "+" r => (false, r)
  | _ => (false, s)
  end.

(** The longest prefix of decimal digits, and the rest. *)
Fixpoint span_digits (s : string) : string * string :=
  match s with
  | String c s' =>
      if Py.isdecimal c then
        let '(d, r) := span_digits s' in (String c d, r)
      else (EmptyString, s)
  | EmptyString => (EmptyString, EmptyString)
  end.

Definition lower (c : ascii) : ascii :=
  let n := Py.code c in
  if ((65 <=? n) && (n <=? 90))%N then ascii_of_N (n + 32) else c.

Fixpoint lowercase (s : string) : string :=
  match s with
  | EmptyString => EmptyString
  | String c s' => String (lower c) (lowercase s')
  end.

Definition special (sg : bool) (s : string) : option float :=
  let t := lowercase s in
  if String.eqb t "inf" || String.eqb t "infinity" then Some (S754_infinity sg)
  else if String.eqb t "nan" then Some S754_nan
  else None.

(** The exponent part: nothing, or [e] or [E], an optional sign and at least
    one digit, up to the end of the numeral. *)
Definition exponent (s : string) : option Z :=
  match s with
  | EmptyString => Some 0
  | String c r =>
      if Py.eqc (lower c) "e" then
        let '(sg, r1) := sign_of r in
        match r1 with
        | EmptyString => None
        | _ =>
            if Py.forallb Py.isdecimal r1 then
              Some (if sg then - Py.digits_value 0 r1 else Py.digits_value 0 r1)
            else None
        end
      else None
  end.

(** [float(s)] for a string [s] without white space (every call of the program
    passes an item of [str.split()]): [ValueError] unless [s] is a signed
    decimal numeral, [inf], [infinity] or [nan]. *)
Definition float_of_string (s : string) : result float :=
  match underscores "000" s with
  | None => Raise ValueError
  | Some t =>
      let '(sg, t1) := sign_of t in
      match special sg t1 with
      | Some x => Ok x
      | None =>
          let '(ip, t2) := span_digits t1 in
          let '(fp, t3) :=
            match t2 with
            | String "." r => span_digits r
            | _ => (EmptyString, t2)
            end in
          match ip +:+ fp, exponent t3 with
          | EmptyString, _ => Raise ValueError
          | _, None => Raise ValueError
          | ds, Some ex =>
              Ok (of_decimal sg (Py.digits_value 0 ds)
                    (ex - Z.of_nat (String.length fp)))
          end
      end
  end.

(** [x / y], [x + y] and [x > 0] *)
Definition div (x y : float) : float := SFdiv prec emax x y.
Definition add (x y : float) : float := SFadd prec emax x y.
Definition gt0 (x : float) : bool := SFltb zero x.

(** The exact value of the positive finite float [m * 2^e] as a fraction. *)
Definition fraction (m : positive) (e : Z) : Z * Z :=
  if 0 <=? e then (Zpos m * 2 ^ e, 1) else (Zpos m, 2 ^ (- e)).

(** [num / den * 10^sh] as a fraction. *)
Definition scale10 (num den sh : Z) : Z * Z :=
  if 0 <=? sh then (num * 10 ^ sh, den) else (num, den * 10 ^ (- sh)).

(** The least [j >= j0] with [num * 10^j >= den]. *)
Fixpoint lead (fuel : nat) (num den j : Z) : Z :=
  match fuel with
  | O => j
  | S f => if den <=? num * 10 ^ j then j else lead f num den (j + 1)
  end.

(** The position [k] of the decimal point: [10^(k-1) <= num/den < 10^k]. *)
Definition decpt_of (num den : Z) : Z :=
  if den <=? num then Z.of_nat (String.length (Py.str_of_nat (num / den)))
  else 1 - lead 400 num den 1.

(** The [n]-digit decimals next to [x = num/den] that read back as [x], the
    nearer one first (ties to the even one): [c] stands for [c * 10^(k-n)]. *)
Definition candidate (x : float) (num den k n : Z) : option Z :=
  let '(a, b) := scale10 num den (n - k) in
  let lo := a / b in
  let r := a mod b in
  let back c := SFeqb (of_decimal false c (k - n)) x in
  if r =? 0 then Some lo
  else
    let near_lo :=
      match 2 * r ?= b with
      | Lt => true
      | Gt => false
      | Eq => Z.even lo
      end in
    match back lo, back (lo + 1) with
    | true, true => Some (if near_lo then lo else lo + 1)
    | true, false => Some lo
    | false, true => Some (lo + 1)
    | false, false => None
    end.

(** The shortest decimal that reads back as [x], [n] digits or more. *)
Fixpoint shortest (fuel : nat) (x : float) (num den k n : Z) : Z * Z :=
  match fuel with
  | O =>
      let '(a, b) := scale10 num den (n - k) in
      (if 2 * (a mod b) <? b then a / b else a / b + 1, k - n)
  | S f =>
      match candidate x num den k n with
      | Some c => (c, k - n)
      | None => shortest f x num den k (n + 1)
      end
  end.

Fixpoint rstrip0 (s : string) : string :=
  match s with
  | EmptyString => EmptyString
  | String c s' =>
      match rstrip0 s' with
      | EmptyString => if Py.eqc c "0" then EmptyString else String c EmptyString
      | r => String c r
      end
  end.

(** The digits [d1 d2 ... dn] and the point position [p] of the shortest
    decimal [0.d1...dn * 10^p] that reads back as [m * 2^e]. *)
Definition shortest_digits (m : positive) (e : Z) : string * Z :=
  let '(num, den) := fraction m e in
  let k := decpt_of num den in
  let '(c, ex) := shortest 16 (S754_finite false m e) num den k 1 in
  let ds := Py.str_of_nat c in
  (rstrip0 ds, ex + Z.of_nat (String.length ds)).

Definition take_str (n : nat) (s : string) : string := String.substring 0 n s.

(** The layout of [repr]: exponent form when the point position is at most
    [-4] or above [16], and [.0] after an integer in positional form. *)
Definition layout (ds : string) (p : Z) : string :=
  let n := Z.of_nat (String.length ds) in
  if (p <=? -4) || (16 <? p) then
    let ex := p - 1 in
    let mant :=
      match ds with
      | String d EmptyString => ds
      | String d r => String d (String "." r)
      | EmptyString => ds
      end in
    let exs := Py.str_of_nat (Z.abs ex) in
    mant +:+ "e" +:+ (if ex <? 0 then "-" else "+")
         +:+ Py.zeros (2 - String.length exs) +:+ exs
  else if p <=? 0 then "0." +:+ Py.zeros (Z.to_nat (- p)) +:+ ds
  else if n <=? p then ds +:+ Py.zeros (Z.to_nat (p - n)) +:+ ".0"
  else take_str (Z.to_nat p) ds +:+ "." +:+ Py.drop (Z.to_nat p) ds.

(** [repr(x)], also [str(x)] and [format(x, '')] *)
Definition repr (x : float) : string :=
  match x with
  | S754_nan => "nan"
  | S754_infinity s => if s then "-inf" else "inf"
  | S754_zero s => if s then "-0.0" else "0.0"
  | S754_finite s m e =>
      let '(ds, p) := shortest_digits m e in
      (if s then "-" else "") +:+ layout ds p
  end.

(** [format(x, '.4f')]: the exact value rounded to four decimals, ties to
    even. *)
Definition format_4f (x : float) : string :=
  match x with
  | S754_nan => "nan"
  | S754_infinity s => if s then "-inf" else "inf"
  | S754_zero s => if s then "-0.0000" else "0.0000"
  | S754_finite s m e =>
      let '(num, den) := fraction m e in
      let a := num * 10000 in
      let q := a / den in
      let r := a mod den in
      let q' :=
        match 2 * r ?= den with
        | Lt => q
        | Gt => q + 1
        | Eq => if Z.even q then q else q + 1
        end in
      let ds := Py.str_of_nat q' in
      let ds' := Py.zeros (5 - String.length ds) +:+ ds in
      let ip := (String.length ds' - 4)%nat in
      (if s then "-" else "") +:+ take_str ip ds' +:+ "." +:+ Py.drop ip ds'
  end.

End PyFloat.

(** ** The three regular expressions of the program *)

Module Re.

Definition head (s : string) : option ascii :=
  match s with
  | String c _ => Some c
  | EmptyString => None
  end.

Definition wordy (c : option ascii) : bool :=
  match c with
  | Some c => Py.isword c
  | None => false
  end.

(** [\b] at the position between the character [prev] and the text [s]. *)
Definition boundary (prev : option ascii) (s : string) : bool :=
  xorb (wordy prev) (wordy (head s)).

(** The literal [c] read at the head of [s]: the last character read (or
    [prev]) and the text left. *)
Fixpoint literal (c : string) (prev : option ascii) (s : string)
  : option (option ascii * string) :=
  match c with
  | EmptyString => Some (prev, s)
  | String a c' =>
      match s with
      | String b s' => if Py.eqc a b then literal c' (Some b) s' else None
      | EmptyString => None
      end
  end.

(** One alternative [c] of [\b(?:c1|...|cn)\b] matches at this position;
    [must_advance] refuses the empty match (the attempt that follows an empty
    match at the same position). *)
Definition matches_here (prev : option ascii) (s : string)
    (must_advance : bool) (c : string) : bool :=
  boundary prev s
  && match literal c prev s with
     | Some (p, r) => boundary p r && negb (must_advance && negb (Py.truthy c))
     | None => false
     end.

(** The match at this position: the first alternative, in the order of the
    pattern, that matches. *)
Definition first_match (alts : list string) (prev : option ascii) (s : string)
    (must_advance : bool) : option string :=
  List.find (matches_here prev s must_advance) alts.

(** The scan at one position.  [skip] counts the characters of the last match
    still to pass over, and [step k] is the scan of the rest of the text, one
    character further, with [k] characters to pass over.  An empty match is
    followed by a second attempt at the same position, which must advance. *)
Definition scan_here (alts : list string) (prev : option ascii) (s : string)
    (skip : nat) (step : nat → list string) : list string :=
  match skip with
  | S k => step k
  | O =>
      match first_match alts prev s false with
      | Some EmptyString =>
          EmptyString ::
            match first_match alts prev s true with
            | Some m => m :: step (String.length m - 1)%nat
            | None => step O
            end
      | Some m => m :: step (String.length m - 1)%nat
      | None => step O
      end
  end.

(** [re.findall] of [\b(?:c1|...|cn)\b], scanning [s] from left to right. *)
Fixpoint findall_from (alts : list string) (prev : option ascii) (s : string)
    (skip : nat) : list string :=
  scan_here alts prev s skip
    (fun k => match s with
              | String c s' => findall_from alts (Some c) s' k
              | EmptyString => []
              end).

(** The alternatives of the pattern built from a list of names; the pattern
    of the empty list is [\b(?:)\b], whose group matches the empty string. *)
Definition alternatives (names : list string) : list string :=
  match names with
  | [] => [EmptyString]
  | _ => names
  end.

Definition findall_words (names : list string) (text : string) : list string :=
  findall_from (alternatives names) None text O.

(** The longest prefix of characters of the class [f]. *)
Fixpoint run (f : ascii -> bool) (s : string) : string :=
  match s with
  | String c s' => if f c then String c (run f s') else EmptyString
  | EmptyString => EmptyString
  end.

(** [re.search(tag + '([class]+)', s)]: group 1 of the leftmost match. *)
Fixpoint search_tagged (tag : string) (f : ascii -> bool) (s : string)
  : option string :=
  let here :=
    if Py.startswith tag s then
      match run f (Py.drop (String.length tag) s) with
      | EmptyString => None
      | g => Some g
      end
    else None in
  match here, s with
  | Some g, _ => Some g
  | None, String _ s' => search_tagged tag f s'
  | None, EmptyString => None
  end.

(** [re.search(r'PF=([^\s]+)', s)] *)
Definition search_PF (s : string) : option string :=
  search_tagged "PF=" (fun c => negb (Py.isspace c)) s.

(** The class [[0-9\.eE\-]] *)
Definition yield_char (c : ascii) : bool :=
  Py.isdecimal c || Py.eqc c "." || Py.eqc c "e" || Py.eqc c "E" || Py.eqc c "-".

(** [re.search(r'QY=([0-9\.eE\-]+)', s)] *)
Definition search_QY (s : string) : option string :=
  search_tagged "QY=" yield_char s.

End Re.

(** ** class SpeciesExtractor *)

Module SpeciesExtractor.

(** A row of the data frame of [extract_species]. *)
Record row : Set := Row { Species : string; MGName : string }.

(** The body of the loop of [extract_species] for one line: the row it
    appends, if any. *)
Definition extract_line (line : string) : result (option row) :=
  tok ← Py.item0 (Py.split_ws line);
  if negb (Py.startswith "!" tok) && negb (Py.startswith "." tok) then
    before ← Py.item0 (Py.split "!" line);
    mgname ← Py.item0 (Py.split " " before);
    after ← Py.item1 (Py.split "!" line);
    text ← Py.item0 (Py.split Py.nl after);
    Ok (Some (Row (Py.last_or_empty (Py.split " " text)) mgname))
  else Ok None.

Fixpoint extract_lines (section : list string) : result (list row) :=
  match section with
  | [] => Ok []
  | line :: rest =>
      r ← extract_line line;
      rs ← extract_lines rest;
      Ok (match r with Some x => x :: rs | None => rs end)
  end.

(** [df.drop_duplicates(subset='Species')]: the first row of each name. *)
Fixpoint drop_duplicates (seen : list string) (rows : list row) : list row :=
  match rows with
  | [] => []
  | r :: rest =>
      if bool_decide (Species r ∈ seen) then drop_duplicates seen rest
      else r :: drop_duplicates (Species r :: seen) rest
  end.

(** The lines [lines[start_index:end_index]] that [extract_species] reads. *)
Definition section (lines : list string) (string_start string_end : string)
  : result (list string) :=
  start ← Py.index (string_start +:+ Py.NL) lines;
  let start_index := S start in
  end_index ← Py.index (string_end +:+ Py.NL) lines;
  Ok (Py.slice start_index end_index lines).

(** [extract_species], on the lines of the file.  [dropna] removes nothing:
    every cell holds a string. *)
Definition extract_species (lines : list string)
    (string_start string_end : string) : result (list row) :=
  sec ← section lines string_start string_end;
  rows ← extract_lines sec;
  Ok (drop_duplicates [] rows).

Definition hyphens (s : string) : string := Py.replace "-" "_" s.

Definition build_compounds (lines : list string)
    (default_compounds : list string) : result (list string * list string) :=
  df_sts ← extract_species lines ".STS" ".RXN";
  let compounds_sts := MGName <$> df_sts in
  df_act ← extract_species lines ".ACT" ".RXN";
  let compounds_act := MGName <$> df_act in
  let compounds_act :=
    List.filter (fun comp => negb (bool_decide (comp ∈ default_compounds))
                             && negb (bool_decide (comp ∈ compounds_sts)))
                compounds_act in
  let compounds_total := default_compounds ++ compounds_act ++ compounds_sts in
  Ok (hyphens <$> compounds_total, compounds_sts).

Definition found_compounds (compound_list reaction_list : list string)
  : gset string :=
  list_to_set (Re.findall_words compound_list (Py.join " " reaction_list)).

Definition clean_null_compounds (compound_list reaction_list : list string)
  : list string * list string :=
  let found := found_compounds compound_list reaction_list in
  (List.filter (fun comp => bool_decide (comp ∈ found)) compound_list,
   List.filter (fun comp => negb (bool_decide (comp ∈ found))) compound_list).

End SpeciesExtractor.

(** ** class ReactionExtractor *)

Module ReactionExtractor.

(** The loop of [parse_reactions]: [current_reaction] and [reactions]. *)
Definition parse_line (st : string * list string) (line : string)
  : string * list string :=
  let '(current_reaction, reactions) := st in
  let line := Py.remove "#" (Py.strip line) in
  if Py.startswith "R)" line then
    (line, if Py.truthy current_reaction then reactions ++ [current_reaction]
           else reactions)
  else (current_reaction +:+ " " +:+ line, reactions).

Definition parse_reactions (lines : list string) : result (list string) :=
  start ← Py.index (".RXN" +:+ Py.NL) lines;
  let rxn_start_index := S start in
  let rxn_end_index :=
    match Py.index ("." +:+ Py.NL) (List.skipn rxn_start_index lines) with
    | Ok k => (rxn_start_index + k)%nat
    | Raise _ => length lines
    end in
  let '(current_reaction, reactions) :=
    foldl parse_line (EmptyString, [])
          (Py.slice rxn_start_index rxn_end_index lines) in
  Ok (if Py.truthy current_reaction then reactions ++ [current_reaction]
      else reactions).

(** [handle_photolysis]: the string returned and the list [names_PF] after
    the call (the program appends to it in place). *)
Definition handle_photolysis (value : string) (names_PF : list string)
  : string * list string :=
  if bool_decide (is_Some (Py.find "PF=" value)) then
    match Re.search_PF value with
    | Some g =>
        let product_name := Py.replace "-" "_" g in
        let product_name :=
          if String.eqb product_name "C2CHOabs" then "C2CHO" else product_name in
        let names_PF :=
          if bool_decide (product_name ∈ names_PF) then names_PF
          else names_PF ++ [product_name] in
        match Re.search_QY value with
        | Some yield_value => (product_name +:+ " * " +:+ yield_value, names_PF)
        | None => (product_name, names_PF)
        end
    | None => (value, names_PF)
    end
  else (value, names_PF).

(** [R = -0.001987204258640] and [TREF = 300] *)
Definition R : PyFloat.float := PyFloat.of_decimal true 1987204258640 (-15).
Definition TREF : Z := 300.

(** [try: body except ValueError: handler] *)
Definition except_ValueError {A : Type} (body : result A) (handler : A)
  : result A :=
  match body with
  | Raise ValueError => Ok handler
  | r => r
  end.

(** The Arrhenius branch of [format_rate], inside its [try]. *)
Definition arrhenius (rate_str : string) (rate_parts : list string)
  : result string :=
  match rate_parts with
  | [a; e; B] =>
      A ← PyFloat.float_of_string a;
      E0 ← PyFloat.float_of_string e;
      let E := PyFloat.div E0 R in
      Ok (PyFloat.repr A +:+ " .* exp(" +:+ PyFloat.format_4f E +:+ "./T) .* (T./"
          +:+ Py.str_of_nat TREF +:+ ").^" +:+ B)
  | [a; e] =>
      A ← PyFloat.float_of_string a;
      E0 ← PyFloat.float_of_string e;
      let E := PyFloat.div E0 R in
      Ok (PyFloat.repr A +:+ " .* exp(" +:+ PyFloat.format_4f E +:+ "./T)")
  | _ => Ok rate_str
  end.

Definition format_rate (rate_str : string) (names_PF : list string)
  : result (string * list string) :=
  let '(cleaned_value, names_PF) := handle_photolysis rate_str names_PF in
  if negb (String.eqb cleaned_value rate_str) then
    Ok ("J" +:+ cleaned_value, names_PF)
  else
    text ← except_ValueError (arrhenius rate_str (Py.split_ws cleaned_value))
                             rate_str;
    Ok (text, names_PF).

(** The arguments of [format_for_f0am] that stay fixed during a run.
    [radical_cutoff] is an [int] or [False]; [False] is [0], and the test
    [if radical_cutoff] holds for every other value. *)
Record config : Type := Config {
  gen : string;
  precursor : string;
  compounds : list string;
  para_soa : bool;
  radical_cutoff : Z;
  reference_reactions : option (gset string)
}.

Definition radical_start_string (c : config) : string :=
  if String.eqb (gen c) "Single" then precursor c +:+ "r" else "RAD".

(** [int(''.join(filter(str.isdigit, radical_label.split('_')[-1])))] *)
Definition radical_number (radical_label : string) : result Z :=
  Py.int_of_digits
    (Py.filter Py.isdigit (Py.last_or_empty (Py.split "_" radical_label))).

(** The first part of the loop body, up to the last [continue]: [None] when
    the record is skipped, else [reaction_info] and [reaction_eqn]. *)
Definition select (c : config) (reaction : string)
  : result (option (string * string)) :=
  match Py.split ";" reaction with
  | p0 :: p1 :: _ =>
      let reaction_info := Py.strip p0 in
      let reaction_eqn := Py.replace "-" "_" (Py.strip p1) in
      eq0 ← Py.item0 (Py.split "=" reaction_eqn);
      let reactant_part := Py.strip eq0 in
      if match reference_reactions c with
         | Some refs => bool_decide (reactant_part ∈ refs)
         | None => false
         end
      then Ok None
      else
        species_label ← Py.item0 (Py.split " " reactant_part);
        if negb (bool_decide (species_label ∈ compounds c)) then Ok None
        else if negb (radical_cutoff c =? 0)
                && Py.startswith (radical_start_string c) reactant_part then
          radical_label ← Py.item0 (Py.split " " reactant_part);
          radical_number ← radical_number radical_label;
          if radical_cutoff c <? radical_number then Ok None
          else Ok (Some (reaction_info, reaction_eqn))
        else Ok (Some (reaction_info, reaction_eqn))
  | _ => Ok None
  end.

(** [reactant_part, product_part = reaction_eqn.split('=')] *)
Definition unpack2 (l : list string) : result (string * string) :=
  match l with
  | [a; b] => Ok (a, b)
  | _ => Raise ValueError
  end.

(** [gstr_lines]: [idx] counts every reactant, the photon included. *)
Fixpoint gstr_lines (idx : Z) (reactants : list string) : string :=
  match reactants with
  | [] => EmptyString
  | reactant :: rest =>
      (if String.eqb reactant "HV" then EmptyString
       else "Gstr{i," +:+ Py.str_of_nat idx +:+ "} = '" +:+ reactant +:+ "'; ")
      +:+ gstr_lines (idx + 1) rest
  end.

Definition fRO2_minus : string := "fRO2(i) = fRO2(i) - 1;".

Definition fRO2_plus (ro2_count : PyFloat.float) : string :=
  "fRO2(i) = fRO2(i) + " +:+ PyFloat.repr ro2_count +:+ ";".

(** The loop over the reactants: the lines appended to [f_lines]. *)
Definition reactant_step (c : config) (f_lines : list string)
    (reactant : string) : list string :=
  if String.eqb reactant "HV" then f_lines
  else
    let f_lines :=
      f_lines ++ ["f" +:+ reactant +:+ "(i) = f" +:+ reactant +:+ "(i) - 1;"] in
    if Py.startswith (radical_start_string c) reactant
    then f_lines ++ [fRO2_minus]
    else f_lines.

(** [1.0] *)
Definition one : PyFloat.float := PyFloat.of_decimal false 1 0.

(** The yield and the species of one product entry. *)
Definition product_of (entry : string) : result (PyFloat.float * string) :=
  match Py.split_ws entry with
  | p0 :: (_ :: _) as rest =>
      if Py.str_isdigit (Py.remove_first "." p0) then
        yield_value ← PyFloat.float_of_string p0;
        Ok (yield_value, Py.replace "-" "_" (Py.join " " rest))
      else Ok (one, Py.replace "-" "_" entry)
  | _ => Ok (one, Py.replace "-" "_" entry)
  end.

(** The loop over the product entries: [f_lines] and [ro2_count].  The
    counter starts as the integer [0], which adds and compares as [0.0]. *)
Definition product_step (c : config) (st : list string * PyFloat.float)
    (entry : string) : result (list string * PyFloat.float) :=
  let '(f_lines, ro2_count) := st in
  '(yield_value, product) ← product_of entry;
  if Py.truthy (Py.strip product) then
    let f_lines :=
      if para_soa c || negb (Py.startswith "VBS" product) then
        f_lines ++ ["f" +:+ product +:+ "(i) = f" +:+ product +:+ "(i) + "
                    +:+ PyFloat.repr yield_value +:+ ";"]
      else f_lines in
    let ro2_count :=
      if Py.startswith (radical_start_string c) product
      then PyFloat.add ro2_count yield_value
      else ro2_count in
    Ok (f_lines, ro2_count)
  else Ok (f_lines, ro2_count).

Fixpoint product_loop (c : config) (st : list string * PyFloat.float)
    (entries : list string) : result (list string * PyFloat.float) :=
  match entries with
  | [] => Ok st
  | entry :: rest => st' ← product_step c st entry; product_loop c st' rest
  end.

(** [f_lines] of one record. *)
Definition stoichiometry (c : config) (reactants product_entries : list string)
  : result (list string) :=
  let f_lines := foldl (reactant_step c) [] reactants in
  '(f_lines, ro2_count) ← product_loop c (f_lines, PyFloat.zero) product_entries;
  Ok (if PyFloat.gt0 ro2_count then f_lines ++ [fRO2_plus ro2_count]
      else f_lines).

Definition reaction_header (i : Z) : string :=
  "%   " +:+ Py.str_of_nat i +:+ ", <R" +:+ Py.str_of_nat_03 i +:+ ">".

(** The second part of the loop body: the block appended to
    [formatted_reactions] and [names_PF] after it.  The data frame
    [df_reactions] is filled but never read, and is left out. *)
Definition emit (c : config) (i : Z) (names_PF : list string)
    (reaction_info reaction_eqn : string) : result (string * list string) :=
  let rate_start :=
    match Py.find "R)" reaction_info with
    | Some k => (k + 2)%nat
    | None => 1%nat
    end in
  let reaction_rate := Py.strip (Py.drop rate_start reaction_info) in
  '(formatted_rate, names_PF) ← format_rate reaction_rate names_PF;
  '(reactant_part, product_part) ← unpack2 (Py.split "=" reaction_eqn);
  let reactants :=
    (fun r => Py.replace "-" "_" (Py.strip r)) <$> Py.split "+" reactant_part in
  let product_entries := Py.strip <$> Py.split "+" product_part in
  let increment_i := "i = i + 1;" in
  let rnames_line :=
    "Rnames{i} = '" +:+ Py.replace "-" "_" reaction_eqn +:+ "';" in
  let rate_line := "k(:,i) = " +:+ formatted_rate +:+ ";" in
  f_lines ← stoichiometry c reactants product_entries;
  Ok (reaction_header i +:+ Py.NL +:+ increment_i +:+ Py.NL +:+ rnames_line
      +:+ Py.NL +:+ rate_line +:+ Py.NL +:+ gstr_lines 1 reactants +:+ Py.NL
      +:+ Py.join Py.NL f_lines,
      names_PF).

(** The state of the loop of [format_for_f0am]. *)
Record state : Type := State {
  i : Z;
  names_PF : list string;
  formatted_reactions : list string
}.

(** One iteration of the loop. *)
Definition step (c : config) (st : state) (reaction : string) : result state :=
  sel ← select c reaction;
  match sel with
  | None => Ok st
  | Some (reaction_info, reaction_eqn) =>
      '(block, names) ← emit c (i st) (names_PF st) reaction_info reaction_eqn;
      Ok (State (i st + 1) names (formatted_reactions st ++ [block]))
  end.

Fixpoint run (c : config) (st : state) (reactions : list string)
  : result state :=
  match reactions with
  | [] => Ok st
  | reaction :: rest => st' ← step c st reaction; run c st' rest
  end.

Definition format_for_f0am (c : config) (reactions : list string)
  : result (list string * list string) :=
  st ← run c (State 1 [] []) reactions;
  Ok (formatted_reactions st, names_PF st).

(** The body of the loop of [load_ref_rxns] for a line that starts with
    [Rnames{]: the reactant part added to the set.  A [find] that fails gives
    [-1]: the text then starts at index [2], and stops before the last
    character of the line. *)
Definition ref_reactant (line : string) : string :=
  let start :=
    match Py.find "= '" line with
    | Some k => (k + 3)%nat
    | None => 2%nat
    end in
  let stop :=
    match Py.find_from "';" start line with
    | Some k => k
    | None => (String.length line - 1)%nat
    end in
  let reaction_eqn := Py.replace "-" "_" (Py.substr start stop line) in
  Py.strip (List.hd EmptyString (Py.split "=" reaction_eqn)).

(** [load_ref_rxns], on the lines of the file. *)
Definition load_ref_rxns (lines : list string) : gset string :=
  foldl (fun reactant_equations line =>
           if Py.startswith "Rnames{" line
           then reactant_equations ∪ {[ref_reactant line]}
           else reactant_equations)
        ∅ lines.

End ReactionExtractor.

(** ** class MechanismWriter *)

Module MechanismWriter.

Definition NUMBER_COMPOUND : nat := 6.

(** A [dict] from names to names is the list of its items in insertion order
    (the keys are distinct); [get d k default] is [d.get(k, default)]. *)
Fixpoint get (d : list (string * string)) (k default : string) : string :=
  match d with
  | [] => default
  | (k', v) :: d' => if String.eqb k' k then v else get d' k default
  end.

(** The line written for the index [i] of the loop over the compounds. *)
Definition species_line (compounds_list : list string) (i : nat) : string :=
  let line_compounds := Py.slice i (i + NUMBER_COMPOUND) compounds_list in
  let line_text :=
    Py.join "; " ((fun comp => "'" +:+ comp +:+ "'") <$> line_compounds) in
  if (length compounds_list <=? i + NUMBER_COMPOUND)%nat
  then line_text +:+ ";};" +:+ Py.NL
  else line_text +:+ ";..." +:+ Py.NL.

(** The inner loop over [name_replacements.items()]. *)
Definition rename (name_replacements : list (string * string))
    (reaction : string) : string :=
  foldl (fun reaction item => Py.replace_str item.1 item.2 reaction)
        reaction name_replacements.

(** [write_mech]: the strings passed to [file_handle.write], in order.
    [target_minyld] is the text that the format string prints for it. *)
Definition write_mech (compounds_list reaction_list : list string)
    (name_replacements : list (string * string))
    (target_reactant target_minyld : string) : list string :=
  let compounds_list :=
    (fun compound => get name_replacements compound compound)
      <$> compounds_list in
  ["% MechGen derived " +:+ target_reactant +:+ " explicit mechanism"
   +:+ Py.NL;
   "% Default mechanism with MinYld=" +:+ target_minyld +:+ Py.NL;
   "SpeciesToAdd = {..." +:+ Py.NL]
  ++ (species_line compounds_list
        <$> Py.range 0 (length compounds_list) NUMBER_COMPOUND)
  ++ [Py.NL +:+ "AddSpecies" +:+ Py.NL +:+ Py.NL; "% Reactions:" +:+ Py.NL]
  ++ ((fun reaction => rename name_replacements reaction +:+ Py.NL +:+ Py.NL)
        <$> reaction_list).

End MechanismWriter.

(** ** The conversion script [mg_output_mech2f0am.py] *)

Module Main.

Definition TARGET_REACTANT : string := "ISOPRENE".
Definition TARGET_GEN : string := "Multi".
Definition TARGET_MINYLD : string := "0.001".

Definition NAME_REPLACEMENTS : list (string * string) :=
  [("RO2", "SumRO2"); ("RCO3", "SumRCO3"); ("SumSum", "Sum");
   ("2M2C5E4O", "TM2C5E4O"); ("4OX2PEAL", "FOX2PEAL");
   ("3M_FURAN", "M3FURAN"); ("2MBUTDAL", "M2BUTDAL")].

Definition DEFAULT_COMPOUNDS : list string :=
  ["RO2"; "RCO3"; "LostMoles"; "LostMass"; "NegC"; "NegH"; "NegN"; "NegO";
   "GLYOXAL"; "FORMACID"].

(** [main], from the lines of the reference file and of the input file to the
    strings written to the output file.  The output file is opened after
    every other step: when a step raises, nothing is written. *)
Definition main (ref_lines input_lines : list string) : result (list string) :=
  let reference_reactions := ReactionExtractor.load_ref_rxns ref_lines in
  '(compounds_total, compounds_sts) ←
    SpeciesExtractor.build_compounds input_lines DEFAULT_COMPOUNDS;
  reactions ← ReactionExtractor.parse_reactions input_lines;
  '(formatted_reactions, names_pf) ←
    ReactionExtractor.format_for_f0am
      (ReactionExtractor.Config TARGET_GEN TARGET_REACTANT compounds_total
         false 0 (Some reference_reactions))
      reactions;
  let '(compounds_cleaned, compounds_dropped) :=
    SpeciesExtractor.clean_null_compounds compounds_total formatted_reactions in
  Ok (MechanismWriter.write_mech compounds_cleaned formatted_reactions
        NAME_REPLACEMENTS TARGET_REACTANT TARGET_MINYLD).

End Main.

(** ** The set-up scripts [main_mg_win_setup_single.py] and
    [main_mg_win_setup_multi.py] *)

Module Setup.

Definition escape_smiles (smiles : string) : string :=
  Py.replace_str ")" "{)}" (Py.replace_str "(" "{(}" smiles).

(** How a call of [wait_for_file] ends, after [polls] calls of
    [os.path.exists]: it returns, or raises [TimeoutError], or [time.sleep]
    raises [ValueError] on a negative interval. *)
Inductive waited : Set :=
| Returned (polls : nat)
| TimeoutError (polls : nat)
| SleepValueError (polls : nat).

(** The loop of [wait_for_file].  [exists_ k] is what the call number [k]
    (from 0) of [os.path.exists] answers; [None] when [fuel] iterations do not
    end the loop. *)
Fixpoint wait_loop (fuel : nat) (exists_ : nat → bool) (k : nat)
    (waited_ wait_interval max_wait : Z) : option waited :=
  match fuel with
  | O => None
  | S f =>
      if exists_ k then Some (Returned (S k))
      else if wait_interval <? 0 then Some (SleepValueError (S k))
      else
        let waited_ := waited_ + wait_interval in
        if max_wait <=? waited_ then Some (TimeoutError (S k))
        else wait_loop f exists_ (S k) waited_ wait_interval max_wait
  end.

Definition wait_for_file (fuel : nat) (exists_ : nat → bool)
    (wait_interval max_wait : Z) : option waited :=
  wait_loop fuel exists_ 0 0 wait_interval max_wait.

End Setup.

(** ** Vocabulary of the statements *)

Module SE := SpeciesExtractor.
Module RE := ReactionExtractor.

(** *** Photolysis markers *)

Definition nonspace (c : ascii) : bool := negb (Py.isspace c).


(** The name registered for the text [raw] that follows [PF=]. *)
Definition canonical_PF (raw : string) : string :=
  let product_name := Py.replace "-" "_" raw in
  if String.eqb product_name "C2CHOabs" then "C2CHO" else product_name.

(** The accumulator after [name] has been seen. *)
Definition register (name : string) (names : list string) : list string :=
  if bool_decide (name ∈ names) then names else names ++ [name].





(** *** Rates *)

(** The text of the two-token Arrhenius form. *)
Definition arrhenius_text (A E0 : PyFloat.float) : string :=
  PyFloat.repr A +:+ " .* exp(" +:+ PyFloat.format_4f (PyFloat.div E0 RE.R)
  +:+ "./T)".

(** *** Lines of a species section *)

(** A blank line: nothing but white space (the line end included). *)
Definition blank (line : string) : bool := Py.forallb Py.isspace line.

(** A comment or continuation line: its first item starts with [!] or [.]. *)
Definition comment_line (line : string) : bool :=
  match Py.split_ws line with
  | tok :: _ => Py.startswith "!" tok || Py.startswith "." tok
  | [] => false
  end.

(** The line holds no [!]. *)
Definition no_bang (line : string) : bool :=
  Py.forallb (fun c => negb (Py.eqc c "!")) line.

(** A line that [extract_species] cannot read. *)
Definition ill_formed (line : string) : bool :=
  blank line || negb (comment_line line) && no_bang line.

(** The section in the words of the specification: the lines strictly between
    the first start marker and the first end marker after it (the end marker
    is searched forward from the start marker). *)
Definition section_forward (lines : list string)
    (string_start string_end : string) : result (list string) :=
  start ← Py.index (string_start +:+ Py.NL) lines;
  let start_index := S start in
  k ← Py.index (string_end +:+ Py.NL) (List.skipn start_index lines);
  Ok (Py.slice start_index (start_index + k) lines).

(** The name holds no hyphen. *)
Definition hyphen_free (s : string) : Prop :=
  Py.forallb (fun c => negb (Py.eqc c "-")) s = true.

(** *** Whole words *)

(** The last character of [s], or [prev] when [s] is empty. *)
Fixpoint last_char (prev : option ascii) (s : string) : option ascii :=
  match s with
  | EmptyString => prev
  | String c s' => last_char (Some c) s'
  end.

(** [c] occurs in [text] as a whole word: between two word boundaries. *)
Definition whole_word (c text : string) : Prop :=
  ∃ pre post,
    text = pre +:+ c +:+ post
    ∧ Re.boundary (last_char None pre) (c +:+ post) = true
    ∧ Re.boundary (last_char None (pre +:+ c)) post = true.

(** A name made of word characters only, at least one. *)
Definition wordlike (c : string) : bool :=
  Py.truthy c && Py.forallb Py.isword c.

(** [c] is matched by [\bc\b] at offset [k] of the text [s] that follows the
    character [prev]. *)
Fixpoint occurs_at (c : string) (prev : option ascii) (s : string) (k : nat)
  {struct k} : bool :=
  match k with
  | O => Re.matches_here prev s false c
  | S k' =>
      match s with
      | String a s' => occurs_at c (Some a) s' k'
      | EmptyString => false
      end
  end.

(** *** Reaction records *)

(** The string holds no [#]. *)
Definition no_hash (s : string) : bool :=
  Py.forallb (fun c => negb (Py.eqc c "#")) s.

(** A line of the reaction block as [parse_reactions] reads it. *)
Definition normal_line (line : string) : string :=
  Py.remove "#" (Py.strip line).

(** The line starts a new record. *)
Definition starts_record (line : string) : bool :=
  Py.startswith "R)" (normal_line line).

(** The records that [parse_reactions] makes of the lines of a block. *)
Definition records_of (block : list string) : list string :=
  let '(current_reaction, reactions) :=
    foldl RE.parse_line (EmptyString, []) block in
  if Py.truthy current_reaction then reactions ++ [current_reaction]
  else reactions.

(** What the loop of [parse_reactions] keeps true. *)
Definition records_inv (st : string * list string) : Prop :=
  no_hash st.1 = true
  ∧ Forall (fun r => no_hash r = true) st.2
  ∧ Forall (fun r => Py.truthy r = true) st.2
  ∧ (st.2 ≠ [] → Py.startswith "R)" st.1 = true
                ∧ Forall (fun r => Py.startswith "R)" r = true) (tail st.2)).

(** The number of records in a state of the loop, the open one included. *)
Definition held (st : string * list string) : nat :=
  (length st.2 + if Py.truthy st.1 then 1 else 0)%nat.

(** *** The parts of a record that the filters look at *)

Module Record.

Import ReactionExtractor.

Definition first_item (sep : ascii) (s : string) : string :=
  List.hd EmptyString (Py.split sep s).

(** The record holds no [;]. *)
Definition no_delimiter (reaction : string) : bool :=
  Py.forallb (fun ch => negb (Py.eqc ch ";")) reaction.

(** [reaction_eqn], from the second part [p1] of the record. *)
Definition equation_of (p1 : string) : string :=
  Py.replace "-" "_" (Py.strip p1).

(** [reactant_part], the text left of the first [=]. *)
Definition reactant_part_of (p1 : string) : string :=
  Py.strip (first_item "=" (equation_of p1)).

(** [species_label], also [radical_label]. *)
Definition species_label_of (p1 : string) : string :=
  first_item " " (reactant_part_of p1).

Definition in_reference (c : config) (reactant_part : string) : bool :=
  match reference_reactions c with
  | Some refs => bool_decide (reactant_part ∈ refs)
  | None => false
  end.

Definition cutoff_applies (c : config) (reactant_part : string) : bool :=
  negb (radical_cutoff c =? 0)
  && Py.startswith (radical_start_string c) reactant_part.

(** The record passes every filter. *)
Definition passes (c : config) (reaction : string) : bool :=
  match select c reaction with
  | Ok (Some _) => true
  | _ => false
  end.

(** The rate clause has the numeric form of two or three items. *)
Definition numeric_form (rate_str : string) : bool :=
  match Py.split_ws rate_str with
  | [a; e] | [a; e; _] =>
      is_ok (PyFloat.float_of_string a) && is_ok (PyFloat.float_of_string e)
  | _ => false
  end.

End Record.

(** *** The stoichiometry lines of one record, line by line *)

Module Stoich.

Import ReactionExtractor.

(** The lines of one reactant: its own line, then the line of the radical
    pool when the reactant starts with the radical prefix. *)
Definition reactant_lines (c : config) (reactant : string) : list string :=
  if String.eqb reactant "HV" then []
  else ("f" +:+ reactant +:+ "(i) = f" +:+ reactant +:+ "(i) - 1;")
       :: (if Py.startswith (radical_start_string c) reactant
           then [fRO2_minus] else []).

(** The line of one product, given its yield and its species. *)
Definition product_lines (c : config) (p : PyFloat.float * string)
  : list string :=
  if Py.truthy (Py.strip p.2)
     && (para_soa c || negb (Py.startswith "VBS" p.2))
  then ["f" +:+ p.2 +:+ "(i) = f" +:+ p.2 +:+ "(i) + "
        +:+ PyFloat.repr p.1 +:+ ";"]
  else [].

(** The product belongs to the radical pool. *)
Definition in_pool (c : config) (species : string) : bool :=
  Py.truthy (Py.strip species)
  && Py.startswith (radical_start_string c) species.

(** The sum of the yields of the products in the radical pool. *)
Definition pool_gain (c : config) (products : list (PyFloat.float * string))
  : PyFloat.float :=
  foldl (fun acc p => if in_pool c p.2 then PyFloat.add acc p.1 else acc)
        PyFloat.zero products.

(** The number of reactants in the radical pool. *)
Definition pool_loss (c : config) (reactants : list string) : Z :=
  Z.of_nat (length (List.filter
                      (fun r => negb (String.eqb r "HV")
                                && Py.startswith (radical_start_string c) r)
                      reactants)).

(** The last line: the gain of the radical pool, when it is positive. *)
Definition pool_line (gain : PyFloat.float) : list string :=
  if PyFloat.gt0 gain then [fRO2_plus gain] else [].

(** The net change of the radical pool in the specification's words: the
    yields of the products in the pool, minus one for each reactant in it. *)
Definition net_radical_delta (c : config) (reactants : list string)
    (products : list (PyFloat.float * string)) : PyFloat.float :=
  PyFloat.add (pool_gain c products)
              (PyFloat.of_decimal true (pool_loss c reactants) 0).

(** A line that changes [fRO2]. *)
Definition fRO2_line (line : string) : bool :=
  Py.startswith "fRO2(i) = fRO2(i)" line.

End Stoich.

(** ** Example inputs *)

Module Ex.

Definition header : list string := ["header" +:+ Py.NL].

(** A species section with a blank line. *)
Definition blank_section : list string :=
  ["O3P ! 1 O3P" +:+ Py.NL; Py.NL; "OH ! 2 OH" +:+ Py.NL].

(** A mechanism file whose [.RXN] line also occurs before [.STS]. *)
Definition rxn_first : list string :=
  (fun s => s +:+ Py.NL) <$> [".RXN"; ".STS"; "O3P ! 1 O3P"; ".RXN"].

(** A mechanism file with an active and a steady-state section. *)
Definition mechanism : list string :=
  (fun s => s +:+ Py.NL) <$>
    [".ACT"; "! active"; "b-1 ! 1 B"; "RO2 ! 2 RO2"; "O3P ! 3 O3P";
     ".STS"; "O3P ! 1 O3P"; ".RXN"; "R) 1.0E-11 0.0 ;b-1 + O3P = RO2"].

(** Single-generation mode, precursor [ISOPRENE], cutoff [2]. *)
Definition single : ReactionExtractor.config :=
  ReactionExtractor.Config "Single" "ISOPRENE"
    ["ISOPRENEr3_x"; "ISOPRENEr2_x"; "ISOPRENEr3"; "ISOPRENEr2"; "NO"]
    false 2 None.

(** The same, where the two identifiers of the specification are not
    declared species. *)
Definition single_undeclared : ReactionExtractor.config :=
  ReactionExtractor.Config "Single" "ISOPRENE" ["ISOPRENEr3"; "NO"]
    false 2 None.

(** Three records: the second has no [;]. *)
Definition records : list string :=
  ["R) 1.0E-11 0.0 ;A + B = C + 0.5 RAD_2"; "R) 1.0E-11 0.0 A = C";
   "R) PF=X-Y ;E + HV = F"].

Definition blocks : list string :=
  [Py.join Py.NL
     ["%   1, <R001>"; "i = i + 1;"; "Rnames{i} = 'A + B = C + 0.5 RAD_2';";
      "k(:,i) = 1e-11 .* exp(-0.0000./T);";
      "Gstr{i,1} = 'A'; Gstr{i,2} = 'B'; ";
      "fA(i) = fA(i) - 1;"; "fB(i) = fB(i) - 1;"; "fC(i) = fC(i) + 1.0;";
      "fRAD_2(i) = fRAD_2(i) + 0.5;"; "fRO2(i) = fRO2(i) + 0.5;"];
   Py.join Py.NL
     ["%   2, <R002>"; "i = i + 1;"; "Rnames{i} = 'E + HV = F';";
      "k(:,i) = JX_Y;"; "Gstr{i,1} = 'E'; ";
      "fE(i) = fE(i) - 1;"; "fF(i) = fF(i) + 1.0;"]].

(** Multi-generation mode, cutoff [3], with a reference set. *)
Definition with_refs : ReactionExtractor.config :=
  ReactionExtractor.Config "Multi" "ISOPRENE" ["A"; "E"; "RAD_1"; "RAD_5"]
    false 3 (Some {["A + B"]}).

(** Multi-generation mode, no cutoff, no reference set. *)
Definition multi : ReactionExtractor.config :=
  ReactionExtractor.Config "Multi" "ISOPRENE" ["A"; "E"; "RAD_1"] false 0 None.

End Ex.

(** *** The photolysis names of a run *)

(** What every name that a run registers looks like: not empty, without a
    hyphen, and never [C2CHOabs]. *)
Definition PF_name (name : string) : Prop :=
  name ≠ EmptyString ∧ hyphen_free name ∧ name ≠ "C2CHOabs".

(** The block holds the rate line of the photolysis [name]: a line that
    starts with [k(:,i) = J] and the name. *)
Definition photolysis_rate_line (name block : string) : Prop :=
  ∃ pre post,
    block = pre +:+ Py.NL +:+ "k(:,i) = J" +:+ name +:+ post.

(** *** The species block of the output file *)

(** The line written for a group of names: the names in quotes, separated by
    [; ], then [;};] after the last group and [;...] after the others. *)
Definition group_line (last : bool) (group : list string) : string :=
  Py.join "; " ((fun comp => "'" +:+ comp +:+ "'") <$> group)
  +:+ (if last then ";};" else ";...") +:+ Py.NL.

(** *** Key sequences *)

(** What [escape_smiles] types for one character. *)
Definition escape_char (c : ascii) : string :=
  if Py.eqc c "(" then "{(}"
  else if Py.eqc c ")" then "{)}"
  else String c EmptyString.

(** A string rewritten character by character. *)
Fixpoint per_char (f : ascii → string) (s : string) : string :=
  match s with
  | EmptyString => EmptyString
  | String c s' => f c +:+ per_char f s'
  end.

(** *** Waiting for a file *)

(** The number of calls of [os.path.exists] made. *)
Definition polls_of (w : Setup.waited) : nat :=
  match w with
  | Setup.Returned polls | Setup.TimeoutError polls
  | Setup.SleepValueError polls => polls
  end.

(** *** The outcome of a run *)

(** The exception of a result, if any. *)
Definition raised {A : Type} (r : result A) : option exn :=
  match r with Ok _ => None | Raise e => Some e end.

(** *** Characters that a name cannot hold *)

(** The string holds no character [a]. *)
Definition free_of (a : ascii) (s : string) : bool :=
  Py.forallb (fun c => negb (Py.eqc c a)) s.

(** A row as [extract_species] can return it: no space and no [!] in the tool
    name; no space, no [!] and no end of line in the common name. *)
Definition clean_row (r : SpeciesExtractor.row) : Prop :=
  free_of " " (SpeciesExtractor.MGName r) = true
  ∧ free_of "!" (SpeciesExtractor.MGName r) = true
  ∧ free_of " " (SpeciesExtractor.Species r) = true
  ∧ free_of "!" (SpeciesExtractor.Species r) = true
  ∧ free_of Py.nl (SpeciesExtractor.Species r) = true.

(** *** The first row of each common name *)

(** The rows of [all_rows] whose common name is not the common name of a row
    before them, in their order. *)
Definition first_rows (all_rows : list SpeciesExtractor.row)
  : list SpeciesExtractor.row :=
  List.concat
    (imap (fun i r =>
             if bool_decide (SpeciesExtractor.Species r
                             ∈ SpeciesExtractor.Species <$> take i all_rows)
             then [] else [r])
          all_rows).

(** * Properties *)

(** ** Strings *)

Tactic Notation "bind_simpl" :=
  cbn [mbind result_bind mret result_ret Py.item0 Py.item1 negb andb orb].
Tactic Notation "bind_simpl" "in" hyp(H) :=
  cbn [mbind result_bind mret result_ret Py.item0 Py.item1 negb andb orb] in H.

Section StringFacts.

Lemma split_cons sep s : ∃ w ws, Py.split sep s = w :: ws.
Proof.
  destruct s as [|c s]; simpl; [eauto|].
  destruct (Py.eqc c sep); [eauto|].
  destruct (Py.split sep s); eauto.
Qed.

Lemma item0_split sep s : ∃ w, Py.item0 (Py.split sep s) = Ok w.
Proof. destruct (split_cons sep s) as (w & ws & ->). simpl. eauto. Qed.

Lemma eqc_eq a b : Py.eqc a b = true ↔ a = b.
Proof. apply Ascii.eqb_eq. Qed.

Lemma eqc_refl a : Py.eqc a a = true.
Proof. apply Ascii.eqb_refl. Qed.

Lemma app_String a (s t : string) : String a s +:+ t = String a (s +:+ t).
Proof. reflexivity. Qed.

Lemma app_empty (t : string) : EmptyString +:+ t = t.
Proof. reflexivity. Qed.

Lemma app_assoc_str (a b c : string) : (a +:+ b) +:+ c = a +:+ (b +:+ c).
Proof.
  induction a as [|x a IH]; [done|]. by rewrite !app_String, IH.
Qed.

Lemma startswith_app p s : Py.startswith p (p +:+ s) = true.
Proof.
  induction p as [|a p IH]; [done|].
  rewrite app_String. simpl. by rewrite eqc_refl.
Qed.

Lemma startswith_inv p s :
  Py.startswith p s = true → ∃ r, s = p +:+ r.
Proof.
  revert s. induction p as [|a p IH]; intros s H; simpl in *; [eauto|].
  destruct s as [|b s]; [done|].
  apply andb_prop in H as [Hab Hp]. apply eqc_eq in Hab as ->.
  destruct (IH _ Hp) as [r ->]. by exists r.
Qed.

Lemma drop_app p s : Py.drop (String.length p) (p +:+ s) = s.
Proof. induction p as [|a p IH]; [by destruct s|done]. Qed.

(** No hyphen is left after [replace('-', '_')]. *)
Lemma replace_hyphen_free s :
  Py.forallb (fun c => negb (Py.eqc c "-")) (Py.replace "-" "_" s) = true.
Proof.
  induction s as [|c s IH]; simpl; [done|].
  rewrite IH, andb_true_r. by destruct (Py.eqc c "-") eqn:E; [|rewrite E].
Qed.

End StringFacts.

(** ** The rate translation *)

Section Rate.

Lemma handle_photolysis_no_PF value names :
  Py.find "PF=" value = None → RE.handle_photolysis value names = (value, names).
Proof. intros H. unfold RE.handle_photolysis. by rewrite H. Qed.

Lemma float_of_string_ValueError s e :
  PyFloat.float_of_string s = Raise e → e = ValueError.
Proof.
  unfold PyFloat.float_of_string. intros H.
  repeat (case_match; simplify_eq; try done).
Qed.

Lemma arrhenius_ValueError rate_str parts e :
  RE.arrhenius rate_str parts = Raise e → e = ValueError.
Proof.
  unfold RE.arrhenius. intros H.
  repeat (case_match; simplify_eq; try done);
    unfold mbind, result_bind in H;
    repeat (case_match; simplify_eq; try done);
    eauto using float_of_string_ValueError.
Qed.

(** [format_rate] never raises. *)
Lemma format_rate_total rate_str names :
  ∃ text names', RE.format_rate rate_str names = Ok (text, names').
Proof.
  unfold RE.format_rate. destruct (RE.handle_photolysis rate_str names) as [v n].
  case_match; [eauto|].
  destruct (RE.arrhenius rate_str (Py.split_ws v)) as [t|e] eqn:E; simpl; [eauto|].
  apply arrhenius_ValueError in E as ->. simpl. eauto.
Qed.

End Rate.

Section Photolysis.

Lemma run_group f raw post :
  Py.forallb f raw = true →
  match post with EmptyString => true | String c _ => negb (f c) end = true →
  Re.run f (raw +:+ post) = raw.
Proof.
  intros Hraw Hpost. induction raw as [|c raw IH].
  - rewrite app_empty. destruct post as [|c post]; [done|]. simpl.
    by destruct (f c).
  - rewrite app_String. simpl in *. apply andb_prop in Hraw as [-> Hraw].
    by rewrite IH.
Qed.





(** *** The leftmost match of [tag([f]+)] *)
















End Photolysis.

Section PhotolysisClaims.

Lemma register_NoDup name names : NoDup names → NoDup (register name names).
Proof.
  intros H. unfold register. case_bool_decide; [done|].
  apply NoDup_app. split_and!; [done| |apply NoDup_singleton].
  by intros x Hx ->%list_elem_of_singleton.
Qed.

Lemma register_prefix name names : names `prefix_of` register name names.
Proof.
  unfold register. case_bool_decide; [done|]. by apply prefix_app_r.
Qed.






(** The accumulator of a whole run holds no name twice. *)
Lemma names_PF_NoDup values :
  NoDup (foldl (fun names value => (RE.handle_photolysis value names).2)
               [] values).
Proof.
  assert (∀ names, NoDup names →
    NoDup (foldl (fun names value => (RE.handle_photolysis value names).2)
                 names values)) as H; [|apply H, NoDup_nil_2].
  induction values as [|v vs IH]; intros names Hn; [done|]. simpl.
  apply IH. unfold RE.handle_photolysis.
  destruct (bool_decide _); [|done].
  destruct (Re.search_PF v) as [g|]; [|done].
  destruct (Re.search_QY v); simpl; by apply (register_NoDup (canonical_PF g)).
Qed.

End PhotolysisClaims.

Section RateClaims.

Lemma format_rate_tokens rate_str names parts text :
  Py.find "PF=" rate_str = None →
  Py.split_ws rate_str = parts →
  RE.arrhenius rate_str parts = Ok text →
  RE.format_rate rate_str names = Ok (text, names).
Proof.
  intros HPF Hparts Harr. unfold RE.format_rate.
  rewrite handle_photolysis_no_PF by done.
  rewrite String.eqb_refl. simpl. by rewrite Hparts, Harr.
Qed.

(** C3, as the program has it.  A fragment of two tokens [a e] that are
    numerals becomes [A .* exp(E./T)], where [A] is [repr(float(a))] and [E]
    is [float(e) / R] with four decimals, [R = -0.001987204258640]; a fragment
    of three tokens [a e B] becomes the same text followed by
    [ .* (T./300).^B], with [B] as written.  On [1.5E-12 -1.0] the result is
    [1.5e-12 .* exp(503.2195./T)]. *)
Theorem format_rate_arrhenius r2 r3 names a e B A E0 :
  Py.find "PF=" r2 = None →
  Py.find "PF=" r3 = None →
  Py.split_ws r2 = [a; e] →
  Py.split_ws r3 = [a; e; B] →
  PyFloat.float_of_string a = Ok A →
  PyFloat.float_of_string e = Ok E0 →
  RE.format_rate r2 names = Ok (arrhenius_text A E0, names)
  ∧ RE.format_rate r3 names
    = Ok (arrhenius_text A E0 +:+ " .* (T./300).^" +:+ B, names)
  ∧ PyFloat.float_of_string "-0.001987204258640" = Ok RE.R
  ∧ RE.format_rate "1.5E-12 -1.0" names
    = Ok ("1.5e-12 .* exp(503.2195./T)", names).
Proof.
  intros H2 H3 Hs2 Hs3 Ha He. split_and!.
  - apply (format_rate_tokens _ _ [a; e]); [done..|].
    unfold RE.arrhenius. rewrite Ha, He. done.
  - apply (format_rate_tokens _ _ [a; e; B]); [done..|].
    unfold RE.arrhenius. rewrite Ha, He. simpl. f_equal.
    unfold arrhenius_text. by rewrite !app_assoc_str.
  - by vm_compute.
  - apply (format_rate_tokens _ _ ["1.5E-12"; "-1.0"]); by vm_compute.
Qed.

Lemma format_rate_arrhenius_witness :
  Py.find "PF=" "2.5E-11 0.38" = None
  ∧ Py.find "PF=" "2.5E-11 0.38 -1.2" = None
  ∧ Py.split_ws "2.5E-11 0.38" = ["2.5E-11"; "0.38"]
  ∧ Py.split_ws "2.5E-11 0.38 -1.2" = ["2.5E-11"; "0.38"; "-1.2"]
  ∧ PyFloat.float_of_string "2.5E-11" = Ok (PyFloat.of_decimal false 25 (-12))
  ∧ PyFloat.float_of_string "0.38" = Ok (PyFloat.of_decimal false 38 (-2))
  ∧ RE.format_rate "2.5E-11 0.38 -1.2" []
    = Ok ("2.5e-11 .* exp(-191.2234./T) .* (T./300).^-1.2", []).
Proof.
  split_and!; [by vm_compute..|].
  destruct (format_rate_arrhenius "2.5E-11 0.38" "2.5E-11 0.38 -1.2" []
              "2.5E-11" "0.38" "-1.2"
              (PyFloat.of_decimal false 25 (-12))
              (PyFloat.of_decimal false 38 (-2))
              eq_refl eq_refl eq_refl eq_refl eq_refl eq_refl)
    as (_ & H & _).
  exact H.
Defined.

(** C3 as the specification words it fails twice: the activation term of
    [1.5E-12 -1.0] is not [503.2332], and the third token is not appended as
    [.* (T/300)^B]. *)
Lemma format_rate_spec_text_refuted :
  RE.format_rate "1.5E-12 -1.0" [] ≠ Ok ("1.5e-12 .* exp(503.2332./T)", [])
  ∧ RE.format_rate "1.5E-12 -1.0 2.5" []
    ≠ Ok ("1.5e-12 .* exp(503.2195./T) .* (T/300)^2.5", [])
  ∧ RE.format_rate "1.5E-12 -1.0 2.5" []
    ≠ Ok ("1.5e-12 .* exp(503.2332./T) .* (T/300)^2.5", []).
Proof. split_and!; by vm_compute. Qed.

End RateClaims.

(** ** Species sections *)

Section Sections.

Lemma index_first x pre post :
  x ∉ pre → Py.index x (pre ++ x :: post) = Ok (length pre).
Proof.
  induction pre as [|y pre IH]; intros Hx; simpl.
  - by rewrite String.eqb_refl.
  - apply not_elem_of_cons in Hx as [Hxy Hx].
    destruct (String.eqb y x) eqn:E; [by apply String.eqb_eq in E|].
    by rewrite IH.
Qed.

Lemma index_absent x l : x ∉ l → Py.index x l = Raise ValueError.
Proof.
  induction l as [|y l IH]; intros Hx; simpl; [done|].
  apply not_elem_of_cons in Hx as [Hxy Hx].
  destruct (String.eqb y x) eqn:E; [by apply String.eqb_eq in E|].
  by rewrite IH.
Qed.

Lemma index_Ok x l k : Py.index x l = Ok k → l !! k = Some x.
Proof.
  revert k. induction l as [|y l IH]; intros k; simpl; [done|].
  destruct (String.eqb y x) eqn:E.
  - apply String.eqb_eq in E as ->. by intros [= <-].
  - destruct (Py.index x l) as [j|]; simpl; [|done].
    intros [= <-]. by apply IH.
Qed.

Lemma slice_between {A} (pre sec post : list A) s e :
  Py.slice (S (length pre)) (length (pre ++ s :: sec))
           (pre ++ s :: sec ++ e :: post) = sec.
Proof.
  unfold Py.slice.
  replace (length (pre ++ s :: sec) - S (length pre))%nat with (length sec)
    by (rewrite length_app; simpl; lia).
  rewrite (cons_middle s pre), (assoc_L (++) pre [s]).
  rewrite drop_app_length' by (rewrite length_app; simpl; lia).
  by rewrite take_app_length.
Qed.

(** The lines that [extract_species] reads from a file
    [pre; start; sec; end; post], when [start] is the first start marker and
    no end marker comes before [end]. *)
Lemma section_between pre sec post string_start string_end :
  string_start +:+ Py.NL ∉ pre →
  string_end +:+ Py.NL ∉ pre ++ (string_start +:+ Py.NL) :: sec →
  SE.section (pre ++ (string_start +:+ Py.NL) :: sec
                  ++ (string_end +:+ Py.NL) :: post)
             string_start string_end = Ok sec.
Proof.
  intros Hs He. unfold SE.section.
  rewrite index_first by done. simpl.
  rewrite (app_comm_cons sec), (assoc_L (++) pre).
  rewrite index_first by done. simpl.
  rewrite <- (assoc_L (++) pre), <- app_comm_cons.
  by rewrite slice_between.
Qed.

End Sections.

Section IllFormedLines.

Lemma words_blank s : blank s = true → Py.words s = (EmptyString, []).
Proof.
  unfold blank. induction s as [|c s IH]; simpl; [done|].
  intros [Hc Hs]%andb_prop. by rewrite IH, Hc.
Qed.

Lemma words_nonblank s :
  blank s = false → let '(w, ws) := Py.words s in Py.push w ws ≠ [].
Proof.
  unfold blank. induction s as [|c s IH]; simpl; [done|].
  destruct (Py.words s) as [w ws]. destruct (Py.isspace c); simpl; [|done].
  intros Hs. specialize (IH Hs). by destruct w.
Qed.

Lemma split_ws_blank s : blank s = true ↔ Py.split_ws s = [].
Proof.
  split.
  - intros H. unfold Py.split_ws. by rewrite words_blank.
  - intros H. destruct (blank s) eqn:E; [done|].
    apply words_nonblank in E. unfold Py.split_ws in H.
    by destruct (Py.words s).
Qed.

Lemma split_no_sep sep s :
  Py.forallb (fun c => negb (Py.eqc c sep)) s = true → Py.split sep s = [s].
Proof.
  induction s as [|c s IH]; simpl; [done|].
  intros [Hc Hs]%andb_prop. apply negb_true_iff in Hc. by rewrite Hc, IH.
Qed.

Lemma split_has_sep sep s :
  Py.forallb (fun c => negb (Py.eqc c sep)) s = false →
  ∃ a b rest, Py.split sep s = a :: b :: rest.
Proof.
  induction s as [|c s IH]; simpl; [done|].
  destruct (Py.eqc c sep); simpl.
  - intros _. destruct (split_cons sep s) as (w & ws & ->). eauto.
  - intros Hs. destruct (IH Hs) as (a & b & rest & ->). eauto.
Qed.

Lemma extract_line_raise line :
  ill_formed line = true → SE.extract_line line = Raise IndexError.
Proof.
  unfold ill_formed, SE.extract_line, comment_line.
  destruct (blank line) eqn:Hb.
  - intros _. apply split_ws_blank in Hb. by rewrite Hb.
  - destruct (Py.split_ws line) as [|tok rest]; [done|].
    rewrite orb_false_l. intros [Hc Hn]%andb_prop.
    apply negb_true_iff, orb_false_elim in Hc as [H1 H2].
    bind_simpl. rewrite H1, H2. bind_simpl.
    rewrite (split_no_sep "!" line) by done. bind_simpl.
    by destruct (item0_split " " line) as [w ->].
Qed.

Lemma extract_line_ok line :
  ill_formed line = false → ∃ r, SE.extract_line line = Ok r.
Proof.
  unfold ill_formed, SE.extract_line, comment_line.
  intros [Hb H]%orb_false_elim.
  destruct (Py.split_ws line) as [|tok rest] eqn:Hw.
  { apply split_ws_blank in Hw. congruence. }
  bind_simpl.
  destruct (Py.startswith "!" tok || Py.startswith "." tok) eqn:Hc.
  - apply orb_prop in Hc as [-> | ->]; rewrite ?andb_false_r; bind_simpl; eauto.
  - apply orb_false_elim in Hc as [H1 H2]. rewrite H1, H2 in *. bind_simpl.
    destruct (split_has_sep "!" line H) as (a & b & l & ->). bind_simpl.
    destruct (item0_split " " a) as [w ->]. bind_simpl.
    destruct (item0_split Py.nl b) as [t ->]. bind_simpl. eauto.
Qed.

Lemma extract_lines_raise sec :
  Exists (fun line => ill_formed line = true) sec →
  SE.extract_lines sec = Raise IndexError.
Proof.
  induction sec as [|line sec IH]; intros H; [by apply Exists_nil in H|].
  simpl. destruct (ill_formed line) eqn:E.
  - by rewrite extract_line_raise.
  - destruct (extract_line_ok line E) as [r ->]. simpl.
    apply Exists_cons in H as [H|H]; [congruence|]. by rewrite IH.
Qed.

Lemma extract_lines_ok sec :
  Forall (fun line => ill_formed line = false) sec →
  ∃ rows, SE.extract_lines sec = Ok rows.
Proof.
  induction 1 as [|line sec Hl _ [rows IH]]; simpl; [eauto|].
  destruct (extract_line_ok line Hl) as [r ->]. simpl. rewrite IH. simpl. eauto.
Qed.

(** C10. In a file [pre; start; sec; end; post] whose section is [sec],
    [extract_species] raises [IndexError] as soon as one line of [sec] is
    blank, or is not a comment line and holds no [!]; it returns rows only
    when no line of [sec] is of that kind. *)
Theorem extract_species_ill_formed pre sec post string_start string_end :
  string_start +:+ Py.NL ∉ pre →
  string_end +:+ Py.NL ∉ pre ++ (string_start +:+ Py.NL) :: sec →
  let lines := pre ++ (string_start +:+ Py.NL) :: sec
                   ++ (string_end +:+ Py.NL) :: post in
  ((∃ line, line ∈ sec ∧ (blank line = true
                          ∨ comment_line line = false ∧ no_bang line = true)) →
   SE.extract_species lines string_start string_end = Raise IndexError)
  ∧ ((∀ line, line ∈ sec → ill_formed line = false) →
     ∃ rows, SE.extract_species lines string_start string_end = Ok rows).
Proof.
  intros Hs He lines. unfold SE.extract_species. subst lines.
  rewrite section_between by done. simpl. split.
  - intros (line & Hin & Hbad). rewrite extract_lines_raise; [done|].
    apply Exists_exists. exists line. split; [done|]. unfold ill_formed.
    destruct Hbad as [-> | [-> ->]]; [done|]. by rewrite orb_true_r.
  - intros Hall. destruct (extract_lines_ok sec) as [rows ->]; simpl; [|eauto].
    by apply Forall_forall.
Qed.

Lemma extract_species_ill_formed_witness :
  ((".STS" +:+ Py.NL) ∉ Ex.header)
  ∧ ((".RXN" +:+ Py.NL) ∉ (Ex.header ++ (".STS" +:+ Py.NL) :: Ex.blank_section))
  ∧ SE.extract_species
      (Ex.header ++ (".STS" +:+ Py.NL) :: Ex.blank_section
                 ++ (".RXN" +:+ Py.NL) :: [])
      ".STS" ".RXN" = Raise IndexError.
Proof.
  assert ((".STS" +:+ Py.NL) ∉ Ex.header) as Hs.
  { by intros ?%list_elem_of_singleton. }
  assert ((".RXN" +:+ Py.NL)
            ∉ (Ex.header ++ (".STS" +:+ Py.NL) :: Ex.blank_section)) as He.
  { apply not_elem_of_app. split; [by intros ?%list_elem_of_singleton|].
    unfold Ex.blank_section.
    rewrite !not_elem_of_cons. split_and!; try done. apply not_elem_of_nil. }
  split_and!; [done..|].
  apply (extract_species_ill_formed Ex.header Ex.blank_section [] _ _ Hs He).
  exists Py.NL. split; [|by left].
  apply list_elem_of_further, list_elem_of_here.
Defined.

End IllFormedLines.

(** ** The compound list *)

Section Compounds.

(** C8. [extract_species] looks for the end marker from the top of the file,
    not from the start marker: when [.RXN] also occurs before [.STS], the
    section it reads is empty, whereas the section between the start marker
    and the next end marker holds one species line. *)
Theorem extract_species_end_marker_from_top :
  SE.section Ex.rxn_first ".STS" ".RXN" = Ok []
  ∧ SE.extract_species Ex.rxn_first ".STS" ".RXN" = Ok []
  ∧ section_forward Ex.rxn_first ".STS" ".RXN" = Ok ["O3P ! 1 O3P" +:+ Py.NL]
  ∧ SE.extract_lines ["O3P ! 1 O3P" +:+ Py.NL] = Ok [SE.Row "O3P" "O3P"].
Proof. split_and!; by vm_compute. Qed.

Lemma act_filter (defaults sts act : list string) :
  List.filter (fun comp => negb (bool_decide (comp ∈ defaults))
                           && negb (bool_decide (comp ∈ sts))) act
  = filter (fun c => (c ∉ defaults) ∧ (c ∉ sts)) act.
Proof.
  induction act as [|c act IH]; [done|].
  rewrite filter_cons. simpl. rewrite IH.
  destruct (decide ((c ∉ defaults) ∧ (c ∉ sts))) as [[H1 H2]|H].
  - by rewrite !bool_decide_eq_false_2.
  - apply not_and_l in H as [H|H]; apply dec_stable in H;
      rewrite (bool_decide_eq_true_2 _ H); simpl; by rewrite ?andb_false_r.
Qed.

(** C6, as the program has it.  When both sections of the file can be read,
    [build_compounds] returns the defaults, then the active names that are
    neither a default nor a steady-state name (in their order), then the
    steady-state names, and no returned name holds a hyphen.  The active part
    adds no copy of a default or of a steady-state name, the names being
    compared as the file writes them.  The list as a whole holds no name twice
    exactly when the three parts, with their hyphens replaced, are free of
    duplicates and share no name; so it is when the defaults, the active names
    and the steady-state names are each free of duplicates, no default is a
    steady-state name, and no two names differ by hyphens against underscores
    only. *)
Theorem build_compounds_order lines defaults rows_sts rows_act :
  SE.extract_species lines ".STS" ".RXN" = Ok rows_sts →
  SE.extract_species lines ".ACT" ".RXN" = Ok rows_act →
  let sts := SE.MGName <$> rows_sts in
  let act := SE.MGName <$> rows_act in
  let kept := filter (fun c => (c ∉ defaults) ∧ (c ∉ sts)) act in
  let total := Py.replace "-" "_" <$> (defaults ++ kept ++ sts) in
  SE.build_compounds lines defaults = Ok (total, sts)
  ∧ Forall hyphen_free total
  ∧ (∀ c, c ∈ act → c ∈ defaults ∨ c ∈ sts → c ∉ kept)
  ∧ (∀ c, c ∈ act → c ∉ defaults → c ∉ sts → c ∈ kept)
  ∧ kept `sublist_of` act
  ∧ (NoDup total ↔
     NoDup (Py.replace "-" "_" <$> defaults)
     ∧ NoDup (Py.replace "-" "_" <$> kept)
     ∧ NoDup (Py.replace "-" "_" <$> sts)
     ∧ (∀ x, x ∈ Py.replace "-" "_" <$> defaults →
             x ∉ Py.replace "-" "_" <$> (kept ++ sts))
     ∧ (∀ x, x ∈ Py.replace "-" "_" <$> kept →
             x ∉ Py.replace "-" "_" <$> sts))
  ∧ (NoDup defaults → NoDup act → NoDup sts →
     (∀ c, c ∈ defaults → c ∉ sts) →
     (∀ x y, x ∈ defaults ++ act ++ sts → y ∈ defaults ++ act ++ sts →
             Py.replace "-" "_" x = Py.replace "-" "_" y → x = y) →
     NoDup total).
Proof.
  intros Hsts Hact sts act kept total. split_and!.
  - unfold SE.build_compounds. rewrite Hsts, Hact. bind_simpl.
    by rewrite act_filter.
  - apply Forall_fmap, Forall_forall. intros c _. apply replace_hyphen_free.
  - intros c _ Hc [H1 H2]%list_elem_of_filter. destruct Hc; tauto.
  - intros c Hc H1 H2. by apply list_elem_of_filter.
  - apply sublist_filter.
  - unfold total. rewrite !fmap_app, !NoDup_app. split.
    + by intros (Hd & Hdk & Hk & Hks & Hs).
    + by intros (Hd & Hk & Hs & Hdk & Hks).
  - intros Hd Ha Hs Hds Hinj. unfold total.
    apply NoDup_fmap_2_strong.
    + intros x y Hx Hy. apply Hinj.
      * rewrite !elem_of_app in *. destruct Hx as [?|[Hx|?]]; [tauto| |tauto].
        apply list_elem_of_filter in Hx. tauto.
      * rewrite !elem_of_app in *. destruct Hy as [?|[Hy|?]]; [tauto| |tauto].
        apply list_elem_of_filter in Hy. tauto.
    + assert (∀ x, x ∈ kept → x ∈ act ∧ (x ∉ defaults) ∧ (x ∉ sts)) as Hkept.
      { intros x Hx. apply list_elem_of_filter in Hx. tauto. }
      apply NoDup_app. split; [done|]. split.
      * intros x Hx [Hk|Hk]%elem_of_app.
        -- apply Hkept in Hk. tauto.
        -- by apply (Hds x).
      * apply NoDup_app. split; [by apply NoDup_filter|]. split; [|done].
        intros x Hx. apply Hkept in Hx. tauto.
Qed.

Lemma build_compounds_order_witness :
  SE.extract_species Ex.mechanism ".STS" ".RXN" = Ok [SE.Row "O3P" "O3P"]
  ∧ SE.extract_species Ex.mechanism ".ACT" ".RXN"
    = Ok [SE.Row "B" "b-1"; SE.Row "RO2" "RO2"; SE.Row "O3P" "O3P"]
  ∧ SE.build_compounds Ex.mechanism ["RO2"; "RCO3"]
    = Ok (["RO2"; "RCO3"; "b_1"; "O3P"], ["O3P"]).
Proof.
  split_and!; [by vm_compute..|].
  apply (build_compounds_order Ex.mechanism ["RO2"; "RCO3"]
           [SE.Row "O3P" "O3P"]
           [SE.Row "B" "b-1"; SE.Row "RO2" "RO2"; SE.Row "O3P" "O3P"]);
    by vm_compute.
Defined.

(** C6 as the specification words it fails: the returned list can hold a name
    twice.  A default that is also a steady-state name is listed in both
    parts; an active name that differs from a default by a hyphen against an
    underscore is kept, and equals the default once the hyphens are replaced;
    and in a file where the active section comes after the steady-state
    section, an active name that is a default is read as a steady-state name
    too, and is listed twice. *)
Lemma build_compounds_twice :
  SE.build_compounds
    ((fun s => s +:+ Py.NL)
       <$> [".ACT"; "a1 ! 1 A"; ".STS"; "X ! 2 X"; ".RXN"]) ["X"]
  = Ok (["X"; "a1"; "X"], ["X"])
  ∧ SE.build_compounds
      ((fun s => s +:+ Py.NL)
         <$> [".ACT"; "a-b ! 1 AB"; ".STS"; "s1 ! 2 S"; ".RXN"]) ["a_b"]
    = Ok (["a_b"; "a_b"; "s1"], ["s1"])
  ∧ SE.build_compounds
      ((fun s => s +:+ Py.NL)
         <$> [".STS"; "O3P ! 1 O3P"; ".ACT"; "RO2 ! 2 RO2"; ".RXN"]) ["RO2"]
    = Ok (["RO2"; "O3P"; "RO2"], ["O3P"; "RO2"])
  ∧ ¬ NoDup ["X"; "a1"; "X"]
  ∧ ¬ NoDup ["a_b"; "a_b"; "s1"]
  ∧ ¬ NoDup ["RO2"; "O3P"; "RO2"].
Proof.
  split_and!; [by vm_compute..| | |].
  - intros [Hn _]%NoDup_cons. apply Hn. rewrite !elem_of_cons. tauto.
  - intros [Hn _]%NoDup_cons. apply Hn. rewrite !elem_of_cons. tauto.
  - intros [Hn _]%NoDup_cons. apply Hn. rewrite !elem_of_cons. tauto.
Qed.

(** [build_compounds] returns only when both sections can be read. *)
Lemma build_compounds_Ok lines defaults total sts :
  SE.build_compounds lines defaults = Ok (total, sts) →
  ∃ rows_sts rows_act,
    SE.extract_species lines ".STS" ".RXN" = Ok rows_sts
    ∧ SE.extract_species lines ".ACT" ".RXN" = Ok rows_act.
Proof.
  unfold SE.build_compounds.
  destruct (SE.extract_species lines ".STS" ".RXN"); [|done].
  destruct (SE.extract_species lines ".ACT" ".RXN"); [|done]. eauto.
Qed.

End Compounds.

(** ** Whole-word search *)

Section Words.

Lemma literal_app c prev post :
  Re.literal c prev (c +:+ post) = Some (last_char prev c, post).
Proof.
  revert prev. induction c as [|a c IH]; intros prev; [done|].
  rewrite app_String. simpl. by rewrite eqc_refl, IH.
Qed.

Lemma literal_inv c prev s p r :
  Re.literal c prev s = Some (p, r) → s = c +:+ r ∧ p = last_char prev c.
Proof.
  revert prev s. induction c as [|a c IH]; intros prev s; simpl.
  - by intros [= <- <-].
  - destruct s as [|b s]; [done|]. destruct (Py.eqc a b) eqn:E; [|done].
    apply eqc_eq in E as <-. intros [-> ->]%IH. by rewrite app_String.
Qed.

Lemma matches_here_weaken prev s c :
  Re.matches_here prev s true c = true → Re.matches_here prev s false c = true.
Proof.
  unfold Re.matches_here. destruct (Re.boundary prev s); [|done]. simpl.
  destruct (Re.literal c prev s) as [[p r]|]; [|done].
  by destruct (Re.boundary p r).
Qed.

(** An occurrence at offset [k], read as a decomposition of the text. *)
Lemma occurs_at_split c prev s k :
  occurs_at c prev s k = true ↔
  ∃ pre post, s = pre +:+ c +:+ post ∧ String.length pre = k
    ∧ Re.boundary (last_char prev pre) (c +:+ post) = true
    ∧ Re.boundary (last_char prev (pre +:+ c)) post = true.
Proof.
  revert prev s. induction k as [|k IH]; intros prev s; simpl.
  - unfold Re.matches_here. split.
    + intros [Hb H]%andb_prop.
      destruct (Re.literal c prev s) as [[p r]|] eqn:E; [|done].
      apply literal_inv in E as [-> ->]. apply andb_prop in H as [H _].
      exists EmptyString, r. by rewrite !app_empty.
    + intros (pre & post & -> & Hl & Hb1 & Hb2).
      destruct pre; [|done]. rewrite !app_empty in *. simpl in Hb1.
      by rewrite Hb1, literal_app, Hb2.
  - destruct s as [|a s].
    + split; [done|]. intros (pre & post & Hs & Hl & _). by destruct pre.
    + rewrite IH. split.
      * intros (pre & post & -> & <- & Hb1 & Hb2).
        exists (String a pre), post. by rewrite !app_String.
      * intros (pre & post & Hs & Hl & Hb1 & Hb2).
        destruct pre as [|a' pre]; [done|]. rewrite !app_String in *.
        simpl in *. simplify_eq. by exists pre, post.
Qed.

Lemma whole_word_occurs c text :
  whole_word c text ↔ ∃ k, occurs_at c None text k = true.
Proof.
  split.
  - intros (pre & post & -> & Hb1 & Hb2). exists (String.length pre).
    apply occurs_at_split. by exists pre, post.
  - intros [k (pre & post & -> & _ & Hb1 & Hb2)%occurs_at_split].
    by exists pre, post.
Qed.

Lemma find_filter_Some {A} (p q : A → bool) l m :
  List.find p l = Some m → q m = true →
  List.find p (List.filter q l) = Some m.
Proof.
  induction l as [|x l IH]; simpl; [done|].
  destruct (p x) eqn:Hp.
  - intros [= ->] Hq. rewrite Hq. simpl. by rewrite Hp.
  - intros Hf Hq. destruct (q x); simpl; rewrite ?Hp; by apply IH.
Qed.

Lemma find_filter_None {A} (p q : A → bool) l :
  List.find p l = None → List.find p (List.filter q l) = None.
Proof.
  induction l as [|x l IH]; simpl; [done|].
  destruct (p x) eqn:Hp; [done|].
  intros Hf. destruct (q x); simpl; rewrite ?Hp; by apply IH.
Qed.

Lemma find_Some_elem {A} (p : A → bool) l m :
  List.find p l = Some m → m ∈ l ∧ p m = true.
Proof.
  intros [H1 H2]%List.find_some. split; [|done]. by apply list_elem_of_In.
Qed.

Lemma find_None_elem {A} (p : A → bool) l x :
  List.find p l = None → x ∈ l → p x = false.
Proof.
  intros H Hx. apply (List.find_none _ _ H). by apply list_elem_of_In.
Qed.

Lemma findall_from_eq alts prev s skip :
  Re.findall_from alts prev s skip
  = Re.scan_here alts prev s skip
      (fun k => match s with
                | String c s' => Re.findall_from alts (Some c) s' k
                | EmptyString => []
                end).
Proof. by destruct s. Qed.

(** Every match of the scan is an alternative that occurs as a whole word. *)
Lemma scan_here_sound alts prev s skip step :
  (∀ k m, m ∈ step k → m ∈ alts ∧ ∃ j, occurs_at m prev s j = true) →
  ∀ m, m ∈ Re.scan_here alts prev s skip step →
       m ∈ alts ∧ ∃ j, occurs_at m prev s j = true.
Proof.
  intros Hstep m. unfold Re.scan_here, Re.first_match.
  destruct skip as [|k]; [|apply Hstep].
  destruct (List.find _ alts) as [m0|] eqn:E0; [|apply Hstep].
  apply find_Some_elem in E0 as [Hin0 Hm0].
  assert (m ∈ m0 :: step (String.length m0 - 1)%nat →
          m ∈ alts ∧ ∃ j, occurs_at m prev s j = true) as Hcons.
  { intros [->|Hm]%elem_of_cons; [|by eapply Hstep].
    split; [done|]. by exists O. }
  destruct m0 as [|a m0]; [|done].
  intros [->|Hm]%elem_of_cons; [split; [done|by exists O]|].
  destruct (List.find (Re.matches_here prev s true) alts) as [m1|] eqn:E1;
    [|by eapply Hstep].
  apply find_Some_elem in E1 as [Hin1 Hm1%matches_here_weaken].
  apply elem_of_cons in Hm as [->|Hm]; [|by eapply Hstep].
  split; [done|]. by exists O.
Qed.

Lemma findall_sound alts s prev skip m :
  m ∈ Re.findall_from alts prev s skip →
  m ∈ alts ∧ ∃ k, occurs_at m prev s k = true.
Proof.
  revert prev skip m. induction s as [|a s IH]; intros prev skip m;
    rewrite findall_from_eq; apply scan_here_sound; intros k m'.
  - by intros ?%elem_of_nil.
  - intros [Hin [j Hj]]%IH. split; [done|]. by exists (S j).
Qed.

(** Dropping alternatives that the scan never returns leaves it unchanged. *)
Lemma scan_here_filter q alts prev s skip step step' :
  (∀ k, (∀ m, m ∈ step k → q m = true) → step' k = step k) →
  (∀ m, m ∈ Re.scan_here alts prev s skip step → q m = true) →
  Re.scan_here (List.filter q alts) prev s skip step'
  = Re.scan_here alts prev s skip step.
Proof.
  intros Hstep. unfold Re.scan_here, Re.first_match.
  destruct skip as [|k]; [|apply Hstep].
  destruct (List.find _ alts) as [m0|] eqn:E0.
  - intros H. assert (q m0 = true) as Hq0.
    { apply H. destruct m0; apply list_elem_of_here. }
    rewrite (find_filter_Some _ q _ _ E0 Hq0).
    destruct m0 as [|a m0].
    + f_equal.
      destruct (List.find (Re.matches_here prev s true) alts) as [m1|] eqn:E1.
      * assert (q m1 = true) as Hq1.
        { apply H. apply list_elem_of_further, list_elem_of_here. }
        rewrite (find_filter_Some _ q _ _ E1 Hq1). f_equal. apply Hstep.
        intros m Hm. apply H. by do 2 apply list_elem_of_further.
      * rewrite (find_filter_None _ q _ E1). apply Hstep.
        intros m Hm. apply H. by apply list_elem_of_further.
    + f_equal. apply Hstep. intros m Hm. apply H.
      by apply list_elem_of_further.
  - intros H. rewrite (find_filter_None _ q _ E0). by apply Hstep.
Qed.

Lemma findall_filter q alts s prev skip :
  (∀ m, m ∈ Re.findall_from alts prev s skip → q m = true) →
  Re.findall_from (List.filter q alts) prev s skip
  = Re.findall_from alts prev s skip.
Proof.
  revert prev skip. induction s as [|a s IH]; intros prev skip H;
    rewrite !findall_from_eq; rewrite findall_from_eq in H;
    apply scan_here_filter; try done.
  intros k Hk. by apply IH.
Qed.

(** Two alternatives made of word characters that match at one position are
    the same word. *)
Lemma literal_unique c m prev s p1 r1 p2 r2 :
  Re.wordy prev = true →
  Py.forallb Py.isword c = true → Py.forallb Py.isword m = true →
  Re.literal c prev s = Some (p1, r1) → Re.boundary p1 r1 = true →
  Re.literal m prev s = Some (p2, r2) → Re.boundary p2 r2 = true →
  c = m.
Proof.
  revert m prev s. induction c as [|x c IH]; intros m prev s Hprev Hc Hm.
  - simpl. intros [= <- <-] Hb. destruct m as [|y m]; [done|]. simpl.
    destruct s as [|b s]; [done|]. destruct (Py.eqc y b) eqn:E; [|done].
    apply eqc_eq in E as <-. simpl in Hm. apply andb_prop in Hm as [Hy _].
    unfold Re.boundary in Hb. simpl in Hb. by rewrite Hprev, Hy in Hb.
  - simpl in Hc. apply andb_prop in Hc as [Hx Hc]. simpl.
    destruct s as [|b s]; [done|]. destruct (Py.eqc x b) eqn:E; [|done].
    apply eqc_eq in E as <-. intros H1 Hb1.
    destruct m as [|y m]; simpl.
    + intros [= <- <-] Hb. unfold Re.boundary in Hb. simpl in Hb.
      by rewrite Hprev, Hx in Hb.
    + destruct (Py.eqc y x) eqn:E; [|done]. apply eqc_eq in E as ->.
      simpl in Hm. apply andb_prop in Hm as [_ Hm]. intros H2 Hb2.
      f_equal. by eapply (IH m (Some x) s).
Qed.

Lemma word_match_unique prev s c m :
  wordlike c = true → wordlike m = true →
  Re.matches_here prev s false c = true →
  Re.matches_here prev s false m = true →
  c = m.
Proof.
  unfold wordlike, Re.matches_here.
  intros [Hc1 Hc2]%andb_prop [Hm1 Hm2]%andb_prop [_ Hc]%andb_prop
    [_ Hm]%andb_prop.
  destruct (Re.literal c prev s) as [[p1 r1]|] eqn:E1; [|done].
  destruct (Re.literal m prev s) as [[p2 r2]|] eqn:E2; [|done].
  apply andb_prop in Hc as [Hb1 _]. apply andb_prop in Hm as [Hb2 _].
  destruct c as [|x c]; [done|]. destruct m as [|y m]; [done|].
  simpl in *. destruct s as [|b s]; [done|].
  destruct (Py.eqc x b) eqn:Ex; [|done]. apply eqc_eq in Ex as <-.
  destruct (Py.eqc y x) eqn:Ey; [|done]. apply eqc_eq in Ey as ->.
  apply andb_prop in Hc2 as [Hx Hc2]. apply andb_prop in Hm2 as [_ Hm2].
  f_equal. by eapply (literal_unique c m (Some x) s).
Qed.

(** A whole word cannot start inside a run of word characters. *)
Lemma word_gap c m s prev k p r :
  wordlike c = true → Py.forallb Py.isword m = true →
  Re.literal m prev s = Some (p, r) →
  occurs_at c prev s (S k) = true →
  (String.length m ≤ k)%nat.
Proof.
  intros Hc. revert s prev k. induction m as [|x m IH]; intros s prev k Hm.
  - simpl. lia.
  - simpl in Hm. apply andb_prop in Hm as [Hx Hm]. simpl.
    destruct s as [|b s]; [done|]. destruct (Py.eqc x b) eqn:E; [|done].
    apply eqc_eq in E as <-. intros Hl Ho.
    destruct k as [|k].
    + exfalso. simpl in Ho. unfold Re.matches_here in Ho.
      apply andb_prop in Ho as [Hb Ho].
      destruct c as [|y c]; [done|]. simpl in Ho.
      destruct s as [|b s]; [done|]. destruct (Py.eqc y b) eqn:E; [|done].
      apply eqc_eq in E as <-. unfold wordlike in Hc. simpl in Hc.
      apply andb_prop in Hc as [Hy _].
      unfold Re.boundary in Hb. simpl in Hb. by rewrite Hx, Hy in Hb.
    + specialize (IH s (Some x) k Hm Hl Ho). lia.
Qed.

(** When every alternative is made of word characters, the scan returns
    every alternative that occurs as a whole word. *)
Lemma findall_complete alts c :
  Forall (fun a => wordlike a = true) alts → c ∈ alts →
  ∀ s prev skip k,
    occurs_at c prev s k = true → (skip ≤ k)%nat →
    c ∈ Re.findall_from alts prev s skip.
Proof.
  intros Hw Hc. rewrite Forall_forall in Hw.
  induction s as [|a s IH]; intros prev skip k Ho Hk;
    rewrite findall_from_eq; unfold Re.scan_here, Re.first_match.
  - exfalso. assert (wordlike c = true) as Hwc by auto.
    destruct k; [|done]. simpl in Ho. unfold Re.matches_here in Ho.
    destruct c; [done|]. simpl in Ho. by rewrite andb_false_r in Ho.
  - destruct skip as [|j].
    + destruct (List.find _ alts) as [m|] eqn:E.
      * apply find_Some_elem in E as [Hin Hm].
        assert (wordlike m = true) as Hwm by auto.
        destruct m as [|x m]; [done|].
        destruct k as [|k].
        -- simpl in Ho.
           rewrite (word_match_unique prev (String a s) c (String x m))
             by auto.
           apply list_elem_of_here.
        -- apply list_elem_of_further. apply (IH _ _ k); [done|].
           unfold Re.matches_here in Hm. apply andb_prop in Hm as [_ Hm].
           destruct (Re.literal _ prev _) as [[p r]|] eqn:El; [|done].
           apply andb_prop in Hwm as [_ Hwm].
           pose proof (word_gap c _ _ _ _ _ _ (Hw _ Hc) Hwm El Ho). lia.
      * destruct k as [|k].
        -- simpl in Ho. by rewrite (find_None_elem _ _ c E Hc) in Ho.
        -- apply (IH _ _ k); [done|lia].
    + destruct k as [|k]; [lia|]. apply (IH _ _ k); [done|lia].
Qed.

End Words.

Section CleanNull.

Lemma elem_of_Lfilter {A} (f : A → bool) l x :
  x ∈ List.filter f l ↔ x ∈ l ∧ f x = true.
Proof. rewrite !list_elem_of_In. apply List.filter_In. Qed.

Lemma sublist_Lfilter {A} (f : A → bool) l : List.filter f l `sublist_of` l.
Proof.
  induction l as [|x l IH]; simpl; [done|].
  destruct (f x); by constructor.
Qed.

Lemma Lfilter_idem {A} (f : A → bool) l :
  List.filter f (List.filter f l) = List.filter f l.
Proof.
  induction l as [|x l IH]; simpl; [done|].
  destruct (f x) eqn:E; simpl; rewrite ?E; by rewrite ?IH.
Qed.

Lemma Lfilter_negb {A} (f : A → bool) l :
  List.filter (fun x => negb (f x)) (List.filter f l) = [].
Proof.
  induction l as [|x l IH]; simpl; [done|].
  destruct (f x) eqn:E; simpl; rewrite ?E; by rewrite ?IH.
Qed.

Lemma alternatives_cons l : l ≠ [] → Re.alternatives l = l.
Proof. by destruct l. Qed.

Lemma elem_of_found compounds texts m :
  m ∈ SE.found_compounds compounds texts
  ↔ m ∈ Re.findall_words compounds (Py.join " " texts).
Proof. unfold SE.found_compounds. apply elem_of_list_to_set. Qed.

Lemma retained_elem compounds texts c :
  c ∈ (SE.clean_null_compounds compounds texts).1
  ↔ c ∈ compounds ∧ c ∈ Re.findall_words compounds (Py.join " " texts).
Proof.
  unfold SE.clean_null_compounds. simpl. rewrite elem_of_Lfilter.
  by rewrite bool_decide_eq_true, elem_of_found.
Qed.

(** A second pass over the retained names finds the same matches. *)
Lemma found_retained compounds texts :
  (SE.clean_null_compounds compounds texts).1 ≠ [] →
  Re.findall_words (SE.clean_null_compounds compounds texts).1
                   (Py.join " " texts)
  = Re.findall_words compounds (Py.join " " texts).
Proof.
  intros Hne. unfold Re.findall_words.
  assert (compounds ≠ []) as Hc by (by intros ->).
  rewrite (alternatives_cons _ Hne), (alternatives_cons _ Hc).
  unfold SE.clean_null_compounds. simpl. apply findall_filter.
  intros m Hm. apply bool_decide_eq_true, elem_of_found.
  unfold Re.findall_words. by rewrite (alternatives_cons _ Hc).
Qed.

Lemma clean_null_compounds_idem compounds texts :
  SE.clean_null_compounds (SE.clean_null_compounds compounds texts).1 texts
  = ((SE.clean_null_compounds compounds texts).1, []).
Proof.
  destruct (decide ((SE.clean_null_compounds compounds texts).1 = []))
    as [E|Hne]; [by rewrite E|].
  unfold SE.clean_null_compounds at 1.
  assert (SE.found_compounds (SE.clean_null_compounds compounds texts).1 texts
          = SE.found_compounds compounds texts) as ->.
  { unfold SE.found_compounds. by rewrite found_retained. }
  unfold SE.clean_null_compounds. simpl.
  by rewrite Lfilter_idem, Lfilter_negb.
Qed.

(** C7, as the program has it.  A retained name is a name of the list that
    occurs in the joined reaction texts as a whole word; when every name of
    the list is made of word characters (letters, digits, underscore), the
    retained names are exactly the names that occur as a whole word.  Both
    parts keep the order of the list, each name is in exactly one part, and a
    second pass over the retained names returns them unchanged with nothing
    dropped. *)
Theorem clean_null_compounds_spec compounds texts :
  let text := Py.join " " texts in
  let retained := (SE.clean_null_compounds compounds texts).1 in
  let dropped := (SE.clean_null_compounds compounds texts).2 in
  (∀ c, c ∈ retained → c ∈ compounds ∧ whole_word c text)
  ∧ (Forall (fun c => wordlike c = true) compounds →
     ∀ c, c ∈ compounds → (c ∈ retained ↔ whole_word c text))
  ∧ retained `sublist_of` compounds
  ∧ dropped `sublist_of` compounds
  ∧ (∀ c, c ∈ compounds → (c ∈ retained ↔ c ∉ dropped))
  ∧ SE.clean_null_compounds retained texts = (retained, []).
Proof.
  intros text retained dropped.
  assert (∀ c, c ∈ retained → c ∈ compounds ∧ whole_word c text) as Hsound.
  { intros c [Hc Hf]%retained_elem. split; [done|].
    apply whole_word_occurs. by apply findall_sound in Hf as [_ Hf]. }
  split_and!.
  - done.
  - intros Hw c Hc. split; [by intros [_ ?]%Hsound|].
    intros [k Hk]%whole_word_occurs. apply retained_elem. split; [done|].
    unfold Re.findall_words.
    rewrite alternatives_cons by (intros ->; by apply elem_of_nil in Hc).
    apply (findall_complete compounds c Hw Hc _ _ _ k); [done|lia].
  - apply sublist_Lfilter.
  - apply sublist_Lfilter.
  - intros c Hc. unfold retained, dropped, SE.clean_null_compounds. simpl.
    rewrite !elem_of_Lfilter. destruct (bool_decide _); simpl;
      intuition congruence.
  - apply clean_null_compounds_idem.
Qed.

Lemma clean_null_compounds_spec_witness :
  Forall (fun c => wordlike c = true) ["RO2"; "A_B"; "OH"; "HO2"]
  ∧ SE.clean_null_compounds ["RO2"; "A_B"; "OH"; "HO2"]
      ["Rnames{i} = 'A_B + OH = C';"; "fOH(i) = fOH(i) - 1;"]
    = (["A_B"; "OH"], ["RO2"; "HO2"])
  ∧ ("OH" ∈ ["A_B"; "OH"]
     ↔ whole_word "OH"
         (Py.join " " ["Rnames{i} = 'A_B + OH = C';"; "fOH(i) = fOH(i) - 1;"])).
Proof.
  assert (Forall (fun c => wordlike c = true) ["RO2"; "A_B"; "OH"; "HO2"])
    as Hw by (by repeat constructor).
  split_and!; [done|by vm_compute|].
  destruct (clean_null_compounds_spec ["RO2"; "A_B"; "OH"; "HO2"]
      ["Rnames{i} = 'A_B + OH = C';"; "fOH(i) = fOH(i) - 1;"])
    as (_ & H & _).
  apply (H Hw "OH").
  do 2 apply list_elem_of_further. apply list_elem_of_here.
Defined.

(** C7 as the specification words it fails for names with other characters:
    [A+B] occurs as a whole word in the text [A+B], but the scan matches the
    alternative [A] first and [A+B] is dropped. *)
Lemma clean_null_compounds_iff_refuted :
  ¬ (∀ c, c ∈ ["A"; "A+B"] →
          (c ∈ (SE.clean_null_compounds ["A"; "A+B"] ["A+B"]).1
           ↔ whole_word c (Py.join " " ["A+B"]))).
Proof.
  intros H.
  assert (whole_word "A+B" (Py.join " " ["A+B"])) as Hw.
  { exists EmptyString, EmptyString. by vm_compute. }
  apply (H "A+B") in Hw; [|apply list_elem_of_further, list_elem_of_here].
  revert Hw. assert ((SE.clean_null_compounds ["A"; "A+B"] ["A+B"]).1 = ["A"])
    as -> by (by vm_compute).
  by intros ?%list_elem_of_singleton.
Qed.

End CleanNull.

(** ** Stoichiometry *)

Arguments Py.startswith : simpl never.
Arguments Py.strip : simpl never.

Section Stoichiometry.

Lemma foldl_reactant_step c f_lines reactants :
  foldl (RE.reactant_step c) f_lines reactants
  = f_lines ++ flat_map (Stoich.reactant_lines c) reactants.
Proof.
  revert f_lines. induction reactants as [|r rs IH]; intros f_lines; simpl.
  - by rewrite app_nil_r.
  - rewrite IH. unfold RE.reactant_step, Stoich.reactant_lines.
    destruct (String.eqb r "HV"); [done|].
    destruct (Py.startswith _ r); simpl; by rewrite <- !(assoc_L (++)).
Qed.

Lemma product_loop_spec c f_lines ro2_count entries :
  RE.product_loop c (f_lines, ro2_count) entries
  = products ← mapM RE.product_of entries;
    Ok (f_lines ++ flat_map (Stoich.product_lines c) products,
        foldl (fun acc p =>
                 if Stoich.in_pool c p.2 then PyFloat.add acc p.1 else acc)
              ro2_count products).
Proof.
  revert f_lines ro2_count.
  induction entries as [|e es IH]; intros f_lines ro2_count; simpl.
  - by rewrite app_nil_r.
  - destruct (RE.product_of e) as [[y p]|]; [|done]. bind_simpl.
    destruct (Py.truthy (Py.strip p)) eqn:Ht; bind_simpl; rewrite IH;
      destruct (mapM RE.product_of es) as [ps|]; try done;
      unfold mret, result_ret; bind_simpl;
      cbn [flat_map foldl]; unfold Stoich.product_lines, Stoich.in_pool;
      cbn [fst snd]; rewrite Ht; cbn [andb app]; [|done].
    by destruct (RE.para_soa c || negb (Py.startswith "VBS" p));
      rewrite <- ?(assoc_L (++)).
Qed.

Lemma length_app_str (a b : string) :
  String.length (a +:+ b) = (String.length a + String.length b)%nat.
Proof. induction a as [|x a IH]; [done|]. rewrite app_String. simpl. lia. Qed.

(** Only the species named [RO2] has the pool line as its own line. *)
Lemma own_line_fRO2 r :
  RE.fRO2_minus = "f" +:+ r +:+ "(i) = f" +:+ r +:+ "(i) - 1;" ↔ r = "RO2".
Proof.
  split; [|by intros ->]. intros H.
  pose proof (f_equal String.length H) as Hl.
  rewrite !length_app_str in Hl. simpl in Hl.
  destruct r as [|a [|b [|d [|e r]]]]; simpl in Hl; try lia.
  by injection H as -> -> ->.
Qed.

(** C9, as the program has it.  The stoichiometry lines of a record are: for
    each reactant other than [HV] its own [- 1] line, followed at once by
    [fRO2(i) = fRO2(i) - 1;] when the reactant starts with the radical prefix;
    then one [+ yield] line per product; then one line
    [fRO2(i) = fRO2(i) + gain;], exactly when the sum [gain] of the yields of
    the products that start with the radical prefix is positive.  The
    reactants do not enter that sum. *)
Theorem stoichiometry_lines c reactants product_entries :
  RE.stoichiometry c reactants product_entries
  = (products ← mapM RE.product_of product_entries;
     Ok (flat_map (Stoich.reactant_lines c) reactants
         ++ flat_map (Stoich.product_lines c) products
         ++ Stoich.pool_line (Stoich.pool_gain c products)))
  ∧ (∀ reactant,
       RE.fRO2_minus ∈ Stoich.reactant_lines c reactant ↔
       (reactant ≠ "HV"
        ∧ (Py.startswith (RE.radical_start_string c) reactant = true
           ∨ reactant = "RO2")))
  ∧ (∀ gain, Stoich.pool_line gain = [RE.fRO2_plus gain] ↔ PyFloat.gt0 gain = true)
  ∧ (∀ gain, Stoich.pool_line gain = [] ↔ PyFloat.gt0 gain = false).
Proof.
  split_and!.
  - unfold RE.stoichiometry. rewrite foldl_reactant_step, product_loop_spec.
    destruct (mapM RE.product_of product_entries); [|done]. bind_simpl.
    unfold Stoich.pool_line, Stoich.pool_gain.
    destruct (PyFloat.gt0 _); simpl; by rewrite ?app_nil_r, <- ?(assoc_L (++)).
  - intros r. unfold Stoich.reactant_lines.
    destruct (String.eqb r "HV") eqn:E.
    + apply String.eqb_eq in E. split; [by intros ?%elem_of_nil|tauto].
    + apply String.eqb_neq in E. rewrite elem_of_cons.
      rewrite (own_line_fRO2 r).
      destruct (Py.startswith _ r).
      * rewrite list_elem_of_singleton. intuition congruence.
      * rewrite elem_of_nil. intuition congruence.
  - intros g. unfold Stoich.pool_line. by destruct (PyFloat.gt0 g).
  - intros g. unfold Stoich.pool_line. by destruct (PyFloat.gt0 g).
Qed.

Lemma stoichiometry_lines_witness :
  "RAD_1" ≠ "HV"
  ∧ Py.startswith (RE.radical_start_string Ex.multi) "RAD_1" = true
  ∧ PyFloat.gt0 RE.one = true
  ∧ RE.fRO2_minus ∈ Stoich.reactant_lines Ex.multi "RAD_1"
  ∧ Stoich.pool_line RE.one = [RE.fRO2_plus RE.one].
Proof.
  destruct (stoichiometry_lines Ex.multi ["RAD_1"] ["RAD_3"])
    as (_ & H1 & H2 & _).
  split_and!; [done..| |].
  - apply H1. split; [done|by left].
  - by apply H2.
Defined.

(** C9 as the specification words it fails: the record
    [RAD_1 + RAD_2 = RAD_3] loses two radicals and gains one, a net change of
    [-1.0], and its block holds three [fRO2] lines. *)
Lemma fRO2_lines_with_negative_net :
  RE.stoichiometry Ex.multi ["RAD_1"; "RAD_2"] ["RAD_3"]
  = Ok ["fRAD_1(i) = fRAD_1(i) - 1;"; "fRO2(i) = fRO2(i) - 1;";
        "fRAD_2(i) = fRAD_2(i) - 1;"; "fRO2(i) = fRO2(i) - 1;";
        "fRAD_3(i) = fRAD_3(i) + 1.0;"; "fRO2(i) = fRO2(i) + 1.0;"]
  ∧ RE.format_for_f0am Ex.multi ["R) 1.0 2.0; RAD_1 + RAD_2 = RAD_3"]
    = Ok ([Py.join Py.NL
             ["%   1, <R001>"; "i = i + 1;";
              "Rnames{i} = 'RAD_1 + RAD_2 = RAD_3';";
              "k(:,i) = 1.0 .* exp(-1006.4391./T);";
              "Gstr{i,1} = 'RAD_1'; Gstr{i,2} = 'RAD_2'; ";
              "fRAD_1(i) = fRAD_1(i) - 1;"; "fRO2(i) = fRO2(i) - 1;";
              "fRAD_2(i) = fRAD_2(i) - 1;"; "fRO2(i) = fRO2(i) - 1;";
              "fRAD_3(i) = fRAD_3(i) + 1.0;"; "fRO2(i) = fRO2(i) + 1.0;"]],
          [])
  ∧ mapM RE.product_of ["RAD_3"] = Ok [(RE.one, "RAD_3")]
  ∧ PyFloat.repr (Stoich.net_radical_delta Ex.multi ["RAD_1"; "RAD_2"]
                    [(RE.one, "RAD_3")]) = "-1.0"
  ∧ PyFloat.gt0 (Stoich.net_radical_delta Ex.multi ["RAD_1"; "RAD_2"]
                   [(RE.one, "RAD_3")]) = false
  ∧ Stoich.fRO2_line "fRO2(i) = fRO2(i) + 1.0;" = true
  ∧ Stoich.fRO2_line "fRO2(i) = fRO2(i) - 1;" = true.
Proof. split_and!; by vm_compute. Qed.

End Stoichiometry.

(** ** The loop of [format_for_f0am] *)

Section Loop.

Lemma run_app c st rs1 rs2 :
  RE.run c st (rs1 ++ rs2) = st' ← RE.run c st rs1; RE.run c st' rs2.
Proof.
  revert st. induction rs1 as [|r rs1 IH]; intros st; [done|].
  simpl. destruct (RE.step c st r); [|done]. bind_simpl. apply IH.
Qed.

Lemma step_skip c st r : RE.select c r = Ok None → RE.step c st r = Ok st.
Proof. intros H. unfold RE.step. by rewrite H. Qed.

(** A skipped record leaves no trace: the run goes on as if it were absent. *)
Lemma format_skip c rs1 r rs2 :
  RE.select c r = Ok None →
  RE.format_for_f0am c (rs1 ++ r :: rs2) = RE.format_for_f0am c (rs1 ++ rs2).
Proof.
  intros H. unfold RE.format_for_f0am. rewrite !run_app.
  destruct (RE.run c _ rs1) as [st|]; [|done]. bind_simpl.
  cbn [RE.run]. by rewrite step_skip.
Qed.

Lemma emit_header c i names info eqn block names' :
  RE.emit c i names info eqn = Ok (block, names') →
  ∃ body, block = RE.reaction_header i +:+ Py.NL +:+ body.
Proof.
  unfold RE.emit. intros H.
  destruct (RE.format_rate _ names) as [[rate ns]|]; [|done].
  bind_simpl. bind_simpl in H.
  destruct (RE.unpack2 _) as [[rp pp]|]; [|done]. bind_simpl in H.
  destruct (RE.stoichiometry _ _ _) as [f_lines|]; [|done]. bind_simpl in H.
  injection H as <- <-. rewrite !app_assoc_str. eauto.
Qed.

Lemma run_blocks c rs st st' :
  RE.run c st rs = Ok st' →
  ∃ new,
    RE.formatted_reactions st' = RE.formatted_reactions st ++ new
    ∧ RE.i st' = RE.i st + Z.of_nat (length new)
    ∧ length new = length (List.filter (Record.passes c) rs)
    ∧ ∀ k block, new !! k = Some block →
        ∃ body, block = RE.reaction_header (RE.i st + Z.of_nat k)
                        +:+ Py.NL +:+ body.
Proof.
  revert st. induction rs as [|r rs IH]; intros st.
  - intros [= <-]. exists []. rewrite app_nil_r. split_and!; try done.
    simpl. lia.
  - cbn [RE.run]. destruct (RE.step c st r) as [st1|] eqn:Hstep; [|done].
    bind_simpl. intros Hrun. destruct (IH _ Hrun) as (new & Hf & Hi & Hl & Hh).
    unfold RE.step in Hstep. cbn [List.filter]. unfold Record.passes at 1.
    destruct (RE.select c r) as [[[info eqn]|]|]; [| |done].
    + bind_simpl in Hstep.
      destruct (RE.emit c _ _ info eqn) as [[block names]|] eqn:He; [|done].
      bind_simpl in Hstep. injection Hstep as <-. simpl in *.
      exists (block :: new). split_and!.
      * by rewrite Hf, <- (assoc_L (++)).
      * rewrite Hi. simpl. lia.
      * simpl. by rewrite Hl.
      * intros [|k] b; simpl.
        -- intros [= <-]. rewrite Z.add_0_r. by eapply emit_header.
        -- intros Hb. destruct (Hh _ _ Hb) as [body ->]. exists body.
           do 2 f_equal. lia.
    + bind_simpl in Hstep. injection Hstep as <-. by exists new.
Qed.

(** A run that returns has read every record without raising. *)
Lemma run_select c rs1 r rs2 st st' :
  RE.run c st (rs1 ++ r :: rs2) = Ok st' → ∃ sel, RE.select c r = Ok sel.
Proof.
  rewrite run_app. destruct (RE.run c st rs1) as [st1|]; [|done].
  bind_simpl. cbn [RE.run]. unfold RE.step.
  destruct (RE.select c r); [eauto|done].
Qed.

End Loop.

(** ** Decimal numerals *)

Section Decimal.

Lemma digits_value_app a x y :
  Py.digits_value a (x +:+ y) = Py.digits_value (Py.digits_value a x) y.
Proof.
  revert a. induction x as [|c x IH]; intros a; [done|].
  rewrite app_String. simpl. apply IH.
Qed.

Lemma digit_char_spec d :
  0 ≤ d ≤ 9 →
  Z.of_N (Py.code (Py.digit_char d)) - 48 = d
  ∧ Py.isdecimal (Py.digit_char d) = true.
Proof.
  intros H.
  assert (d = 0 ∨ d = 1 ∨ d = 2 ∨ d = 3 ∨ d = 4 ∨ d = 5 ∨ d = 6 ∨ d = 7
          ∨ d = 8 ∨ d = 9) as Hd by lia.
  repeat (destruct Hd as [->|Hd]; [done|]). by subst.
Qed.

Lemma forallb_app f x y :
  Py.forallb f (x +:+ y) = Py.forallb f x && Py.forallb f y.
Proof.
  induction x as [|c x IH]; [done|]. rewrite app_String. simpl.
  by rewrite IH, andb_assoc.
Qed.

Lemma digits_of_spec fuel n acc :
  0 ≤ n < 2 ^ Z.of_nat fuel → (1 ≤ fuel)%nat →
  ∃ ds, Py.digits_of fuel n acc = ds +:+ acc
        ∧ ds ≠ EmptyString
        ∧ Py.forallb Py.isdecimal ds = true
        ∧ ∀ a, Py.digits_value a ds
               = a * 10 ^ Z.of_nat (String.length ds) + n.
Proof.
  revert n acc. induction fuel as [|fuel IH]; intros n acc Hn Hf; [lia|].
  cbn [Py.digits_of].
  assert (0 ≤ n `mod` 10 ≤ 9) as Hd by (pose proof (Z.mod_pos_bound n 10); lia).
  destruct (digit_char_spec _ Hd) as [Hc Hdec].
  pose proof (Z.div_mod n 10 ltac:(lia)) as Hdm.
  destruct (n `div` 10 =? 0) eqn:E.
  - apply Z.eqb_eq in E. exists (String (Py.digit_char (n `mod` 10)) "").
    split_and!; [done|done|by simpl; rewrite Hdec|].
    intros a. cbn [Py.digits_value String.length]. rewrite Hc.
    change (Z.of_nat 1) with 1. lia.
  - apply Z.eqb_neq in E.
    assert (0 < n `div` 10) as Hq.
    { pose proof (Z.div_pos n 10 ltac:(lia) ltac:(lia)). lia. }
    assert (n `div` 10 < 2 ^ Z.of_nat fuel) as Hlt.
    { rewrite Nat2Z.inj_succ, Z.pow_succ_r in Hn by lia. lia. }
    assert (1 ≤ fuel)%nat as Hf'.
    { destruct fuel; [|lia]. simpl in Hlt. lia. }
    destruct (IH (n `div` 10) (String (Py.digit_char (n `mod` 10)) acc)
                 ltac:(lia) Hf') as (ds & -> & Hne & Hdec' & Hv).
    exists (ds +:+ String (Py.digit_char (n `mod` 10)) "").
    split_and!.
    + by rewrite app_assoc_str.
    + by destruct ds.
    + rewrite forallb_app, Hdec'. simpl. by rewrite Hdec.
    + intros a. rewrite digits_value_app, Hv. cbn [Py.digits_value].
      rewrite Hc, length_app_str. cbn [String.length].
      rewrite Nat2Z.inj_add. change (Z.of_nat 1) with 1.
      rewrite Z.pow_add_r by lia. lia.
Qed.

(** [str(n)] is the decimal numeral of [n]: [int] reads it back. *)
Lemma str_of_nat_int n : 0 ≤ n → Py.int_of_digits (Py.str_of_nat n) = Ok n.
Proof.
  intros Hn. unfold Py.str_of_nat.
  destruct (digits_of_spec (S (Z.to_nat (Z.log2 n))) n EmptyString)
    as (ds & -> & Hne & Hdec & Hv); [|lia|].
  - rewrite Nat2Z.inj_succ, Z2Nat.id by apply Z.log2_nonneg.
    destruct (decide (n = 0)) as [->|]; [done|].
    pose proof (Z.log2_spec n ltac:(lia)). lia.
  - assert (ds +:+ "" = ds) as ->.
    { clear. induction ds as [|c ds IH]; [done|]. by rewrite app_String, IH. }
    unfold Py.int_of_digits. rewrite Hdec, Hv.
    destruct ds; [done|]. f_equal; lia.
Qed.

End Decimal.

(** ** Numbering of the emitted blocks *)

Section Numbering.

(** C1. When [format_for_f0am] returns, it has emitted one block for each
    record that passes the filters and no other; the block at position [k]
    (from 0) starts with the header [%   n, <Rnnn>] of [n = k + 1], where [n]
    is written in decimal; removing a record that does not pass (one without
    [;], for instance) changes neither the blocks nor their numbers. *)
Theorem format_for_f0am_dense c reactions blocks names :
  RE.format_for_f0am c reactions = Ok (blocks, names) →
  length blocks = length (List.filter (Record.passes c) reactions)
  ∧ (∀ k block, blocks !! k = Some block →
       ∃ body, block = RE.reaction_header (Z.of_nat (S k)) +:+ Py.NL +:+ body)
  ∧ (∀ n, 0 ≤ n →
       RE.reaction_header n
       = "%   " +:+ Py.str_of_nat n +:+ ", <R" +:+ Py.str_of_nat_03 n +:+ ">"
       ∧ Py.int_of_digits (Py.str_of_nat n) = Ok n)
  ∧ (∀ rs1 r rs2, reactions = rs1 ++ r :: rs2 → Record.passes c r = false →
       RE.format_for_f0am c (rs1 ++ rs2) = Ok (blocks, names))
  ∧ (∀ r, Record.no_delimiter r = true → Record.passes c r = false).
Proof.
  intros H. split_and!.
  - unfold RE.format_for_f0am in H.
    destruct (RE.run c _ reactions) as [st|] eqn:Hrun; [|done].
    bind_simpl in H. injection H as <- <-.
    destruct (run_blocks _ _ _ _ Hrun) as (new & Hf & _ & Hl & _).
    simpl in Hf. by rewrite Hf, Hl.
  - unfold RE.format_for_f0am in H.
    destruct (RE.run c _ reactions) as [st|] eqn:Hrun; [|done].
    bind_simpl in H. injection H as <- <-.
    destruct (run_blocks _ _ _ _ Hrun) as (new & Hf & _ & _ & Hh).
    simpl in Hf. rewrite Hf.
    intros k block Hk. destruct (Hh _ _ Hk) as [body ->]. exists body.
    do 2 f_equal. simpl. lia.
  - intros n Hn. split; [done|]. by apply str_of_nat_int.
  - intros rs1 r rs2 -> Hp. rewrite <- H. symmetry. apply format_skip.
    unfold RE.format_for_f0am in H.
    destruct (RE.run c _ (rs1 ++ r :: rs2)) as [st|] eqn:Hrun; [|done].
    apply run_select in Hrun as [sel Hsel]. unfold Record.passes in Hp.
    rewrite Hsel in *. by destruct sel.
  - intros r Hr. unfold Record.passes, RE.select.
    by rewrite (split_no_sep ";" r Hr).
Qed.

Lemma format_for_f0am_dense_witness :
  RE.format_for_f0am Ex.multi Ex.records = Ok (Ex.blocks, ["X_Y"])
  ∧ length Ex.blocks = length (List.filter (Record.passes Ex.multi) Ex.records)
  ∧ RE.format_for_f0am Ex.multi
      ["R) 1.0E-11 0.0 ;A + B = C + 0.5 RAD_2"; "R) PF=X-Y ;E + HV = F"]
    = Ok (Ex.blocks, ["X_Y"]).
Proof.
  assert (RE.format_for_f0am Ex.multi Ex.records = Ok (Ex.blocks, ["X_Y"]))
    as H by (by vm_compute).
  destruct (format_for_f0am_dense _ _ _ _ H) as (Hl & _ & _ & Hs & _).
  split_and!; [done|done|].
  apply (Hs ["R) 1.0E-11 0.0 ;A + B = C + 0.5 RAD_2"] "R) 1.0E-11 0.0 A = C"
            ["R) PF=X-Y ;E + HV = F"]); by vm_compute.
Defined.

End Numbering.

(** ** The filters *)

Section Filters.

Lemma item0_first sep s :
  Py.item0 (Py.split sep s) = Ok (Record.first_item sep s).
Proof.
  unfold Record.first_item. by destruct (split_cons sep s) as (w & ws & ->).
Qed.

(** [select] on a record with a [;], filter by filter. *)
Lemma select_eq c r p0 p1 rest :
  Py.split ";" r = p0 :: p1 :: rest →
  RE.select c r
  = if Record.in_reference c (Record.reactant_part_of p1) then Ok None
    else if negb (bool_decide (Record.species_label_of p1 ∈ RE.compounds c))
    then Ok None
    else if Record.cutoff_applies c (Record.reactant_part_of p1) then
      n ← RE.radical_number (Record.species_label_of p1);
      if RE.radical_cutoff c <? n then Ok None
      else Ok (Some (Py.strip p0, Record.equation_of p1))
    else Ok (Some (Py.strip p0, Record.equation_of p1)).
Proof.
  intros H. unfold RE.select. rewrite H, item0_first. bind_simpl.
  fold (Record.equation_of p1). fold (Record.reactant_part_of p1).
  fold (Record.in_reference c (Record.reactant_part_of p1)).
  destruct (Record.in_reference _ _); [done|].
  rewrite item0_first. bind_simpl. fold (Record.species_label_of p1).
  destruct (bool_decide _); [|done]. bind_simpl.
  fold (Record.cutoff_applies c (Record.reactant_part_of p1)).
  by destruct (Record.cutoff_applies _ _).
Qed.

Lemma select_no_delimiter c r :
  Record.no_delimiter r = true → RE.select c r = Ok None.
Proof. intros H. unfold RE.select. by rewrite (split_no_sep ";" r H). Qed.

Lemma index_present x l : x ∈ l → ∃ k, Py.index x l = Ok k.
Proof.
  induction l as [|y l IH]; [by intros ?%elem_of_nil|]. simpl.
  destruct (String.eqb y x) eqn:E; [eauto|].
  apply String.eqb_neq in E. intros [->|Hx]%elem_of_cons; [done|].
  destruct (IH Hx) as [k ->]. eauto.
Qed.

(** [parse_reactions] raises exactly when no line is [.RXN]. *)
Lemma parse_reactions_fatal lines :
  (".RXN" +:+ Py.NL ∉ lines → RE.parse_reactions lines = Raise ValueError)
  ∧ (".RXN" +:+ Py.NL ∈ lines → ∃ rs, RE.parse_reactions lines = Ok rs).
Proof.
  unfold RE.parse_reactions. split.
  - intros H. by rewrite index_absent.
  - intros [k ->]%index_present. bind_simpl.
    destruct (foldl _ _ _). eauto.
Qed.

(** A rate clause that is not of the numeric form is passed through. *)
Lemma format_rate_fallback rate_str names :
  Py.find "PF=" rate_str = None →
  Record.numeric_form rate_str = false →
  RE.format_rate rate_str names = Ok (rate_str, names).
Proof.
  intros HPF Hnum. unfold RE.format_rate.
  rewrite handle_photolysis_no_PF by done. rewrite String.eqb_refl.
  cbn [negb]. unfold Record.numeric_form in Hnum.
  assert (RE.except_ValueError
            (RE.arrhenius rate_str (Py.split_ws rate_str)) rate_str
          = Ok rate_str) as ->; [|done].
  unfold RE.arrhenius.
  destruct (Py.split_ws rate_str) as [|a [|e [|B [|x l]]]]; try done.
  - destruct (PyFloat.float_of_string a) as [A|ea] eqn:Ea.
    + destruct (PyFloat.float_of_string e) as [E0|ee] eqn:Ee; [done|].
      by apply float_of_string_ValueError in Ee as ->.
    + by apply float_of_string_ValueError in Ea as ->.
  - destruct (PyFloat.float_of_string a) as [A|ea] eqn:Ea.
    + destruct (PyFloat.float_of_string e) as [E0|ee] eqn:Ee; [done|].
      by apply float_of_string_ValueError in Ee as ->.
    + by apply float_of_string_ValueError in Ea as ->.
Qed.

(** C2, as the program has it.  Each listed condition on a record is soft: a
    record without [;], one whose reactant side is in the reference set, one
    whose first reactant is not a declared compound, and one whose generation
    number is above the cutoff are skipped, and the run gives what it gives
    without them; [format_rate] never raises, and returns a rate clause that is
    not numeric as it is.  [parse_reactions] raises exactly when the file has
    no [.RXN] line. *)
Theorem soft_conditions c r rs1 rs2 :
  (Record.no_delimiter r = true →
   RE.format_for_f0am c (rs1 ++ r :: rs2) = RE.format_for_f0am c (rs1 ++ rs2))
  ∧ (∀ p0 p1 rest,
       Py.split ";" r = p0 :: p1 :: rest →
       Record.in_reference c (Record.reactant_part_of p1) = true
       ∨ Record.species_label_of p1 ∉ RE.compounds c
       ∨ (∃ n, Record.cutoff_applies c (Record.reactant_part_of p1) = true
               ∧ RE.radical_number (Record.species_label_of p1) = Ok n
               ∧ RE.radical_cutoff c < n) →
       RE.format_for_f0am c (rs1 ++ r :: rs2)
       = RE.format_for_f0am c (rs1 ++ rs2))
  ∧ (∀ rate_str names,
       ∃ text names', RE.format_rate rate_str names = Ok (text, names'))
  ∧ (∀ rate_str names,
       Py.find "PF=" rate_str = None →
       Record.numeric_form rate_str = false →
       RE.format_rate rate_str names = Ok (rate_str, names))
  ∧ (∀ lines,
       (".RXN" +:+ Py.NL ∉ lines → RE.parse_reactions lines = Raise ValueError)
       ∧ (".RXN" +:+ Py.NL ∈ lines → ∃ rs, RE.parse_reactions lines = Ok rs)).
Proof.
  split_and!.
  - intros H. by apply format_skip, select_no_delimiter.
  - intros p0 p1 rest Hs H. apply format_skip. rewrite (select_eq _ _ _ _ _ Hs).
    destruct (Record.in_reference _ _); [done|].
    destruct H as [H|[H|(n & Hc & Hn & Hlt)]]; [done| |].
    + by rewrite bool_decide_eq_false_2.
    + destruct (bool_decide _); [|done]. cbn [negb]. rewrite Hc, Hn.
      bind_simpl. by rewrite (proj2 (Z.ltb_lt _ _) Hlt).
  - apply format_rate_total.
  - apply format_rate_fallback.
  - apply parse_reactions_fatal.
Qed.

Lemma soft_conditions_witness :
  Record.no_delimiter "R) 1.0E-11 0.0 A = C" = true
  ∧ RE.format_for_f0am Ex.with_refs
      (["R) PF=X-Y ;E + HV = F"] ++ "R) 1.0E-11 0.0 A = C" :: [])
    = RE.format_for_f0am Ex.with_refs (["R) PF=X-Y ;E + HV = F"] ++ [])
  ∧ Py.split ";" "R) 1.0 0.0 ;RAD_5 + NO = NO2" =
      ["R) 1.0 0.0 "; "RAD_5 + NO = NO2"]
  ∧ (∃ n, Record.cutoff_applies Ex.with_refs
            (Record.reactant_part_of "RAD_5 + NO = NO2") = true
          ∧ RE.radical_number (Record.species_label_of "RAD_5 + NO = NO2")
            = Ok n
          ∧ RE.radical_cutoff Ex.with_refs < n)
  ∧ RE.format_for_f0am Ex.with_refs
      (["R) PF=X-Y ;E + HV = F"] ++ "R) 1.0 0.0 ;RAD_5 + NO = NO2" :: [])
    = RE.format_for_f0am Ex.with_refs (["R) PF=X-Y ;E + HV = F"] ++ []).
Proof.
  assert (∃ n, Record.cutoff_applies Ex.with_refs
            (Record.reactant_part_of "RAD_5 + NO = NO2") = true
          ∧ RE.radical_number (Record.species_label_of "RAD_5 + NO = NO2")
            = Ok n
          ∧ RE.radical_cutoff Ex.with_refs < n) as Hc.
  { exists 5. by vm_compute. }
  split_and!; [done| |done|done|].
  - by apply (proj1 (soft_conditions Ex.with_refs "R) 1.0E-11 0.0 A = C"
                       ["R) PF=X-Y ;E + HV = F"] [])).
  - destruct (soft_conditions Ex.with_refs "R) 1.0 0.0 ;RAD_5 + NO = NO2"
                ["R) PF=X-Y ;E + HV = F"] []) as (_ & H & _).
    apply (H "R) 1.0 0.0 " "RAD_5 + NO = NO2" []); [done|]. by do 2 right.
Defined.

(** C2 as the specification words it fails: a record that passes the filters
    and whose equation has no [=], or two, makes [format_for_f0am] raise, and
    so does a radical whose last segment holds no digit; a species section
    without its marker, or with a blank line, makes [extract_species] raise. *)
Lemma format_for_f0am_raises :
  RE.format_for_f0am Ex.multi ["R) 1.0E-11 0.0 ;A"] = Raise ValueError
  ∧ RE.format_for_f0am Ex.multi ["R) 1.0E-11 0.0 ;A = B = C"]
    = Raise ValueError
  ∧ RE.format_for_f0am Ex.single ["R) 1.0E-11 0.0 ;ISOPRENEr3_x + NO = NO2"]
    = Raise ValueError
  ∧ RE.format_for_f0am Ex.multi
      ["R) 1.0E-11 0.0 ;A + B = C"; "R) 1.0E-11 0.0 ;A"] = Raise ValueError
  ∧ SE.extract_species [".RXN" +:+ Py.NL] ".STS" ".RXN" = Raise ValueError
  ∧ SE.extract_species [".STS" +:+ Py.NL; Py.NL; ".RXN" +:+ Py.NL]
      ".STS" ".RXN" = Raise IndexError.
Proof. split_and!; by vm_compute. Qed.

(** C5, as the program has it.  In single-generation mode with a cutoff, for a
    record that reaches the generation filter (its reactant side starts with
    the precursor name followed by [r]) and whose identifier has digits in its
    last underscore-delimited segment, the generation number is the number
    written by all the digits of that segment; the record is skipped, and the
    run goes on, exactly when that number is above the cutoff.  With
    precursor [ISOPRENE] and cutoff 2, [ISOPRENEr3] is skipped and
    [ISOPRENEr2] is kept (an identifier without underscore is its own last
    segment). *)
Theorem generation_cutoff c r p0 p1 rest n rs1 rs2 :
  RE.gen c = "Single" →
  RE.radical_cutoff c ≠ 0 →
  Py.split ";" r = p0 :: p1 :: rest →
  Record.in_reference c (Record.reactant_part_of p1) = false →
  Record.species_label_of p1 ∈ RE.compounds c →
  Py.startswith (RE.precursor c +:+ "r") (Record.reactant_part_of p1) = true →
  RE.radical_number (Record.species_label_of p1) = Ok n →
  (RE.radical_cutoff c < n →
   Record.passes c r = false
   ∧ RE.format_for_f0am c (rs1 ++ r :: rs2) = RE.format_for_f0am c (rs1 ++ rs2))
  ∧ (n ≤ RE.radical_cutoff c → Record.passes c r = true)
  ∧ RE.radical_number "ISOPRENEr3" = Ok 3
  ∧ RE.radical_number "ISOPRENEr2" = Ok 2
  ∧ RE.radical_number "ISOPRENEr1_a2b3" = Ok 23
  ∧ RE.format_for_f0am Ex.single
      ["R) 1.0E-11 0.0 ;ISOPRENEr3 + NO = NO2";
       "R) 1.0E-11 0.0 ;ISOPRENEr2 + NO = NO2"]
    = Ok ([Py.join Py.NL
             ["%   1, <R001>"; "i = i + 1;";
              "Rnames{i} = 'ISOPRENEr2 + NO = NO2';";
              "k(:,i) = 1e-11 .* exp(-0.0000./T);";
              "Gstr{i,1} = 'ISOPRENEr2'; Gstr{i,2} = 'NO'; ";
              "fISOPRENEr2(i) = fISOPRENEr2(i) - 1;";
              "fRO2(i) = fRO2(i) - 1;"; "fNO(i) = fNO(i) - 1;";
              "fNO2(i) = fNO2(i) + 1.0;"]], []).
Proof.
  intros Hgen Hcut Hs Href Hin Hpre Hn.
  assert (RE.select c r
          = if RE.radical_cutoff c <? n then Ok None
            else Ok (Some (Py.strip p0, Record.equation_of p1))) as Hsel.
  { rewrite (select_eq _ _ _ _ _ Hs), Href.
    rewrite bool_decide_eq_true_2 by done. cbn [negb].
    unfold Record.cutoff_applies, RE.radical_start_string.
    rewrite Hgen, String.eqb_refl, Hpre.
    rewrite (proj2 (Z.eqb_neq _ _) Hcut). cbn [negb andb]. by rewrite Hn. }
  split_and!; [| |by vm_compute..].
  - intros Hlt. apply Z.ltb_lt in Hlt. rewrite Hlt in Hsel.
    split; [|by apply format_skip]. unfold Record.passes. by rewrite Hsel.
  - intros Hle. unfold Record.passes. rewrite Hsel.
    by rewrite (proj2 (Z.ltb_ge _ _) Hle).
Qed.

Lemma generation_cutoff_witness :
  RE.gen Ex.single = "Single"
  ∧ RE.radical_cutoff Ex.single ≠ 0
  ∧ Py.split ";" "R) 1.0E-11 0.0 ;ISOPRENEr3 + NO = NO2"
    = ["R) 1.0E-11 0.0 "; "ISOPRENEr3 + NO = NO2"]
  ∧ Record.in_reference Ex.single
      (Record.reactant_part_of "ISOPRENEr3 + NO = NO2") = false
  ∧ Record.species_label_of "ISOPRENEr3 + NO = NO2" ∈ RE.compounds Ex.single
  ∧ Py.startswith (RE.precursor Ex.single +:+ "r")
      (Record.reactant_part_of "ISOPRENEr3 + NO = NO2") = true
  ∧ RE.radical_number (Record.species_label_of "ISOPRENEr3 + NO = NO2")
    = Ok 3
  ∧ RE.radical_cutoff Ex.single < 3
  ∧ Record.passes Ex.single "R) 1.0E-11 0.0 ;ISOPRENEr3 + NO = NO2" = false.
Proof.
  assert (Record.species_label_of "ISOPRENEr3 + NO = NO2"
            ∈ RE.compounds Ex.single) as Hin.
  { change (Record.species_label_of "ISOPRENEr3 + NO = NO2")
      with "ISOPRENEr3". do 2 apply list_elem_of_further.
    apply list_elem_of_here. }
  split_and!; [done..|].
  destruct (generation_cutoff Ex.single
              "R) 1.0E-11 0.0 ;ISOPRENEr3 + NO = NO2"
              "R) 1.0E-11 0.0 " "ISOPRENEr3 + NO = NO2" [] 3 [] []
              eq_refl ltac:(done) eq_refl eq_refl Hin eq_refl eq_refl)
    as (H & _).
  by apply H.
Defined.

(** C5 as the specification words it fails: the last segment of
    [ISOPRENEr3_x] and of [ISOPRENEr2_x] is [x], which holds no digit, and
    [format_for_f0am] raises on both records when they are declared species;
    when they are not, both are skipped and neither is kept. *)
Lemma generation_examples_refuted :
  RE.format_for_f0am Ex.single ["R) 1.0E-11 0.0 ;ISOPRENEr3_x + NO = NO2"]
  = Raise ValueError
  ∧ RE.format_for_f0am Ex.single ["R) 1.0E-11 0.0 ;ISOPRENEr2_x + NO = NO2"]
    = Raise ValueError
  ∧ RE.radical_number "ISOPRENEr3_x" = Raise ValueError
  ∧ RE.radical_number "ISOPRENEr2_x" = Raise ValueError
  ∧ RE.format_for_f0am Ex.single_undeclared
      ["R) 1.0E-11 0.0 ;ISOPRENEr2_x + NO = NO2"] = Ok ([], [])
  ∧ Record.passes Ex.single "R) 1.0E-11 0.0 ;ISOPRENEr2_x + NO = NO2" = false
  ∧ Record.passes Ex.single_undeclared
      "R) 1.0E-11 0.0 ;ISOPRENEr2_x + NO = NO2" = false.
Proof. split_and!; by vm_compute. Qed.

End Filters.

(** * Further properties *)

(** ** More on strings *)

Section MoreStrings.

Lemma forallb_lstrip f s : Py.forallb f s = true → Py.forallb f (Py.lstrip s) = true.
Proof.
  induction s as [|c s IH]; [done|]. simpl. intros H.
  destruct (Py.isspace c); [|done]. apply andb_prop in H as [_ H]. auto.
Qed.

Lemma forallb_rstrip f s : Py.forallb f s = true → Py.forallb f (Py.rstrip s) = true.
Proof.
  induction s as [|c s IH]; [done|]. simpl. intros [Hc Hs]%andb_prop.
  specialize (IH Hs). destruct (Py.rstrip s).
  - destruct (Py.isspace c); simpl; by rewrite ?Hc.
  - simpl in *. by rewrite Hc, IH.
Qed.

Lemma forallb_strip f s : Py.forallb f s = true → Py.forallb f (Py.strip s) = true.
Proof. intros H. by apply forallb_rstrip, forallb_lstrip. Qed.

Lemma forallb_split f sep s :
  Py.forallb f s = true → Forall (fun w => Py.forallb f w = true) (Py.split sep s).
Proof.
  induction s as [|c s IH]; simpl; [by repeat constructor|].
  intros [Hc Hs]%andb_prop. specialize (IH Hs).
  destruct (Py.eqc c sep); [by constructor|].
  destruct (Py.split sep s) as [|w ws]; [by repeat constructor; simpl; rewrite Hc|].
  apply Forall_cons in IH as [Hw Hws]. constructor; [|done]. simpl.
  by rewrite Hc, Hw.
Qed.

(** No item of [s.split(sep)] holds the separator. *)
Lemma split_no_sep_items sep s :
  Forall (fun w => Py.forallb (fun c => negb (Py.eqc c sep)) w = true)
         (Py.split sep s).
Proof.
  induction s as [|c s IH]; simpl; [by repeat constructor|].
  destruct (Py.eqc c sep) eqn:E; [by constructor|].
  destruct (Py.split sep s) as [|w ws]; [by repeat constructor; simpl; rewrite E|].
  apply Forall_cons in IH as [Hw Hws]. constructor; [|done]. simpl.
  by rewrite E, Hw.
Qed.

Lemma forallb_first_item f sep s :
  Py.forallb f s = true → Py.forallb f (Record.first_item sep s) = true.
Proof.
  intros H%(forallb_split f sep). unfold Record.first_item.
  destruct (Py.split sep s); [done|]. by apply Forall_cons in H as [H _].
Qed.

Lemma first_item_no_sep sep s :
  Py.forallb (fun c => negb (Py.eqc c sep)) (Record.first_item sep s) = true.
Proof.
  pose proof (split_no_sep_items sep s) as H. unfold Record.first_item.
  destruct (Py.split sep s); [done|]. by apply Forall_cons in H as [H _].
Qed.

Lemma rstrip_idem s : Py.rstrip (Py.rstrip s) = Py.rstrip s.
Proof.
  induction s as [|c s IH]; [done|]. simpl.
  destruct (Py.rstrip s) as [|d r] eqn:E.
  - destruct (Py.isspace c) eqn:Ec; [done|]. simpl. by rewrite Ec.
  - simpl. simpl in IH. by rewrite IH.
Qed.

Lemma lstrip_head s :
  Py.lstrip s = EmptyString
  ∨ ∃ c t, Py.lstrip s = String c t ∧ Py.isspace c = false.
Proof.
  induction s as [|c s IH]; [by left|]. simpl.
  destruct (Py.isspace c) eqn:E; [done|]. right. eauto.
Qed.

Lemma rstrip_head c t :
  Py.isspace c = false → ∃ r, Py.rstrip (String c t) = String c r.
Proof.
  intros H. simpl. destruct (Py.rstrip t); [|eauto]. rewrite H. eauto.
Qed.

(** [strip] leaves nothing to strip. *)
Lemma strip_idem s : Py.strip (Py.strip s) = Py.strip s.
Proof.
  unfold Py.strip.
  destruct (lstrip_head s) as [->|(c & t & -> & Hc)]; [done|].
  destruct (rstrip_head c t Hc) as [r Hr]. rewrite Hr.
  simpl Py.lstrip. rewrite Hc, <- Hr. apply rstrip_idem.
Qed.

Lemma replace_idem a b s :
  a ≠ b → Py.replace a b (Py.replace a b s) = Py.replace a b s.
Proof.
  intros Hab. induction s as [|c s IH]; [done|]. simpl. rewrite IH. f_equal.
  destruct (Py.eqc c a) eqn:E; [|by rewrite E].
  destruct (Py.eqc b a) eqn:E'; [|done]. by apply eqc_eq in E'.
Qed.

Lemma take_app p s : Py.take (String.length p) (p +:+ s) = p.
Proof.
  induction p as [|a p IH]; [by destruct s|]. rewrite app_String. simpl.
  by rewrite IH.
Qed.

End MoreStrings.

(** ** The reference reactions *)

Section Reference.

Lemma startswith_cons a p b s :
  Py.startswith (String a p) (String b s) = Py.eqc a b && Py.startswith p s.
Proof. reflexivity. Qed.

Lemma elem_of_load_ref_rxns lines x :
  x ∈ RE.load_ref_rxns lines ↔
  ∃ line, line ∈ lines ∧ Py.startswith "Rnames{" line = true
          ∧ x = RE.ref_reactant line.
Proof.
  unfold RE.load_ref_rxns.
  assert (∀ X : gset string,
    x ∈ foldl (fun acc line =>
                 if Py.startswith "Rnames{" line
                 then acc ∪ {[RE.ref_reactant line]} else acc) X lines
    ↔ x ∈ X ∨ ∃ line, line ∈ lines ∧ Py.startswith "Rnames{" line = true
                      ∧ x = RE.ref_reactant line) as H.
  { induction lines as [|l ls IH]; intros X; simpl.
    - split; [by left|]. intros [H|(line & H & _)]; [done|].
      by apply elem_of_nil in H.
    - rewrite IH. destruct (Py.startswith "Rnames{" l) eqn:E.
      + rewrite elem_of_union, elem_of_singleton. split.
        * intros [[H| ->]|(line & Hin & Hs & ->)]; [by left| |].
          -- right. exists l. split; [apply list_elem_of_here|done].
          -- right. exists line. split; [by apply list_elem_of_further|done].
        * intros [H|(line & Hin & Hs & ->)]; [by left; left|].
          apply elem_of_cons in Hin as [->|Hin]; [by left; right|].
          right. by exists line.
      + split.
        * intros [H|(line & Hin & Hs & ->)]; [by left|].
          right. exists line. split; [by apply list_elem_of_further|done].
        * intros [H|(line & Hin & Hs & ->)]; [by left|].
          apply elem_of_cons in Hin as [->|Hin]; [congruence|].
          right. by exists line. }
  rewrite H. split; [|by right]. intros [Hx|Hx]; [|done].
  by apply elem_of_empty in Hx.
Qed.

(** X1. Every reference fragment that [load_ref_rxns] returns is in normal form:
    it holds no hyphen and no [=], and has no white space at either end. *)
Theorem load_ref_rxns_normalised lines x :
  x ∈ RE.load_ref_rxns lines →
  hyphen_free x
  ∧ Py.forallb (fun c => negb (Py.eqc c "=")) x = true
  ∧ Py.strip x = x.
Proof.
  intros (line & _ & _ & ->)%elem_of_load_ref_rxns. unfold RE.ref_reactant.
  fold (Record.first_item "=").
  split_and!.
  - apply forallb_strip, forallb_first_item, replace_hyphen_free.
  - apply forallb_strip, first_item_no_sep.
  - apply strip_idem.
Qed.

Lemma load_ref_rxns_normalised_witness :
  "A_B" ∈ RE.load_ref_rxns ["Rnames{1} = 'A-B=C';" +:+ Py.NL]
  ∧ hyphen_free "A_B".
Proof.
  assert ("A_B" ∈ RE.load_ref_rxns ["Rnames{1} = 'A-B=C';" +:+ Py.NL]) as H.
  { apply elem_of_load_ref_rxns. eexists. split; [apply list_elem_of_here|].
    by vm_compute. }
  split; [done|]. by destruct (load_ref_rxns_normalised _ _ H) as (? & _).
Defined.

Lemma find_quote_end eqn rest :
  Py.find "';" eqn = None →
  Py.find "';" (eqn +:+ "';" +:+ rest) = Some (String.length eqn).
Proof.
  induction eqn as [|c e IH]; intros H.
  - rewrite app_empty. destruct rest; done.
  - cbn [Py.find] in H.
    destruct (Py.startswith "';" (String c e)) eqn:Hs; [done|].
    destruct (Py.find "';" e) eqn:Hf; [done|]. specialize (IH eq_refl).
    rewrite app_String. cbn [Py.find]. rewrite IH.
    assert (Py.startswith "';" (String c (e +:+ "';" +:+ rest)) = false) as ->;
      [|done].
    rewrite startswith_cons in *. destruct (Py.eqc "'" c); [|done]. simpl in *.
    destruct e as [|d e]; [done|]. rewrite app_String.
    rewrite startswith_cons in *. by destruct (Py.eqc ";" d).
Qed.

(** The line [Rnames{i} = '...';] of an emitted block, read back by
    [load_ref_rxns], gives the reactant part that [format_for_f0am] tests. *)
Lemma ref_reactant_rnames p1 :
  Py.find "';" (Record.equation_of p1) = None →
  RE.ref_reactant ("Rnames{i} = '" +:+ Py.replace "-" "_" (Record.equation_of p1)
                   +:+ "';" +:+ Py.NL)
  = Record.reactant_part_of p1.
Proof.
  intros H. unfold Record.equation_of in *.
  rewrite replace_idem by done. set (eqn := Py.replace "-" "_" (Py.strip p1)) in *.
  unfold RE.ref_reactant.
  change (Py.find "= '" ("Rnames{i} = '" +:+ eqn +:+ "';" +:+ Py.NL))
    with (Some 10%nat).
  cbn beta iota. unfold Py.find_from.
  change ((String.length ("Rnames{i} = '" +:+ eqn +:+ "';" +:+ Py.NL) <? 10 + 3)%nat)
    with false.
  change (Py.drop (10 + 3) ("Rnames{i} = '" +:+ eqn +:+ "';" +:+ Py.NL))
    with (eqn +:+ "';" +:+ Py.NL).
  rewrite find_quote_end by done. cbn [fmap option_fmap option_map].
  unfold Py.substr.
  change (Py.drop (10 + 3) ("Rnames{i} = '" +:+ eqn +:+ "';" +:+ Py.NL))
    with (eqn +:+ "';" +:+ Py.NL).
  replace (10 + 3 + String.length eqn - (10 + 3))%nat with (String.length eqn)
    by lia.
  rewrite take_app. unfold Record.reactant_part_of, Record.equation_of.
  subst eqn. by rewrite replace_idem.
Qed.

(** X2. A reaction that has been written out is not written a second time: when
    the line [Rnames{i} = '...';] of its block is among the lines of the
    reference file, the record is skipped (provided its equation holds no
    [';]). *)
Theorem reference_round_trip c r p0 p1 rest ref_lines rs1 rs2 :
  Py.split ";" r = p0 :: p1 :: rest →
  Py.find "';" (Record.equation_of p1) = None →
  ("Rnames{i} = '" +:+ Py.replace "-" "_" (Record.equation_of p1)
   +:+ "';" +:+ Py.NL) ∈ ref_lines →
  RE.reference_reactions c = Some (RE.load_ref_rxns ref_lines) →
  RE.select c r = Ok None
  ∧ RE.format_for_f0am c (rs1 ++ r :: rs2) = RE.format_for_f0am c (rs1 ++ rs2).
Proof.
  intros Hs Hq Hin Href.
  assert (RE.select c r = Ok None) as Hsel.
  { rewrite (select_eq _ _ _ _ _ Hs). unfold Record.in_reference.
    rewrite Href, bool_decide_eq_true_2; [done|].
    apply elem_of_load_ref_rxns. eexists. split; [exact Hin|].
    split; [done|]. by rewrite ref_reactant_rnames. }
  split; [done|]. by apply format_skip.
Qed.

Lemma reference_round_trip_witness :
  Py.split ";" "R) 1.0E-11 0.0 ;A-1 + B = C"
  = ["R) 1.0E-11 0.0 "; "A-1 + B = C"]
  ∧ Py.find "';" (Record.equation_of "A-1 + B = C") = None
  ∧ RE.select
      (RE.Config "Multi" "ISOPRENE" ["A_1"] false 0
         (Some (RE.load_ref_rxns ["Rnames{i} = 'A_1 + B = C';" +:+ Py.NL])))
      "R) 1.0E-11 0.0 ;A-1 + B = C" = Ok None.
Proof.
  split_and!; [done..|].
  apply (reference_round_trip
           (RE.Config "Multi" "ISOPRENE" ["A_1"] false 0
              (Some (RE.load_ref_rxns ["Rnames{i} = 'A_1 + B = C';" +:+ Py.NL])))
           "R) 1.0E-11 0.0 ;A-1 + B = C" "R) 1.0E-11 0.0 " "A-1 + B = C" []
           ["Rnames{i} = 'A_1 + B = C';" +:+ Py.NL] [] []);
    [done|done| |done].
  apply list_elem_of_here.
Defined.

End Reference.

(** ** The reaction records *)

Section Records.

Lemma skipn_after {A} (pre : list A) x rest :
  List.skipn (S (length pre)) (pre ++ x :: rest) = rest.
Proof. induction pre as [|y pre IH]; [done|]. apply IH. Qed.

Lemma slice_to_end {A} (pre block : list A) x :
  Py.slice (S (length pre)) (length (pre ++ x :: block)) (pre ++ x :: block)
  = block.
Proof.
  unfold Py.slice. rewrite skipn_after.
  replace (length (pre ++ x :: block) - S (length pre))%nat with (length block)
    by (rewrite length_app; simpl; lia).
  apply firstn_all.
Qed.

(** X3. [parse_reactions] reads the lines between the first [.RXN] line and the
    first [.] line after it, or the end of the file when there is none: the
    lines before and after do not count. *)
Theorem parse_reactions_block pre block post :
  (".RXN" +:+ Py.NL) ∉ pre →
  ("." +:+ Py.NL) ∉ block →
  RE.parse_reactions (pre ++ (".RXN" +:+ Py.NL) :: block
                          ++ ("." +:+ Py.NL) :: post)
  = Ok (records_of block)
  ∧ RE.parse_reactions (pre ++ (".RXN" +:+ Py.NL) :: block)
    = Ok (records_of block).
Proof.
  intros Hpre Hblock. unfold RE.parse_reactions, records_of. split.
  - rewrite index_first by done. bind_simpl. rewrite skipn_after.
    rewrite index_first by done.
    replace (S (length pre) + length block)%nat
      with (length (pre ++ (".RXN" +:+ Py.NL) :: block))
      by (rewrite length_app; simpl; lia).
    rewrite slice_between. by destruct (foldl _ _ _).
  - rewrite index_first by done. bind_simpl. rewrite skipn_after.
    rewrite index_absent by done. rewrite slice_to_end.
    by destruct (foldl _ _ _).
Qed.

Lemma parse_reactions_block_witness :
  ((".RXN" +:+ Py.NL) ∉ Ex.header)
  ∧ (("." +:+ Py.NL) ∉ ["R) 1.0 ;A = B" +:+ Py.NL; " + C" +:+ Py.NL])
  ∧ RE.parse_reactions
      (Ex.header ++ (".RXN" +:+ Py.NL)
         :: ["R) 1.0 ;A = B" +:+ Py.NL; " + C" +:+ Py.NL]
         ++ ("." +:+ Py.NL) :: ["R) 2.0 ;D = E" +:+ Py.NL])
    = Ok ["R) 1.0 ;A = B + C"].
Proof.
  assert ((".RXN" +:+ Py.NL) ∉ Ex.header) as H1.
  { by intros ?%list_elem_of_singleton. }
  assert (("." +:+ Py.NL) ∉ ["R) 1.0 ;A = B" +:+ Py.NL; " + C" +:+ Py.NL])
    as H2.
  { rewrite !not_elem_of_cons. split_and!; try done. apply not_elem_of_nil. }
  split_and!; [done..|].
  by destruct (parse_reactions_block Ex.header _
                 ["R) 2.0 ;D = E" +:+ Py.NL] H1 H2) as [-> _].
Defined.

Lemma no_hash_remove s : no_hash (Py.remove "#" s) = true.
Proof.
  unfold no_hash. induction s as [|c s IH]; [done|]. simpl.
  destruct (Py.eqc c "#") eqn:E; [done|]. simpl. by rewrite E.
Qed.

Lemma startswith_app_l p s t :
  Py.startswith p s = true → Py.startswith p (s +:+ t) = true.
Proof.
  intros [r ->]%startswith_inv. rewrite app_assoc_str. apply startswith_app.
Qed.

Lemma startswith_truthy p s :
  p ≠ EmptyString → Py.startswith p s = true → Py.truthy s = true.
Proof. intros Hp H. destruct p; [done|]. by destruct s. Qed.

Lemma parse_line_inv st line :
  records_inv st → records_inv (RE.parse_line st line).
Proof.
  destruct st as [cur rs]. intros (Hc & Hrs & Ht & Hr).
  cbn [fst snd] in Hc, Hrs, Ht, Hr. unfold RE.parse_line.
  fold (normal_line line).
  destruct (Py.startswith "R)" (normal_line line)) eqn:E.
  - destruct (Py.truthy cur) eqn:Et.
    + split_and!; simpl.
      * apply no_hash_remove.
      * apply Forall_app. split; [done|by constructor].
      * apply Forall_app. split; [done|by constructor].
      * intros _. split; [done|]. destruct rs as [|x rs]; [done|]. simpl.
        destruct (Hr ltac:(done)) as [H1 H2]. apply Forall_app.
        split; [done|by constructor].
    + split_and!; simpl; [apply no_hash_remove|done|done|].
      intros Hne. destruct (Hr Hne) as [H _].
      by rewrite (startswith_truthy "R)" cur) in Et.
  - split_and!; simpl; [|done|done|].
    + unfold no_hash in *. rewrite !forallb_app, Hc. simpl.
      apply no_hash_remove.
    + intros Hne. destruct (Hr Hne) as [H1 H2]. split; [|done].
      by apply startswith_app_l.
Qed.

Lemma foldl_parse_line_inv st block :
  records_inv st → records_inv (foldl RE.parse_line st block).
Proof.
  revert st. induction block as [|l ls IH]; intros st H; [done|].
  simpl. by apply IH, parse_line_inv.
Qed.

Lemma parse_line_held st line :
  Py.truthy st.1 = true →
  Py.truthy (RE.parse_line st line).1 = true
  ∧ held (RE.parse_line st line)
    = (held st + if starts_record line then 1 else 0)%nat.
Proof.
  destruct st as [cur rs]. simpl. intros Ht. unfold RE.parse_line, held.
  fold (normal_line line). unfold starts_record.
  destruct (Py.startswith "R)" (normal_line line)) eqn:E; simpl.
  - rewrite Ht, (startswith_truthy "R)" _ ltac:(done) E), length_app.
    simpl. split; [done|lia].
  - rewrite Ht. split; [by destruct cur|].
    destruct cur; [done|]. rewrite app_String. simpl. lia.
Qed.

Lemma foldl_parse_line_held st block :
  Py.truthy st.1 = true →
  held (foldl RE.parse_line st block)
  = (held st + length (List.filter starts_record block))%nat.
Proof.
  revert st. induction block as [|l ls IH]; intros st Ht; simpl; [lia|].
  destruct (parse_line_held st l Ht) as [Ht' Hh]. rewrite IH, Hh by done.
  destruct (starts_record l); simpl; lia.
Qed.

(** The records of a block: none holds a [#] and none is empty; every record
    but the first starts with [R)]; there is one record for each line that
    starts with [R)], and one more when the block begins with another line
    (that first record then holds the lines before the first [R)] line). *)
Theorem records_of_shape block :
  Forall (fun r => no_hash r = true) (records_of block)
  ∧ Forall (fun r => Py.truthy r = true) (records_of block)
  ∧ Forall (fun r => Py.startswith "R)" r = true) (tail (records_of block))
  ∧ length (records_of block)
    = (length (List.filter starts_record block)
       + match block with
         | line :: _ => if starts_record line then 0 else 1
         | [] => 0
         end)%nat.
Proof.
  assert (records_inv (foldl RE.parse_line (EmptyString, []) block)) as Hinv.
  { apply foldl_parse_line_inv. by repeat split. }
  assert (length (records_of block)
          = held (foldl RE.parse_line (EmptyString, []) block)) as Hlen.
  { unfold records_of, held. destruct (foldl _ _ _) as [cur rs]. simpl.
    destruct (Py.truthy cur); [|lia]. rewrite length_app. simpl. lia. }
  split_and!.
  - unfold records_of. destruct (foldl _ _ _) as [cur rs].
    destruct Hinv as (Hc & Hrs & _). simpl in *.
    destruct (Py.truthy cur); [|done]. apply Forall_app. by repeat constructor.
  - unfold records_of. destruct (foldl _ _ _) as [cur rs].
    destruct Hinv as (_ & _ & Ht & _). simpl in *.
    destruct (Py.truthy cur) eqn:E; [|done]. apply Forall_app.
    by repeat constructor.
  - unfold records_of. destruct (foldl _ _ _) as [cur rs].
    destruct Hinv as (_ & _ & _ & Hr). simpl in *.
    destruct rs as [|x rs].
    + by destruct (Py.truthy cur).
    + destruct (Hr ltac:(done)) as [H1 H2]. simpl in *.
      destruct (Py.truthy cur); [|done]. simpl. apply Forall_app.
      by repeat constructor.
  - rewrite Hlen. destruct block as [|l ls]; [done|]. cbn [foldl List.filter].
    assert (Py.truthy (RE.parse_line (EmptyString, []) l).1 = true
            ∧ held (RE.parse_line (EmptyString, []) l) = 1%nat) as [Ht Hh].
    { unfold RE.parse_line, held. fold (normal_line l).
      destruct (Py.startswith "R)" (normal_line l)) eqn:E; simpl; [|done].
      by rewrite (startswith_truthy "R)" _ ltac:(done) E). }
    rewrite foldl_parse_line_held, Hh by done.
    destruct (starts_record l); simpl; lia.
Qed.

(** X4. The records that [parse_reactions] returns: none holds a [#], none is
    empty, and every record but the first starts with [R)]; they are the
    records of the lines of the block, one for each line that starts with
    [R)] and one more when the block begins with another line. *)
Theorem parse_reactions_shape lines records :
  RE.parse_reactions lines = Ok records →
  Forall (fun r => no_hash r = true) records
  ∧ Forall (fun r => Py.truthy r = true) records
  ∧ Forall (fun r => Py.startswith "R)" r = true) (tail records)
  ∧ ∃ start stop,
      records = records_of (Py.slice start stop lines)
      ∧ length records
        = (length (List.filter starts_record (Py.slice start stop lines))
           + match Py.slice start stop lines with
             | line :: _ => if starts_record line then 0 else 1
             | [] => 0
             end)%nat.
Proof.
  unfold RE.parse_reactions.
  destruct (Py.index (".RXN" +:+ Py.NL) lines) as [start|]; [|done].
  bind_simpl. set (stop := match Py.index _ _ with Ok k => _ | Raise _ => _ end).
  intros H.
  assert (records = records_of (Py.slice (S start) stop lines)) as ->.
  { unfold records_of. destruct (foldl _ _ _). by injection H as <-. }
  destruct (records_of_shape (Py.slice (S start) stop lines))
    as (H1 & H2 & H3 & H4).
  split_and!; [done..|]. by exists (S start), stop.
Qed.

Lemma parse_reactions_shape_witness :
  RE.parse_reactions
    ((fun s => s +:+ Py.NL)
       <$> [".RXN"; "  + stray"; "R) 1.0 ;A = #B"; " + C"; "R) 2.0 ;D = E"])
  = Ok [" + stray"; "R) 1.0 ;A = B + C"; "R) 2.0 ;D = E"]
  ∧ Forall (fun r => Py.startswith "R)" r = true)
           (tail [" + stray"; "R) 1.0 ;A = B + C"; "R) 2.0 ;D = E"]).
Proof.
  assert (RE.parse_reactions
    ((fun s => s +:+ Py.NL)
       <$> [".RXN"; "  + stray"; "R) 1.0 ;A = #B"; " + C"; "R) 2.0 ;D = E"])
  = Ok [" + stray"; "R) 1.0 ;A = B + C"; "R) 2.0 ;D = E"]) as H
    by (by vm_compute).
  split; [done|]. by destruct (parse_reactions_shape _ _ H) as (_ & _ & H3 & _).
Defined.

End Records.

(** ** The species rows *)

Section Rows.

Lemma drop_duplicates_spec seen rows :
  NoDup (SE.Species <$> SE.drop_duplicates seen rows)
  ∧ (∀ r, r ∈ SE.drop_duplicates seen rows → r ∈ rows ∧ SE.Species r ∉ seen)
  ∧ (∀ r, r ∈ rows → SE.Species r ∉ seen →
          SE.Species r ∈ SE.Species <$> SE.drop_duplicates seen rows)
  ∧ SE.drop_duplicates seen rows `sublist_of` rows.
Proof.
  revert seen. induction rows as [|r rows IH]; intros seen; simpl.
  - split_and!; [constructor| | |done]; by intros ? ?%elem_of_nil.
  - case_bool_decide as Hr.
    + destruct (IH seen) as (H1 & H2 & H3 & H4). split_and!; [done| | |].
      * intros x Hx. destruct (H2 x Hx). split; [|done].
        by apply list_elem_of_further.
      * intros x [->|Hx]%elem_of_cons Hs; [done|]. by apply H3.
      * by constructor.
    + destruct (IH (SE.Species r :: seen)) as (H1 & H2 & H3 & H4).
      split_and!.
      * simpl. constructor; [|done].
        intros (x & Hx & Hin)%list_elem_of_fmap.
        destruct (H2 x Hin) as [_ Hn]. apply Hn. rewrite Hx.
        apply list_elem_of_here.
      * intros x [->|Hx]%elem_of_cons.
        -- split; [apply list_elem_of_here|done].
        -- destruct (H2 x Hx) as [Hin Hn]. split.
           ++ by apply list_elem_of_further.
           ++ intros Hs. apply Hn. by apply list_elem_of_further.
      * intros x [->|Hx]%elem_of_cons Hs; simpl.
        -- apply list_elem_of_here.
        -- destruct (decide (SE.Species x = SE.Species r)) as [->|Hne].
           ++ apply list_elem_of_here.
           ++ apply list_elem_of_further, H3; [done|].
              by intros [?|?]%elem_of_cons.
      * by constructor.
Qed.

Lemma drop_duplicates_first pre rows seen :
  (∀ x, x ∈ seen ↔ x ∈ SE.Species <$> pre) →
  SE.drop_duplicates seen rows
  = List.concat
      (imap (fun i r =>
               if bool_decide (SE.Species r
                               ∈ SE.Species <$> take (length pre + i)
                                                     (pre ++ rows))
               then [] else [r])
            rows).
Proof.
  revert pre seen. induction rows as [|r rows IH]; intros pre seen Hseen; [done|].
  cbn [SE.drop_duplicates imap List.concat].
  rewrite Nat.add_0_r, take_app_length.
  rewrite (bool_decide_ext _ _ (Hseen (SE.Species r))).
  assert (imap ((fun i r0 =>
                   if bool_decide (SE.Species r0
                                   ∈ SE.Species <$> take (length pre + i)
                                                         (pre ++ r :: rows))
                   then [] else [r0]) ∘ S) rows
          = imap (fun i r0 =>
                    if bool_decide (SE.Species r0
                                    ∈ SE.Species <$> take (length (pre ++ [r]) + i)
                                                          ((pre ++ [r]) ++ rows))
                    then [] else [r0]) rows) as ->.
  { apply imap_ext. intros i x _. cbn [compose].
    rewrite <- (assoc_L (++)), length_app. cbn [app length].
    by replace (length pre + 1 + i)%nat with (length pre + S i)%nat by lia. }
  case_bool_decide as Hin.
  - cbn [app]. apply IH. intros x. rewrite Hseen, fmap_app, elem_of_app.
    cbn [fmap list_fmap]. rewrite list_elem_of_singleton.
    split; [tauto|]. intros [?|Hx]; [done|]. by subst x.
  - cbn [app]. f_equal. apply IH. intros x.
    rewrite elem_of_cons, Hseen, fmap_app, elem_of_app.
    cbn [fmap list_fmap]. rewrite list_elem_of_singleton. tauto.
Qed.

Lemma elem_of_first_rows all_rows r :
  r ∈ first_rows all_rows
  ↔ ∃ i, all_rows !! i = Some r
         ∧ SE.Species r ∉ SE.Species <$> take i all_rows.
Proof.
  unfold first_rows. rewrite list_elem_of_In, in_concat. split.
  - intros (l & Hl%list_elem_of_In & Hr%list_elem_of_In).
    apply list_elem_of_lookup in Hl as [i Hi].
    rewrite list_lookup_imap in Hi.
    destruct (all_rows !! i) as [x|] eqn:Hx; [|done]. simpl in Hi.
    injection Hi as <-. case_bool_decide as Hin; [by apply elem_of_nil in Hr|].
    apply list_elem_of_singleton in Hr as ->. eauto.
  - intros (i & Hi & Hn). exists [r]. split; apply list_elem_of_In.
    + apply list_elem_of_lookup. exists i. rewrite list_lookup_imap, Hi. simpl.
      by rewrite bool_decide_eq_false_2.
    + apply list_elem_of_here.
Qed.

(** X5. The rows of [extract_species] are the rows of the section whose
    common name is not the common name of a row before them, in the order of
    the section: the first row of each common name is kept, and no other.  So
    no common name is held twice, and every common name of the section is the
    name of one row.  The tool names may repeat. *)
Theorem extract_species_unique lines string_start string_end rows :
  SE.extract_species lines string_start string_end = Ok rows →
  NoDup (SE.Species <$> rows)
  ∧ ∃ sec all_rows,
      SE.section lines string_start string_end = Ok sec
      ∧ SE.extract_lines sec = Ok all_rows
      ∧ rows `sublist_of` all_rows
      ∧ (∀ r, r ∈ all_rows → SE.Species r ∈ SE.Species <$> rows)
      ∧ (∀ r, all_rows !! 0%nat = Some r → rows !! 0%nat = Some r)
      ∧ rows = first_rows all_rows
      ∧ (∀ r, r ∈ rows ↔
              ∃ i, all_rows !! i = Some r
                   ∧ ∀ j r', (j < i)%nat → all_rows !! j = Some r' →
                             SE.Species r' ≠ SE.Species r).
Proof.
  unfold SE.extract_species.
  destruct (SE.section lines string_start string_end) as [sec|]; [|done].
  bind_simpl. destruct (SE.extract_lines sec) as [all_rows|] eqn:Hall; [|done].
  bind_simpl. intros [= <-].
  destruct (drop_duplicates_spec [] all_rows) as (H1 & H2 & H3 & H4).
  assert (SE.drop_duplicates [] all_rows = first_rows all_rows) as Hfirst.
  { by rewrite (drop_duplicates_first [] all_rows []). }
  split; [done|]. exists sec, all_rows.
  split; [done|]. split; [done|]. split; [done|]. split; [|split; [|split]].
  - intros r Hr. apply H3; [done|]. apply not_elem_of_nil.
  - intros r Hr. destruct all_rows as [|x rows']; [done|].
    simpl in Hr. injection Hr as ->. cbn [SE.drop_duplicates].
    case_bool_decide as Hin; [|done]. by apply elem_of_nil in Hin.
  - done.
  - intros r. rewrite Hfirst, elem_of_first_rows.
    split; intros (i & Hi & Hn); exists i; (split; [done|]).
    + intros j r' Hj Hr' Heq. apply Hn. rewrite <- Heq.
      apply list_elem_of_fmap. exists r'. split; [done|].
      apply list_elem_of_lookup. exists j. by rewrite lookup_take_lt.
    + intros (r' & Heq & Hin)%list_elem_of_fmap.
      apply list_elem_of_lookup in Hin as [j Hj].
      apply lookup_take_Some in Hj as [Hj Hlt]. by apply (Hn j r').
Qed.

Lemma extract_species_unique_witness :
  SE.extract_species
    ((fun s => s +:+ Py.NL)
       <$> [".STS"; "a1 ! 1 X"; "a2 ! 2 Y"; "a3 ! 3 Y"; "a3 ! 4 X";
            "a1 ! 5 Z"; ".RXN"])
    ".STS" ".RXN"
  = Ok [SE.Row "X" "a1"; SE.Row "Y" "a2"; SE.Row "Z" "a1"]
  ∧ NoDup (SE.Species <$> [SE.Row "X" "a1"; SE.Row "Y" "a2"; SE.Row "Z" "a1"]).
Proof.
  assert (SE.extract_species
    ((fun s => s +:+ Py.NL)
       <$> [".STS"; "a1 ! 1 X"; "a2 ! 2 Y"; "a3 ! 3 Y"; "a3 ! 4 X";
            "a1 ! 5 Z"; ".RXN"])
    ".STS" ".RXN"
  = Ok [SE.Row "X" "a1"; SE.Row "Y" "a2"; SE.Row "Z" "a1"]) as H
    by (by vm_compute).
  split; [done|]. by destruct (extract_species_unique _ _ _ _ H) as [? _].
Defined.

Lemma extract_line_comment line :
  comment_line line = true → SE.extract_line line = Ok None.
Proof.
  unfold comment_line, SE.extract_line.
  destruct (Py.split_ws line) as [|tok rest]; [done|]. bind_simpl.
  intros [->| ->]%orb_prop; by rewrite ?andb_false_r.
Qed.

Lemma extract_lines_app s1 s2 :
  SE.extract_lines (s1 ++ s2)
  = r1 ← SE.extract_lines s1; r2 ← SE.extract_lines s2; Ok (r1 ++ r2).
Proof.
  induction s1 as [|l s1 IH]; simpl.
  - by destruct (SE.extract_lines s2).
  - destruct (SE.extract_line l) as [r|]; [|done]. bind_simpl. rewrite IH.
    destruct (SE.extract_lines s1) as [r1|]; [|done]. bind_simpl.
    destruct (SE.extract_lines s2) as [r2|]; [|done]. bind_simpl.
    by destruct r.
Qed.

(** X6. Comment and continuation lines (first item starting with [!] or [.]) do
    not count: a section with such a line gives the rows of the section
    without it. *)
Theorem extract_species_comment pre s1 c s2 post string_start string_end :
  comment_line c = true →
  (string_start +:+ Py.NL) ∉ pre →
  (string_end +:+ Py.NL) ∉ (pre ++ (string_start +:+ Py.NL) :: s1 ++ c :: s2) →
  SE.extract_species
    (pre ++ (string_start +:+ Py.NL) :: (s1 ++ c :: s2)
         ++ (string_end +:+ Py.NL) :: post) string_start string_end
  = SE.extract_species
      (pre ++ (string_start +:+ Py.NL) :: (s1 ++ s2)
           ++ (string_end +:+ Py.NL) :: post) string_start string_end.
Proof.
  intros Hc Hs He. unfold SE.extract_species.
  rewrite !section_between; try done.
  - bind_simpl. rewrite !extract_lines_app. cbn [SE.extract_lines].
    rewrite (extract_line_comment c Hc). bind_simpl.
    destruct (SE.extract_lines s1) as [r1|]; [|done]. bind_simpl.
    by destruct (SE.extract_lines s2).
  - intros H. apply He. rewrite !elem_of_app, !elem_of_cons, !elem_of_app in *.
    rewrite elem_of_cons. tauto.
Qed.

Lemma extract_species_comment_witness :
  comment_line ("! note" +:+ Py.NL) = true
  ∧ ((".STS" +:+ Py.NL) ∉ Ex.header)
  ∧ ((".RXN" +:+ Py.NL)
       ∉ (Ex.header ++ (".STS" +:+ Py.NL)
            :: ["O3P ! 1 O3P" +:+ Py.NL] ++ ("! note" +:+ Py.NL)
            :: ["OH ! 2 OH" +:+ Py.NL]))
  ∧ SE.extract_species
      (Ex.header ++ (".STS" +:+ Py.NL)
         :: (["O3P ! 1 O3P" +:+ Py.NL] ++ ("! note" +:+ Py.NL)
               :: ["OH ! 2 OH" +:+ Py.NL])
         ++ (".RXN" +:+ Py.NL) :: []) ".STS" ".RXN"
    = SE.extract_species
        (Ex.header ++ (".STS" +:+ Py.NL)
           :: (["O3P ! 1 O3P" +:+ Py.NL] ++ ["OH ! 2 OH" +:+ Py.NL])
           ++ (".RXN" +:+ Py.NL) :: []) ".STS" ".RXN".
Proof.
  assert ((".STS" +:+ Py.NL) ∉ Ex.header) as Hs.
  { by intros ?%list_elem_of_singleton. }
  assert ((".RXN" +:+ Py.NL)
       ∉ (Ex.header ++ (".STS" +:+ Py.NL)
            :: ["O3P ! 1 O3P" +:+ Py.NL] ++ ("! note" +:+ Py.NL)
            :: ["OH ! 2 OH" +:+ Py.NL])) as He.
  { apply not_elem_of_app. split; [by intros ?%list_elem_of_singleton|].
    cbn [app]. rewrite !not_elem_of_cons. split_and!; try done.
    apply not_elem_of_nil. }
  split_and!; [done..|].
  by apply (extract_species_comment Ex.header _ _ _ []).
Defined.

End Rows.

(** ** The run of [format_for_f0am] over the records *)

Section Run.

Lemma search_tagged_nonempty tag f s g :
  Re.search_tagged tag f s = Some g → g ≠ EmptyString.
Proof.
  induction s as [|ch s IH]; cbn [Re.search_tagged].
  - destruct (Py.startswith tag ""); [|done].
    destruct (Re.run f _) eqn:Hr; [done|]. by intros [= <-].
  - destruct (Py.startswith tag (String ch s)); [|done].
    destruct (Re.run f _) eqn:Hr; [done|]. by intros [= <-].
Qed.

Lemma canonical_PF_name g : g ≠ EmptyString → PF_name (canonical_PF g).
Proof.
  intros Hg. unfold canonical_PF.
  destruct (String.eqb_spec (Py.replace "-" "_" g) "C2CHOabs") as [He|Hne].
  - split_and!; [done|by vm_compute|done].
  - split_and!; [by destruct g|apply replace_hyphen_free|done].
Qed.

(** The text that [handle_photolysis] returns does not depend on the
    accumulator. *)
Lemma handle_photolysis_text value names1 names2 :
  (RE.handle_photolysis value names1).1 = (RE.handle_photolysis value names2).1.
Proof.
  unfold RE.handle_photolysis. case_bool_decide; [|done].
  destruct (Re.search_PF value); [|done]. by destruct (Re.search_QY value).
Qed.

Lemma handle_photolysis_names value names :
  (RE.handle_photolysis value names).2 = names
  ∨ ∃ g, g ≠ EmptyString
         ∧ (RE.handle_photolysis value names).2 = register (canonical_PF g) names.
Proof.
  unfold RE.handle_photolysis. case_bool_decide; [|by left].
  destruct (Re.search_PF value) as [g|] eqn:Hg; [|by left].
  right. exists g. split; [by eapply search_tagged_nonempty|].
  by destruct (Re.search_QY value).
Qed.

Lemma format_rate_inv rate_str names text names' :
  RE.format_rate rate_str names = Ok (text, names') →
  names' = (RE.handle_photolysis rate_str names).2
  ∧ ∀ names2, RE.format_rate rate_str names2
              = Ok (text, (RE.handle_photolysis rate_str names2).2).
Proof.
  unfold RE.format_rate. intros H.
  pose proof (handle_photolysis_text rate_str names) as Ht.
  destruct (RE.handle_photolysis rate_str names) as [cv ns] eqn:Hh.
  simpl in Ht.
  destruct (negb (cv =? rate_str)%string) eqn:Hc.
  - injection H as <- <-. split; [done|]. intros names2.
    specialize (Ht names2).
    destruct (RE.handle_photolysis rate_str names2) as [cv2 ns2]. simpl in *.
    subst cv2. by rewrite Hc.
  - destruct (RE.except_ValueError _ _) as [t|] eqn:He; [|done].
    bind_simpl in H. injection H as <- <-. split; [done|]. intros names2.
    specialize (Ht names2).
    destruct (RE.handle_photolysis rate_str names2) as [cv2 ns2]. simpl in *.
    subst cv2. rewrite Hc, He. by bind_simpl.
Qed.

(** The accumulator after one record: the one before, or with one more name
    at the end. *)
Lemma emit_inv c i names info eqn block names' :
  RE.emit c i names info eqn = Ok (block, names') →
  (names' = names
   ∨ ∃ g, g ≠ EmptyString ∧ names' = register (canonical_PF g) names)
  ∧ ∀ names2, ∃ names2', RE.emit c i names2 info eqn = Ok (block, names2').
Proof.
  unfold RE.emit. intros H.
  destruct (RE.format_rate _ names) as [[rate ns]|] eqn:Hr; [|done].
  bind_simpl in H. destruct (format_rate_inv _ _ _ _ Hr) as [-> Hr2].
  destruct (RE.unpack2 _) as [[rp pp]|]; [|done]. bind_simpl in H.
  destruct (RE.stoichiometry _ _ _) as [f_lines|] eqn:Hs; [|done].
  bind_simpl in H.
  injection H as <- <-. split; [apply handle_photolysis_names|].
  intros names2. rewrite Hr2. bind_simpl. rewrite Hs. bind_simpl. eauto.
Qed.

Lemma register_PF_name g names :
  g ≠ EmptyString → Forall PF_name names →
  Forall PF_name (register (canonical_PF g) names).
Proof.
  intros Hg H. unfold register. case_bool_decide; [done|].
  apply Forall_app. split; [done|]. by apply Forall_singleton, canonical_PF_name.
Qed.

Lemma run_names c rs st st' :
  RE.run c st rs = Ok st' →
  RE.names_PF st `prefix_of` RE.names_PF st'
  ∧ (NoDup (RE.names_PF st) → NoDup (RE.names_PF st'))
  ∧ (Forall PF_name (RE.names_PF st) → Forall PF_name (RE.names_PF st')).
Proof.
  revert st. induction rs as [|r rs IH]; intros st.
  - by intros [= <-].
  - cbn [RE.run]. destruct (RE.step c st r) as [st1|] eqn:Hstep; [|done].
    bind_simpl. intros Hrun. destruct (IH _ Hrun) as (Hp & Hn & Hf).
    assert (RE.names_PF st1 = RE.names_PF st
            ∨ ∃ g, g ≠ EmptyString
                   ∧ RE.names_PF st1
                     = register (canonical_PF g) (RE.names_PF st)) as Hst.
    { unfold RE.step in Hstep.
      destruct (RE.select c r) as [[[info eqn]|]|]; [| |done].
      - bind_simpl in Hstep.
        destruct (RE.emit c _ _ info eqn) as [[block ns]|] eqn:He; [|done].
        bind_simpl in Hstep. injection Hstep as <-. simpl.
        by destruct (emit_inv _ _ _ _ _ _ _ He) as [? _].
      - bind_simpl in Hstep. injection Hstep as <-. by left. }
    destruct Hst as [Hst|(g & Hg & Hst)]; rewrite Hst in *; [done|].
    split_and!.
    + etrans; [apply register_prefix|done].
    + intros H. by apply Hn, register_NoDup.
    + intros H. by apply Hf, register_PF_name.
Qed.

(** X9. The photolysis names that [format_for_f0am] returns are pairwise
    distinct; none is empty, none holds a hyphen, and none is [C2CHOabs]
    (which is registered as [C2CHO]). *)
Theorem format_for_f0am_names c reactions blocks names :
  RE.format_for_f0am c reactions = Ok (blocks, names) →
  NoDup names ∧ Forall PF_name names.
Proof.
  unfold RE.format_for_f0am. intros H.
  destruct (RE.run c _ reactions) as [st|] eqn:Hrun; [|done].
  bind_simpl in H. injection H as <- <-.
  destruct (run_names _ _ _ _ Hrun) as (_ & Hn & Hf). split.
  - apply Hn. constructor.
  - apply Hf. constructor.
Qed.

Lemma format_for_f0am_names_witness :
  NoDup ["C2CHO"; "X_Y"] ∧ Forall PF_name ["C2CHO"; "X_Y"].
Proof.
  apply (format_for_f0am_names Ex.multi
           ["R) PF=C2CHOabs ;A + HV = B"; "R) PF=X-Y QY=0.5 ;E + HV = F";
            "R) PF=C2CHO ;A + HV = C"; "R) PF=X_Y ;E + HV = F"]
           (Py.join Py.NL
              <$> [["%   1, <R001>"; "i = i + 1;"; "Rnames{i} = 'A + HV = B';";
                    "k(:,i) = JC2CHO;"; "Gstr{i,1} = 'A'; ";
                    "fA(i) = fA(i) - 1;"; "fB(i) = fB(i) + 1.0;"];
                   ["%   2, <R002>"; "i = i + 1;"; "Rnames{i} = 'E + HV = F';";
                    "k(:,i) = JX_Y * 0.5;"; "Gstr{i,1} = 'E'; ";
                    "fE(i) = fE(i) - 1;"; "fF(i) = fF(i) + 1.0;"];
                   ["%   3, <R003>"; "i = i + 1;"; "Rnames{i} = 'A + HV = C';";
                    "k(:,i) = JC2CHO;"; "Gstr{i,1} = 'A'; ";
                    "fA(i) = fA(i) - 1;"; "fC(i) = fC(i) + 1.0;"];
                   ["%   4, <R004>"; "i = i + 1;"; "Rnames{i} = 'E + HV = F';";
                    "k(:,i) = JX_Y;"; "Gstr{i,1} = 'E'; ";
                    "fE(i) = fE(i) - 1;"; "fF(i) = fF(i) + 1.0;"]])).
  by vm_compute.
Defined.

(** X11. The output is produced record by record: the run over the first records
    of a list that is converted returns the first blocks and the first
    names of the whole run. *)
Theorem format_for_f0am_prefix c rs1 rs2 blocks names :
  RE.format_for_f0am c (rs1 ++ rs2) = Ok (blocks, names) →
  ∃ blocks1 names1,
    RE.format_for_f0am c rs1 = Ok (blocks1, names1)
    ∧ blocks1 `prefix_of` blocks
    ∧ names1 `prefix_of` names.
Proof.
  unfold RE.format_for_f0am. rewrite run_app. intros H.
  destruct (RE.run c _ rs1) as [st1|] eqn:Hrun1; [|done]. bind_simpl in H.
  destruct (RE.run c st1 rs2) as [st2|] eqn:Hrun2; [|done]. bind_simpl in H.
  injection H as <- <-. exists (RE.formatted_reactions st1), (RE.names_PF st1).
  bind_simpl. split; [done|].
  destruct (run_blocks _ _ _ _ Hrun2) as (new & -> & _).
  destruct (run_names _ _ _ _ Hrun2) as (Hp & _). split; [|done].
  by apply prefix_app_r.
Qed.

Lemma format_for_f0am_prefix_witness :
  ∃ blocks1 names1,
    RE.format_for_f0am Ex.multi (take 2 Ex.records) = Ok (blocks1, names1)
    ∧ blocks1 `prefix_of` Ex.blocks
    ∧ names1 `prefix_of` ["X_Y"].
Proof.
  apply (format_for_f0am_prefix Ex.multi (take 2 Ex.records)
           (drop 2 Ex.records)).
  by vm_compute.
Defined.

(** X12. The block of a record depends on the record and on its number only: the
    block at position [k] is the one that the loop body gives for the record
    number [k] among those that pass, run with the counter [k + 1] and with
    an empty accumulator. *)
Theorem format_for_f0am_recordwise c reactions blocks names :
  RE.format_for_f0am c reactions = Ok (blocks, names) →
  ∀ k r, List.filter (Record.passes c) reactions !! k = Some r →
    ∃ info eqn block names_k,
      RE.select c r = Ok (Some (info, eqn))
      ∧ RE.emit c (Z.of_nat (S k)) [] info eqn = Ok (block, names_k)
      ∧ blocks !! k = Some block.
Proof.
  unfold RE.format_for_f0am. intros H.
  destruct (RE.run c _ reactions) as [st'|] eqn:Hrun; [|done].
  bind_simpl in H. injection H as <- <-.
  assert (∀ rs st st', RE.run c st rs = Ok st' →
    ∀ k r, List.filter (Record.passes c) rs !! k = Some r →
      ∃ info eqn block names_k,
        RE.select c r = Ok (Some (info, eqn))
        ∧ RE.emit c (RE.i st + Z.of_nat k) [] info eqn = Ok (block, names_k)
        ∧ RE.formatted_reactions st'
            !! (length (RE.formatted_reactions st) + k)%nat = Some block) as Hgen.
  { clear. induction rs as [|r0 rs IH]; intros st st'; [done|].
    cbn [RE.run]. destruct (RE.step c st r0) as [st1|] eqn:Hstep; [|done].
    bind_simpl. intros Hrun k r. cbn [List.filter]. unfold Record.passes at 1.
    unfold RE.step in Hstep.
    destruct (RE.select c r0) as [[[info eqn]|]|] eqn:Hsel; [| |done].
    - bind_simpl in Hstep.
      destruct (RE.emit c _ _ info eqn) as [[block ns]|] eqn:He; [|done].
      bind_simpl in Hstep. injection Hstep as <-.
      destruct k as [|k]; simpl.
      + intros [= <-]. destruct (emit_inv _ _ _ _ _ _ _ He) as [_ Hi].
        destruct (Hi []) as [ns0 Hns]. exists info, eqn, block, ns0.
        rewrite Z.add_0_r. split_and!; [done..|].
        destruct (run_blocks _ _ _ _ Hrun) as (new & -> & _). simpl.
        rewrite Nat.add_0_r, <- app_assoc. cbn [app].
        by rewrite list_lookup_middle.
      + intros Hk. destruct (IH _ _ Hrun _ _ Hk)
          as (info' & eqn' & block' & ns' & H1 & H2 & H3).
        exists info', eqn', block', ns'. simpl in H2, H3. split_and!; [done| |].
        * rewrite <- H2. f_equal. lia.
        * rewrite <- H3. f_equal. rewrite length_app. simpl. lia.
    - bind_simpl in Hstep. injection Hstep as <-. by apply IH. }
  intros k r Hk. destruct (Hgen _ _ _ Hrun _ _ Hk)
    as (info & eqn & block & ns & H1 & H2 & H3).
  exists info, eqn, block, ns. split_and!; [done| |done].
  rewrite <- H2. f_equal. simpl. lia.
Qed.

Lemma format_for_f0am_recordwise_witness :
  ∃ info eqn block names_k,
    RE.select Ex.multi "R) PF=X-Y ;E + HV = F" = Ok (Some (info, eqn))
    ∧ RE.emit Ex.multi 2 [] info eqn = Ok (block, names_k)
    ∧ Ex.blocks !! 1%nat = Some block.
Proof.
  apply (format_for_f0am_recordwise Ex.multi Ex.records Ex.blocks ["X_Y"]
           ltac:(by vm_compute) 1%nat "R) PF=X-Y ;E + HV = F").
  by vm_compute.
Defined.

End Run.

(** ** The photolysis names in use *)

Section NamesInUse.

Lemma run_spec f s :
  Py.forallb f (Re.run f s) = true
  ∧ (String.length (Re.run f s) ≤ String.length s)%nat.
Proof.
  induction s as [|ch s [IH1 IH2]]; simpl; [done|].
  destruct (f ch) eqn:Hf; simpl; [|split; [done|lia]].
  rewrite Hf, IH1. split; [done|lia].
Qed.

Lemma search_tagged_here tag f s g :
  Py.startswith tag s = true →
  Re.run f (Py.drop (String.length tag) s) = g →
  Py.forallb f g = true
  ∧ (String.length g + String.length tag ≤ String.length s)%nat.
Proof.
  intros [r ->]%startswith_inv <-. rewrite drop_app, length_app_str.
  destruct (run_spec f r). split; [done|lia].
Qed.

Lemma search_tagged_spec tag f s g :
  Re.search_tagged tag f s = Some g →
  Py.forallb f g = true
  ∧ (String.length g + String.length tag ≤ String.length s)%nat.
Proof.
  induction s as [|ch s IH]; cbn [Re.search_tagged].
  - destruct (Py.startswith tag "") eqn:Hst; [|done].
    destruct (Re.run f _) eqn:Hr; [done|]. intros [= <-].
    by eapply search_tagged_here.
  - destruct (Py.startswith tag (String ch s)) eqn:Hst.
    + destruct (Re.run f _) eqn:Hr.
      * intros [H1 H2]%IH. split; [done|]. simpl. lia.
      * intros [= <-]. by eapply search_tagged_here.
    + intros [H1 H2]%IH. split; [done|]. simpl. lia.
Qed.

Lemma replace_length a b s :
  String.length (Py.replace a b s) = String.length s.
Proof. induction s as [|ch s IH]; simpl; [done|]. by rewrite IH. Qed.

Lemma canonical_PF_nonspace g :
  Py.forallb nonspace g = true →
  Py.forallb nonspace (canonical_PF g) = true
  ∧ (String.length (canonical_PF g) ≤ String.length g)%nat.
Proof.
  intros Hg. unfold canonical_PF.
  destruct (String.eqb_spec (Py.replace "-" "_" g) "C2CHOabs") as [He|Hne].
  - split; [done|]. rewrite <- (replace_length "-" "_" g), He. simpl. lia.
  - rewrite replace_length. split; [|done]. clear Hne.
    induction g as [|ch g IH]; [done|]. simpl in *.
    apply andb_prop in Hg as [Hc Hg]. rewrite (IH Hg), andb_true_r.
    by destruct (Py.eqc ch "-").
Qed.

Lemma search_PF_yield y :
  Py.forallb Re.yield_char y = true → Re.search_PF y = None.
Proof.
  unfold Re.search_PF. induction y as [|ch y IH]; [done|].
  intros [Hc Hy]%andb_prop. cbn [Re.search_tagged].
  destruct (Py.startswith "PF=" (String ch y)) eqn:Hst; [|by apply IH].
  apply startswith_inv in Hst as [r Hr]. rewrite app_String in Hr.
  injection Hr as -> _. done.
Qed.

Lemma search_PF_after_name a y g :
  Py.forallb nonspace a = true →
  Py.forallb Re.yield_char y = true →
  Re.search_PF (a +:+ " * " +:+ y) = Some g →
  (String.length g + 3 ≤ String.length a)%nat.
Proof.
  unfold Re.search_PF. intros Ha Hy. induction a as [|ch a IH].
  - rewrite app_empty. rewrite !app_String, app_empty.
    cbn [Re.search_tagged]. cbn [Py.startswith Py.eqc Py.code].
    change (Re.search_tagged "PF=" (fun c => negb (Py.isspace c)) y)
      with (Re.search_PF y).
    by rewrite search_PF_yield.
  - rewrite app_String. cbn [Re.search_tagged].
    simpl in Ha. apply andb_prop in Ha as [Hch Ha].
    destruct (Py.startswith "PF=" _) eqn:Hst.
    + destruct (Re.run _ _) eqn:Hr.
      { intros H%IH; [|done]. simpl. lia. }
      intros [= <-]. apply startswith_inv in Hst as [r Hst].
      rewrite <- Hr. clear Hr IH.
      destruct a as [|c2 [|c3 a]]; [done| |].
      { rewrite !app_String in Hst. by injection Hst. }
      rewrite !app_String in Hst. injection Hst as -> -> -> _.
      change (Py.drop _ _) with (a +:+ " * " +:+ y).
      simpl in Ha. rewrite run_group; [simpl; lia|done|done].
    + intros H%IH; [|done]. simpl. lia.
Qed.

(** A fragment with a photolysis marker is never returned as it is: the text
    starts with the name, which is registered. *)
Lemma handle_photolysis_J value names g :
  is_Some (Py.find "PF=" value) →
  Re.search_PF value = Some g →
  ∃ rest,
    RE.handle_photolysis value names
    = (canonical_PF g +:+ rest, register (canonical_PF g) names)
    ∧ canonical_PF g +:+ rest ≠ value.
Proof.
  intros Hfind Hg. unfold RE.handle_photolysis.
  rewrite bool_decide_eq_true_2, Hg by done.
  fold (canonical_PF g). fold (register (canonical_PF g) names).
  destruct (search_tagged_spec _ _ _ _ Hg) as [Hns Hlen].
  destruct (canonical_PF_nonspace g Hns) as [Hcn Hcl].
  destruct (Re.search_QY value) as [y|] eqn:Hy.
  - exists (" * " +:+ y). split; [done|]. intros He.
    destruct (search_tagged_spec _ _ _ _ Hy) as [Hyc _].
    rewrite <- He in Hg. apply search_PF_after_name in Hg; [lia|done..].
  - exists EmptyString. split.
    + f_equal. clear. induction (canonical_PF g) as [|ch s IH]; [done|].
      by rewrite app_String, <- IH.
    + intros He. rewrite <- He, length_app_str in Hlen. simpl in Hlen. lia.
Qed.

Lemma handle_photolysis_cases value names :
  RE.handle_photolysis value names = (value, names)
  ∨ ∃ g, is_Some (Py.find "PF=" value) ∧ Re.search_PF value = Some g.
Proof.
  unfold RE.handle_photolysis. case_bool_decide as Hf; [|by left].
  destruct (Re.search_PF value) as [g|]; [|by left]. right. eauto.
Qed.

Lemma format_rate_J rate_str names text names' :
  RE.format_rate rate_str names = Ok (text, names') →
  names' = names
  ∨ ∃ name rest,
      names' = register name names ∧ text = "J" +:+ name +:+ rest.
Proof.
  unfold RE.format_rate.
  destruct (handle_photolysis_cases rate_str names) as [->|(g & Hf & Hg)].
  - rewrite String.eqb_refl. cbn [negb].
    destruct (RE.except_ValueError _ _); [|done]. bind_simpl.
    intros [= <- <-]. by left.
  - destruct (handle_photolysis_J _ names _ Hf Hg) as (rest & -> & Hne).
    apply String.eqb_neq in Hne. rewrite Hne. cbn [negb].
    intros [= <- <-]. right. by exists (canonical_PF g), rest.
Qed.

Lemma emit_J c i names info eqn block names' :
  RE.emit c i names info eqn = Ok (block, names') →
  names' = names
  ∨ ∃ name, names' = register name names ∧ photolysis_rate_line name block.
Proof.
  unfold RE.emit. intros H.
  destruct (RE.format_rate _ names) as [[rate ns]|] eqn:Hr; [|done].
  bind_simpl in H.
  destruct (RE.unpack2 _) as [[rp pp]|]; [|done]. bind_simpl in H.
  destruct (RE.stoichiometry _ _ _) as [f_lines|] eqn:Hs; [|done].
  bind_simpl in H. injection H as <- <-.
  destruct (format_rate_J _ _ _ _ Hr) as [->|(name & rest & -> & ->)];
    [by left|right].
  exists name. split; [done|]. unfold photolysis_rate_line.
  match goal with
  | |- ∃ pre post,
         ?h +:+ ?n1 +:+ ?inc +:+ ?n2 +:+ ?rn +:+ ?n3 +:+ ?rl +:+ ?tail = _ =>
      exists (h +:+ n1 +:+ inc +:+ n2 +:+ rn), (rest +:+ ";" +:+ tail)
  end.
  by rewrite !app_assoc_str.
Qed.

Lemma run_in_use c rs st st' :
  RE.run c st rs = Ok st' →
  ∀ name, name ∈ RE.names_PF st' →
    name ∈ RE.names_PF st
    ∨ ∃ block, block ∈ RE.formatted_reactions st'
               ∧ photolysis_rate_line name block.
Proof.
  revert st. induction rs as [|r rs IH]; intros st.
  - intros [= <-]. by left.
  - cbn [RE.run]. destruct (RE.step c st r) as [st1|] eqn:Hstep; [|done].
    bind_simpl. intros Hrun name Hin.
    destruct (IH _ Hrun _ Hin) as [Hin1|?]; [|by right].
    unfold RE.step in Hstep.
    destruct (RE.select c r) as [[[info eqn]|]|]; [| |done].
    + bind_simpl in Hstep.
      destruct (RE.emit c _ _ info eqn) as [[block ns]|] eqn:He; [|done].
      bind_simpl in Hstep. injection Hstep as <-. simpl in Hin1.
      destruct (emit_J _ _ _ _ _ _ _ He) as [->|(n & -> & Hl)]; [by left|].
      unfold register in Hin1. case_bool_decide; [by left|].
      apply elem_of_app in Hin1 as [?|Hs%list_elem_of_singleton]; [by left|].
      subst name.
      right. exists block. split; [|done].
      destruct (run_blocks _ _ _ _ Hrun) as (new & -> & _). simpl.
      rewrite !elem_of_app, list_elem_of_singleton. tauto.
    + bind_simpl in Hstep. injection Hstep as <-. by left.
Qed.

(** X10. Every photolysis name that [format_for_f0am] returns is in use: one of
    the blocks holds a rate line [k(:,i) = J<name>...]. *)
Theorem format_for_f0am_names_in_use c reactions blocks names name :
  RE.format_for_f0am c reactions = Ok (blocks, names) →
  name ∈ names →
  ∃ block, block ∈ blocks ∧ photolysis_rate_line name block.
Proof.
  unfold RE.format_for_f0am. intros H Hin.
  destruct (RE.run c _ reactions) as [st|] eqn:Hrun; [|done].
  bind_simpl in H. injection H as <- <-.
  destruct (run_in_use _ _ _ _ Hrun _ Hin) as [Hnil|?]; [|done].
  by apply elem_of_nil in Hnil.
Qed.

Lemma format_for_f0am_names_in_use_witness :
  ∃ block, block ∈ Ex.blocks ∧ photolysis_rate_line "X_Y" block.
Proof.
  apply (format_for_f0am_names_in_use Ex.multi Ex.records Ex.blocks ["X_Y"]).
  - by vm_compute.
  - apply list_elem_of_here.
Defined.

End NamesInUse.

(** ** The output file *)

Section Output.

Import MechanismWriter.

Lemma range_go_end fuel i stop step :
  (stop ≤ i)%nat → Py.range_go fuel i stop step = [].
Proof.
  intros H. destruct fuel as [|fuel]; [done|]. simpl.
  by rewrite (proj2 (Nat.ltb_ge i stop)).
Qed.

Lemma slice_group {A} (pre l : list A) n :
  Py.slice (length pre) (length pre + n) (pre ++ l) = take n l.
Proof.
  unfold Py.slice. change (@List.skipn A) with (@drop A).
  rewrite drop_app_length. f_equal. lia.
Qed.

(** The loop over the compounds writes the names in groups: groups of
    [NUMBER_COMPOUND] names, then the last group. *)
Lemma species_lines fuel :
  ∀ pre l, (length l ≤ fuel)%nat → l ≠ [] →
    ∃ full rest,
      l = List.concat full ++ rest
      ∧ Forall (fun group => length group = NUMBER_COMPOUND) full
      ∧ (1 ≤ length rest ≤ NUMBER_COMPOUND)%nat
      ∧ species_line (pre ++ l)
          <$> Py.range_go fuel (length pre) (length (pre ++ l)) NUMBER_COMPOUND
        = (group_line false <$> full) ++ [group_line true rest].
Proof.
  induction fuel as [|fuel IH]; intros pre l Hlen Hl.
  { destruct l; [done|simpl in Hlen; lia]. }
  assert (0 < length l)%nat as Hpos by (destruct l; [done|simpl; lia]).
  cbn [Py.range_go]. rewrite length_app.
  rewrite (proj2 (Nat.ltb_lt _ _)) by lia. rewrite fmap_cons.
  unfold species_line at 1. rewrite slice_group, length_app.
  destruct (decide (length l ≤ NUMBER_COMPOUND)%nat) as [Hs|Hs].
  - exists [], l. rewrite (proj2 (Nat.leb_le _ _)) by lia.
    rewrite range_go_end by lia. rewrite take_ge by done.
    split; [done|]. split; [constructor|]. split; [lia|done].
  - rewrite (proj2 (Nat.leb_gt _ _)) by lia.
    destruct (IH (pre ++ take NUMBER_COMPOUND l) (drop NUMBER_COMPOUND l))
      as (full & rest & Hc & Hf & Hr & Hlines).
    { rewrite length_drop. unfold NUMBER_COMPOUND in *. lia. }
    { intros H. apply (f_equal length) in H. rewrite length_drop in H.
      simpl in H. lia. }
    exists (take NUMBER_COMPOUND l :: full), rest.
    rewrite <- (assoc_L (++)), take_drop in Hlines.
    rewrite length_app, length_take, Nat.min_l in Hlines by lia.
    rewrite length_app in Hlines. rewrite Hlines.
    split; [|split; [constructor; [rewrite length_take; lia|done]|done]].
    simpl. rewrite <- (assoc_L (++)), <- Hc. by rewrite take_drop.
Qed.

(** X17. [write_mech] writes the two comment lines, the opening of the species
    list, the species in groups of six (with their new names, when they are
    keys of the table), each group on a line that ends with [;...], the last
    one with [;};], then the call of [AddSpecies], the title of the reactions
    and the blocks.  An empty list of compounds leaves the species list
    open: no line closes it. *)
Theorem write_mech_species compounds_list reaction_list name_replacements
    target_reactant target_minyld :
  let renamed :=
    (fun compound => get name_replacements compound compound)
      <$> compounds_list in
  ∃ full rest,
    renamed = List.concat full ++ rest
    ∧ Forall (fun group => length group = 6%nat) full
    ∧ (length rest ≤ 6)%nat
    ∧ (rest = [] ↔ compounds_list = [])
    ∧ write_mech compounds_list reaction_list name_replacements
        target_reactant target_minyld
      = ["% MechGen derived " +:+ target_reactant +:+ " explicit mechanism"
         +:+ Py.NL;
         "% Default mechanism with MinYld=" +:+ target_minyld +:+ Py.NL;
         "SpeciesToAdd = {..." +:+ Py.NL]
        ++ (group_line false <$> full)
        ++ (if bool_decide (compounds_list = []) then []
            else [group_line true rest])
        ++ [Py.NL +:+ "AddSpecies" +:+ Py.NL +:+ Py.NL;
            "% Reactions:" +:+ Py.NL]
        ++ ((fun reaction =>
               rename name_replacements reaction +:+ Py.NL +:+ Py.NL)
              <$> reaction_list).
Proof.
  intros renamed. unfold write_mech. fold renamed.
  destruct compounds_list as [|comp compounds_list].
  - exists [], []. split; [done|]. split; [constructor|].
    split; [simpl; lia|done].
  - destruct (species_lines (length renamed) [] renamed)
      as (full & rest & Hc & Hf & Hr & Hlines); [done..|].
    exists full, rest. unfold Py.range.
    change (length []) with 0%nat in Hlines. cbn [app] in Hlines.
    rewrite Hlines. rewrite bool_decide_eq_false_2 by done.
    split; [done|]. split; [done|]. unfold NUMBER_COMPOUND in Hr.
    split; [lia|]. split; [|by rewrite <- !(assoc_L (++))].
    split; [|done]. intros ->. simpl in Hr. lia.
Qed.

Lemma replace_go_absent old new s :
  Py.find old s = None → Py.replace_go old new s 0 = s.
Proof.
  induction s as [|ch s IH]; [done|]. cbn [Py.find Py.replace_go].
  destruct (Py.startswith old (String ch s)); [done|].
  destruct (Py.find old s); [done|]. intros _. by rewrite IH.
Qed.

Lemma replace_str_absent old new s :
  Py.find old s = None → Py.replace_str old new s = s.
Proof.
  destruct old as [|a old]; [by destruct s|]. apply replace_go_absent.
Qed.

(** X18. A block in which no key of the table occurs is written as it is. *)
Theorem rename_absent name_replacements reaction :
  (∀ old new, (old, new) ∈ name_replacements → Py.find old reaction = None) →
  rename name_replacements reaction = reaction.
Proof.
  unfold rename. induction name_replacements as [|[old new] d IH]; [done|].
  intros H. cbn [foldl fst snd]. rewrite replace_str_absent.
  - apply IH. intros o n Hin. apply (H o n). by apply list_elem_of_further.
  - apply (H old new). apply list_elem_of_here.
Qed.

Lemma rename_absent_witness :
  rename Main.NAME_REPLACEMENTS "fA(i) = fA(i) - 1;" = "fA(i) = fA(i) - 1;".
Proof.
  apply rename_absent. intros old new Hin.
  unfold Main.NAME_REPLACEMENTS in Hin.
  repeat (apply elem_of_cons in Hin as [[= -> ->]|Hin]; [by vm_compute|]).
  by apply elem_of_nil in Hin.
Defined.

End Output.

(** ** The two species sections *)

Section Nested.

Lemma drop_duplicates_NoDup seen rows :
  NoDup (SE.Species <$> rows) →
  (∀ r, r ∈ rows → SE.Species r ∉ seen) →
  SE.drop_duplicates seen rows = rows.
Proof.
  revert seen. induction rows as [|r rows IH]; intros seen Hn Hs; [done|].
  simpl. rewrite bool_decide_eq_false_2
    by (apply Hs, list_elem_of_here).
  rewrite fmap_cons in Hn. apply NoDup_cons in Hn as [Hr Hn].
  f_equal. apply IH; [done|]. intros x Hx [Heq|Hin]%elem_of_cons.
  - apply Hr, list_elem_of_fmap. eauto.
  - by apply (Hs x); [apply list_elem_of_further|].
Qed.

Lemma filter_all_false {A} (f : A → bool) (l : list A) :
  (∀ x, x ∈ l → f x = false) → List.filter f l = [].
Proof.
  induction l as [|x l IH]; intros H; [done|]. simpl.
  rewrite (H x) by apply list_elem_of_here.
  apply IH. intros y Hy. by apply H, list_elem_of_further.
Qed.

(** X8. Both sections end at the line [.RXN].  In a file where the active
    section comes after the steady-state section, the steady-state section
    holds the lines of both: when no common name occurs twice, every active
    species is returned as a steady-state species, and none as an active
    one. *)
Theorem build_compounds_nested pre s1 s2 post defaults rows1 rows2 :
  (".STS" +:+ Py.NL) ∉ pre →
  (".ACT" +:+ Py.NL) ∉ pre ++ (".STS" +:+ Py.NL) :: s1 →
  (".RXN" +:+ Py.NL)
    ∉ pre ++ (".STS" +:+ Py.NL) :: s1 ++ (".ACT" +:+ Py.NL) :: s2 →
  SE.extract_lines s1 = Ok rows1 →
  SE.extract_lines s2 = Ok rows2 →
  NoDup (SE.Species <$> rows1 ++ rows2) →
  SE.build_compounds
    (pre ++ (".STS" +:+ Py.NL) :: s1 ++ (".ACT" +:+ Py.NL) :: s2
         ++ (".RXN" +:+ Py.NL) :: post) defaults
  = Ok (Py.replace "-" "_" <$> defaults ++ (SE.MGName <$> rows1 ++ rows2),
        SE.MGName <$> rows1 ++ rows2).
Proof.
  intros Hsts Hact Hrxn H1 H2 Hn. unfold SE.build_compounds.
  assert (SE.extract_species
            (pre ++ (".STS" +:+ Py.NL) :: s1 ++ (".ACT" +:+ Py.NL) :: s2
                 ++ (".RXN" +:+ Py.NL) :: post) ".STS" ".RXN"
          = Ok (rows1 ++ rows2)) as ->.
  { unfold SE.extract_species.
    replace (s1 ++ (".ACT" +:+ Py.NL) :: s2 ++ (".RXN" +:+ Py.NL) :: post)
      with ((s1 ++ (".ACT" +:+ Py.NL) :: s2) ++ (".RXN" +:+ Py.NL) :: post)
      by (by rewrite <- (assoc_L (++))).
    rewrite section_between by done. bind_simpl.
    rewrite extract_lines_app, H1. bind_simpl. cbn [SE.extract_lines].
    rewrite (extract_line_comment (".ACT" +:+ Py.NL)) by done.
    bind_simpl. rewrite H2. bind_simpl.
    rewrite drop_duplicates_NoDup; [done..|]. intros r _. apply not_elem_of_nil. }
  assert (SE.extract_species
            (pre ++ (".STS" +:+ Py.NL) :: s1 ++ (".ACT" +:+ Py.NL) :: s2
                 ++ (".RXN" +:+ Py.NL) :: post) ".ACT" ".RXN"
          = Ok rows2) as ->.
  { unfold SE.extract_species.
    replace (pre ++ (".STS" +:+ Py.NL) :: s1 ++ (".ACT" +:+ Py.NL) :: s2
                 ++ (".RXN" +:+ Py.NL) :: post)
      with ((pre ++ (".STS" +:+ Py.NL) :: s1) ++ (".ACT" +:+ Py.NL) :: s2
                 ++ (".RXN" +:+ Py.NL) :: post)
      by (by rewrite <- (assoc_L (++))).
    rewrite section_between; [| done |by rewrite <- (assoc_L (++))].
    bind_simpl. rewrite H2. bind_simpl.
    rewrite drop_duplicates_NoDup; [done| |intros r _; apply not_elem_of_nil].
    rewrite fmap_app in Hn. by apply NoDup_app in Hn as (_ & _ & Hn). }
  bind_simpl. do 2 f_equal. unfold SE.hyphens.
  replace (List.filter _ (SE.MGName <$> rows2)) with (@nil string); [done|].
  symmetry. apply filter_all_false. intros c Hc.
  apply andb_false_iff. right. apply negb_false_iff, bool_decide_eq_true_2.
  rewrite fmap_app. apply elem_of_app. by right.
Qed.

Lemma build_compounds_nested_witness :
  SE.build_compounds
    ((fun s => s +:+ Py.NL)
       <$> ["header"; ".STS"; "O3P ! 1 O3P"; ".ACT"; "b-1 ! 2 B"; ".RXN"; "."])
    ["RO2"]
  = Ok (["RO2"; "O3P"; "b_1"], ["O3P"; "b-1"]).
Proof.
  apply (build_compounds_nested ["header" +:+ Py.NL] ["O3P ! 1 O3P" +:+ Py.NL]
           ["b-1 ! 2 B" +:+ Py.NL] ["." +:+ Py.NL] ["RO2"]
           [SE.Row "O3P" "O3P"] [SE.Row "B" "b-1"]);
    try (by vm_compute).
  - by intros ?%list_elem_of_singleton.
  - cbn [app]. rewrite !not_elem_of_cons. split_and!; try done.
    apply not_elem_of_nil.
  - cbn [app]. rewrite !not_elem_of_cons. split_and!; try done.
    apply not_elem_of_nil.
  - cbn [app fmap list_fmap SE.Species]. repeat constructor.
    + by intros ?%list_elem_of_singleton.
    + apply not_elem_of_nil.
Defined.

End Nested.

(** ** The conversion script *)

Section Script.

Lemma extract_species_marker lines string_start string_end :
  (string_start +:+ Py.NL) ∉ lines ∨ (string_end +:+ Py.NL) ∉ lines →
  SE.extract_species lines string_start string_end = Raise ValueError.
Proof.
  unfold SE.extract_species, SE.section. intros [H|H].
  - rewrite (index_absent _ _ H). by bind_simpl.
  - destruct (decide ((string_start +:+ Py.NL) ∈ lines)) as [Hs|Hs].
    + destruct (index_present _ _ Hs) as [k ->]. bind_simpl.
      rewrite (index_absent _ _ H). by bind_simpl.
    + rewrite (index_absent _ _ Hs). by bind_simpl.
Qed.

(** X19. The script needs the three markers: on a file without a line [.STS], or
    without a line [.ACT], or without a line [.RXN], it raises before the
    output file is opened, and the exception is a [ValueError] when [.STS]
    or [.RXN] is the missing one. *)
Theorem main_needs_markers ref_lines input_lines marker :
  marker ∈ [".STS"; ".ACT"; ".RXN"] →
  (marker +:+ Py.NL) ∉ input_lines →
  ∃ e, Main.main ref_lines input_lines = Raise e
       ∧ (marker ≠ ".ACT" → e = ValueError).
Proof.
  intros Hm Hl. unfold Main.main, SE.build_compounds.
  repeat (apply elem_of_cons in Hm as [->|Hm]).
  - rewrite (extract_species_marker input_lines ".STS" ".RXN") by (by left).
    bind_simpl. eauto.
  - destruct (SE.extract_species input_lines ".STS" ".RXN") as [rows|e].
    + bind_simpl.
      rewrite (extract_species_marker input_lines ".ACT" ".RXN") by (by left).
      by exists ValueError.
    + by exists e.
  - rewrite (extract_species_marker input_lines ".STS" ".RXN") by (by right).
    bind_simpl. eauto.
  - by apply elem_of_nil in Hm.
Qed.

Lemma main_needs_markers_witness :
  ∃ e, Main.main [] ((fun s => s +:+ Py.NL) <$> [".STS"; "A ! 1 A"; ".RXN"])
       = Raise e
       ∧ (".ACT" ≠ ".ACT" → e = ValueError).
Proof.
  apply (main_needs_markers [] _ ".ACT").
  - apply list_elem_of_further, list_elem_of_here.
  - cbn [fmap list_fmap]. rewrite !not_elem_of_cons. split_and!; try done.
    apply not_elem_of_nil.
Defined.

End Script.

(** ** The set-up scripts *)

Section Escape.

Lemma app_empty_r (s : string) : s +:+ EmptyString = s.
Proof. induction s as [|ch s IH]; [done|]. by rewrite app_String, IH. Qed.

Lemma per_char_app f x y :
  per_char f (x +:+ y) = per_char f x +:+ per_char f y.
Proof.
  induction x as [|ch x IH]; [by rewrite !app_empty|].
  rewrite app_String. simpl. by rewrite IH, app_assoc_str.
Qed.

Lemma per_char_compose f g s :
  per_char g (per_char f s) = per_char (fun c => per_char g (f c)) s.
Proof.
  induction s as [|ch s IH]; [done|]. simpl. by rewrite per_char_app, IH.
Qed.

Lemma per_char_ext f g s : (∀ c, f c = g c) → per_char f s = per_char g s.
Proof.
  intros H. induction s as [|ch s IH]; [done|]. simpl. by rewrite H, IH.
Qed.

(** [replace] of one character is a rewriting character by character. *)
Lemma replace_str_char a new s :
  Py.replace_str (String a EmptyString) new s
  = per_char (fun c => if Py.eqc a c then new else String c EmptyString) s.
Proof.
  unfold Py.replace_str. induction s as [|ch s IH]; [done|].
  cbn [Py.replace_go per_char String.length Nat.sub].
  rewrite startswith_cons. change (Py.startswith "" s) with true.
  rewrite andb_true_r, IH. by destruct (Py.eqc a ch).
Qed.

Lemma eqc_sym a b : Py.eqc a b = Py.eqc b a.
Proof.
  destruct (Py.eqc a b) eqn:H1, (Py.eqc b a) eqn:H2; try done.
  - apply eqc_eq in H1 as ->. by rewrite eqc_refl in H2.
  - apply eqc_eq in H2 as ->. by rewrite eqc_refl in H1.
Qed.

Lemma escape_chars smiles :
  Setup.escape_smiles smiles = per_char escape_char smiles.
Proof.
  unfold Setup.escape_smiles. rewrite !replace_str_char, per_char_compose.
  apply per_char_ext. intros c. unfold escape_char.
  rewrite (eqc_sym c "("), (eqc_sym c ")").
  destruct (Py.eqc "(" c) eqn:Ho.
  - done.
  - simpl. rewrite app_empty_r. by destruct (Py.eqc ")" c).
Qed.

(** X20. [escape_smiles] rewrites its argument character by character: the two
    parentheses become [{(}] and [{)}], and every other character, a brace
    included, stays; the second [replace] finds no parenthesis that the first
    one wrote.  The keys of a concatenation are so the keys of its parts. *)
Theorem escape_smiles_per_char smiles :
  Setup.escape_smiles smiles = per_char escape_char smiles
  ∧ ∀ a b, Setup.escape_smiles (a +:+ b)
           = Setup.escape_smiles a +:+ Setup.escape_smiles b.
Proof.
  split; [apply escape_chars|]. intros a b. rewrite !escape_chars.
  apply per_char_app.
Qed.

Lemma escape_head s c r :
  per_char escape_char s = String c r → c ≠ "("%char ∧ c ≠ ")"%char.
Proof.
  destruct s as [|ch s]; [done|]. simpl. unfold escape_char.
  destruct (Py.eqc ch "(") eqn:Ho.
  { rewrite app_String. by intros [= <- _]. }
  destruct (Py.eqc ch ")") eqn:Hc.
  { rewrite app_String. by intros [= <- _]. }
  rewrite app_String. intros [= <- _].
  split; intros ->; by rewrite eqc_refl in *.
Qed.

Lemma per_char_escape_inj a b :
  per_char escape_char a = per_char escape_char b → a = b.
Proof.
  revert b. induction a as [|ca a IH]; intros [|cb b]; simpl.
  - done.
  - unfold escape_char. destruct (Py.eqc cb "("); [by rewrite app_String|].
    destruct (Py.eqc cb ")"); by rewrite app_String.
  - unfold escape_char. destruct (Py.eqc ca "("); [by rewrite app_String|].
    destruct (Py.eqc ca ")"); by rewrite app_String.
  - unfold escape_char.
    destruct (Py.eqc ca "(") eqn:Hao; [apply eqc_eq in Hao as ->|];
      [|destruct (Py.eqc ca ")") eqn:Hac; [apply eqc_eq in Hac as ->|]];
      (destruct (Py.eqc cb "(") eqn:Hbo; [apply eqc_eq in Hbo as ->|];
       [|destruct (Py.eqc cb ")") eqn:Hbc; [apply eqc_eq in Hbc as ->|]]);
      rewrite ?app_String, ?app_empty; intros H; try done.
    + injection H as H. by rewrite (IH b H).
    + injection H as <- H. symmetry in H. by apply escape_head in H as [? _].
    + injection H as H. by rewrite (IH b H).
    + injection H as <- H. symmetry in H. by apply escape_head in H as [_ ?].
    + injection H as -> H. by apply escape_head in H as [? _].
    + injection H as -> H. by apply escape_head in H as [_ ?].
    + injection H as -> H. by rewrite (IH b H).
Qed.

(** X21. Two strings with the same keys are equal: the braces already in a string
    cannot be taken for those that [escape_smiles] adds. *)
Theorem escape_smiles_inj a b :
  Setup.escape_smiles a = Setup.escape_smiles b → a = b.
Proof. rewrite !escape_chars. apply per_char_escape_inj. Qed.

Lemma escape_smiles_inj_witness :
  Setup.escape_smiles "C{(}" = "C{{(}}" ∧ "C{(}" = "C{(}".
Proof.
  split; [by vm_compute|]. apply (escape_smiles_inj "C{(}" "C{(}").
  by vm_compute.
Defined.

End Escape.

Section Waiting.

Lemma wait_loop_timeout wait_interval max_wait exists_ d :
  ∀ fuel k waited_,
    (∀ j, (k ≤ j ≤ k + d)%nat → exists_ j = false) →
    0 ≤ wait_interval →
    waited_ + Z.of_nat d * wait_interval < max_wait →
    max_wait ≤ waited_ + (Z.of_nat d + 1) * wait_interval →
    (d < fuel)%nat →
    Setup.wait_loop fuel exists_ k waited_ wait_interval max_wait
    = Some (Setup.TimeoutError (k + d + 1)).
Proof.
  induction d as [|d IH]; intros fuel k waited_ Hex Hi Hlt Hge Hfuel;
    (destruct fuel as [|fuel]; [lia|]); cbn [Setup.wait_loop].
  - rewrite Hex by lia. rewrite (proj2 (Z.ltb_ge _ _)) by lia.
    rewrite (proj2 (Z.leb_le _ _)) by lia. do 2 f_equal. lia.
  - rewrite Hex by lia. rewrite (proj2 (Z.ltb_ge _ _)) by lia.
    rewrite (proj2 (Z.leb_gt _ _)) by nia.
    rewrite (IH fuel (S k) (waited_ + wait_interval)); try lia.
    + do 2 f_equal. lia.
    + intros j Hj. apply Hex. lia.
Qed.

Lemma wait_loop_returns wait_interval max_wait exists_ d :
  ∀ fuel k waited_,
    (∀ j, (k ≤ j < k + d)%nat → exists_ j = false) →
    exists_ (k + d)%nat = true →
    0 ≤ wait_interval →
    (d = 0%nat ∨ waited_ + Z.of_nat d * wait_interval < max_wait) →
    (d < fuel)%nat →
    Setup.wait_loop fuel exists_ k waited_ wait_interval max_wait
    = Some (Setup.Returned (k + d + 1)).
Proof.
  induction d as [|d IH]; intros fuel k waited_ Hex Hd Hi Hlt Hfuel;
    (destruct fuel as [|fuel]; [lia|]); cbn [Setup.wait_loop].
  - rewrite Nat.add_0_r in Hd. rewrite Hd. do 2 f_equal. lia.
  - rewrite Hex by lia. rewrite (proj2 (Z.ltb_ge _ _)) by lia.
    destruct Hlt as [?|Hlt]; [lia|].
    rewrite (proj2 (Z.leb_gt _ _)) by nia.
    rewrite (IH fuel (S k) (waited_ + wait_interval)); try lia.
    + do 2 f_equal. lia.
    + intros j Hj. apply Hex. lia.
    + rewrite <- Hd. f_equal. lia.
Qed.

(** X22. The file is found at the call number [n] (from 0) of [os.path.exists]
    when the time slept before it, [n] intervals, is below [max_wait]:
    [wait_for_file] then returns after [n + 1] calls. *)
Theorem wait_for_file_returns fuel exists_ wait_interval max_wait n :
  (∀ j, (j < n)%nat → exists_ j = false) →
  exists_ n = true →
  0 ≤ wait_interval →
  n = 0%nat ∨ Z.of_nat n * wait_interval < max_wait →
  (n < fuel)%nat →
  Setup.wait_for_file fuel exists_ wait_interval max_wait
  = Some (Setup.Returned (S n)).
Proof.
  intros Hex Hn Hi Hlt Hfuel. unfold Setup.wait_for_file.
  rewrite (wait_loop_returns _ _ _ n);
    first [ done | lia | by (do 2 f_equal; lia)
          | by (intros j Hj; apply Hex; lia)
          | by (destruct Hlt; [left|right; lia]) ].
Qed.

Lemma wait_for_file_returns_witness :
  Setup.wait_for_file 10 (fun k => (3 <=? k)%nat) 60 600
  = Some (Setup.Returned 4).
Proof.
  apply (wait_for_file_returns 10 (fun k => (3 <=? k)%nat) 60 600 3);
    [|done|lia|right; lia|lia].
  intros j Hj. apply Nat.leb_gt. lia.
Defined.

(** X23. The file is not looked for after the last sleep: when it is absent at
    the first [n] calls, and [n] intervals reach [max_wait] while [n - 1] do
    not, [wait_for_file] raises [TimeoutError] after [n] calls, whether or
    not the file is there by then. *)
Theorem wait_for_file_timeout fuel exists_ wait_interval max_wait n :
  (∀ j, (j < n)%nat → exists_ j = false) →
  0 ≤ wait_interval →
  (1 ≤ n)%nat →
  (Z.of_nat n - 1) * wait_interval < max_wait ∨ n = 1%nat →
  max_wait ≤ Z.of_nat n * wait_interval →
  (n ≤ fuel)%nat →
  Setup.wait_for_file fuel exists_ wait_interval max_wait
  = Some (Setup.TimeoutError n).
Proof.
  intros Hex Hi Hn Hlt Hge Hfuel. unfold Setup.wait_for_file.
  destruct Hlt as [Hlt|Hone]; [|subst n].
  - rewrite (wait_loop_timeout _ _ _ (n - 1));
      first [ lia | by (do 2 f_equal; lia)
            | by (intros j Hj; apply Hex; lia)
            | by (rewrite Nat2Z.inj_sub by lia; simpl; lia) ].
  - destruct fuel as [|fuel]; [lia|]. cbn [Setup.wait_loop].
    rewrite Hex by lia. rewrite (proj2 (Z.ltb_ge _ _)) by lia.
    by rewrite (proj2 (Z.leb_le _ _)) by lia.
Qed.

Lemma wait_for_file_timeout_witness :
  Setup.wait_for_file 10 (fun k => (10 <=? k)%nat) 60 600
  = Some (Setup.TimeoutError 10).
Proof.
  apply (wait_for_file_timeout 10 (fun k => (10 <=? k)%nat) 60 600 10);
    [|lia|lia|left; lia|lia|lia].
  intros j Hj. apply Nat.leb_gt. lia.
Defined.

Lemma wait_loop_ends wait_interval max_wait exists_ fuel :
  ∀ k waited_,
    0 < wait_interval →
    max_wait - waited_ ≤ Z.of_nat fuel * wait_interval →
    (1 ≤ fuel)%nat →
    ∃ w, Setup.wait_loop fuel exists_ k waited_ wait_interval max_wait
         = Some w
         ∧ (polls_of w ≤ k + fuel)%nat
         ∧ ∀ polls, w ≠ Setup.SleepValueError polls.
Proof.
  induction fuel as [|fuel IH]; intros k waited_ Hi Hm Hfuel; [lia|].
  cbn [Setup.wait_loop]. destruct (exists_ k).
  { eexists. split; [done|]. simpl. split; [lia|done]. }
  rewrite (proj2 (Z.ltb_ge _ _)) by lia.
  destruct (Z.leb_spec max_wait (waited_ + wait_interval)) as [Hle|Hgt].
  { eexists. split; [done|]. simpl. split; [lia|done]. }
  destruct (IH (S k) (waited_ + wait_interval)) as (w & -> & Hp & Hw);
    [lia|nia|nia|].
  exists w. split; [done|]. split; [lia|done].
Qed.

(** X24. With a positive interval, [wait_for_file] ends, by returning or with
    [TimeoutError], after at most [n] calls of [os.path.exists], where [n]
    intervals reach [max_wait] (and [n] is at least one): ten calls for the
    defaults of the single-compound script, sixty for those of the other. *)
Theorem wait_for_file_ends exists_ wait_interval max_wait n :
  0 < wait_interval →
  max_wait ≤ Z.of_nat n * wait_interval →
  (1 ≤ n)%nat →
  ∃ w, Setup.wait_for_file n exists_ wait_interval max_wait = Some w
       ∧ (polls_of w ≤ n)%nat
       ∧ ∀ polls, w ≠ Setup.SleepValueError polls.
Proof.
  intros Hi Hm Hn. unfold Setup.wait_for_file.
  destruct (wait_loop_ends wait_interval max_wait exists_ n 0%nat 0)
    as (w & Hw & Hp & Hs); [lia..|]. by exists w.
Qed.

Lemma wait_for_file_ends_witness :
  ∃ w, Setup.wait_for_file 60 (fun _ => false) 60 3600 = Some w
       ∧ (polls_of w ≤ 60)%nat
       ∧ ∀ polls, w ≠ Setup.SleepValueError polls.
Proof. apply (wait_for_file_ends (fun _ => false) 60 3600 60); lia. Defined.

(** X25. With the interval [0] and a positive [max_wait], [wait_for_file] does
    not end while the file is absent: no number of iterations gives a
    result. *)
Theorem wait_for_file_zero_interval fuel exists_ max_wait :
  (∀ j, exists_ j = false) →
  0 < max_wait →
  Setup.wait_for_file fuel exists_ 0 max_wait = None.
Proof.
  intros Hex Hm. unfold Setup.wait_for_file. generalize 0%nat as k.
  induction fuel as [|fuel IH]; intros k; [done|]. cbn [Setup.wait_loop].
  rewrite Hex. cbn [Z.ltb Z.compare]. rewrite Z.add_0_r.
  rewrite (proj2 (Z.leb_gt _ _)) by lia. apply IH.
Qed.

Lemma wait_for_file_zero_interval_witness :
  Setup.wait_for_file 1000 (fun _ => false) 0 600 = None.
Proof. apply wait_for_file_zero_interval; [done|lia]. Defined.

End Waiting.

(** ** Records that make the run raise *)

Section Failures.

(** Whether the loop body raises, and what, depends on the record only. *)
Lemma emit_raised c i names i' names' info eqn :
  raised (RE.emit c i names info eqn) = raised (RE.emit c i' names' info eqn).
Proof.
  unfold RE.emit.
  destruct (format_rate_total
              (Py.strip (Py.drop match Py.find "R)" info with
                                 | Some k => (k + 2)%nat
                                 | None => 1%nat
                                 end info)) names) as (t & n & ->).
  destruct (format_rate_total
              (Py.strip (Py.drop match Py.find "R)" info with
                                 | Some k => (k + 2)%nat
                                 | None => 1%nat
                                 end info)) names') as (t' & n' & ->).
  bind_simpl. destruct (RE.unpack2 _) as [[rp pp]|]; [|done]. bind_simpl.
  by destruct (RE.stoichiometry _ _ _).
Qed.

Lemma step_raised c st st' r :
  raised (RE.step c st r) = raised (RE.step c st' r).
Proof.
  unfold RE.step. destruct (RE.select c r) as [[[info eqn]|]|]; [|done..].
  bind_simpl.
  pose proof (emit_raised c (RE.i st) (RE.names_PF st) (RE.i st')
                (RE.names_PF st') info eqn) as H.
  destruct (RE.emit c (RE.i st) _ info eqn) as [[b n]|],
           (RE.emit c (RE.i st') _ info eqn) as [[b' n']|]; done.
Qed.

Lemma format_single c r :
  raised (RE.format_for_f0am c [r]) = raised (RE.step c (RE.State 1 [] []) r).
Proof.
  unfold RE.format_for_f0am. cbn [RE.run].
  by destruct (RE.step c _ r).
Qed.

Lemma run_returns c rs :
  Forall (fun r => raised (RE.format_for_f0am c [r]) = None) rs →
  ∀ st, ∃ st', RE.run c st rs = Ok st'.
Proof.
  induction 1 as [|r rs Hr _ IH]; intros st; [by exists st|].
  cbn [RE.run]. rewrite format_single in Hr.
  rewrite (step_raised c _ st) in Hr.
  destruct (RE.step c st r) as [st1|]; [|done]. bind_simpl. apply IH.
Qed.

(** X13. The run returns exactly when each of its records, converted alone, does:
    no record makes another one fail. *)
Theorem format_for_f0am_returns_iff c reactions :
  raised (RE.format_for_f0am c reactions) = None
  ↔ Forall (fun r => raised (RE.format_for_f0am c [r]) = None) reactions.
Proof.
  split.
  - unfold RE.format_for_f0am at 1.
    generalize (RE.State 1 [] []) as st.
    induction reactions as [|r rs IH]; intros st; [done|].
    cbn [RE.run]. destruct (RE.step c st r) as [st1|] eqn:Hstep; [|done].
    bind_simpl. intros H. constructor; [|by apply (IH st1)].
    rewrite format_single, (step_raised c _ st). by rewrite Hstep.
  - intros H. unfold RE.format_for_f0am.
    by destruct (run_returns c reactions H (RE.State 1 [] [])) as [st' ->].
Qed.

Lemma first_failure_run c rs1 r rs2 e :
  Forall (fun r => raised (RE.format_for_f0am c [r]) = None) rs1 →
  RE.format_for_f0am c [r] = Raise e →
  RE.format_for_f0am c (rs1 ++ r :: rs2) = Raise e.
Proof.
  intros H1 Hr. unfold RE.format_for_f0am. rewrite run_app.
  destruct (run_returns c rs1 H1 (RE.State 1 [] [])) as [st1 ->].
  bind_simpl. cbn [RE.run].
  pose proof (format_single c r) as Hs. rewrite Hr in Hs.
  rewrite (step_raised c _ st1) in Hs.
  destruct (RE.step c st1 r) as [st2|e']; [done|]. by injection Hs as ->.
Qed.

(** X14. The run stops at the first record that raises when it is converted
    alone, with the exception of that record; the blocks of the records
    before it are lost. *)
Theorem format_for_f0am_first_failure c rs1 r rs2 e :
  Forall (fun r => raised (RE.format_for_f0am c [r]) = None) rs1 →
  RE.format_for_f0am c [r] = Raise e →
  RE.format_for_f0am c (rs1 ++ r :: rs2) = Raise e.
Proof. apply first_failure_run. Qed.

Lemma format_for_f0am_first_failure_witness :
  RE.format_for_f0am Ex.multi
    (["R) 1.0E-11 0.0 ;A + B = C"] ++ "R) 1.0E-11 0.0 ;A" :: ["R) 1 ;A = B"])
  = Raise ValueError.
Proof.
  apply format_for_f0am_first_failure.
  - constructor; [by vm_compute|constructor].
  - by vm_compute.
Defined.

(** X15. A record that passes the filters needs exactly one [=] in its equation:
    with none, or with two or more, it makes the run raise [ValueError]. *)
Theorem format_for_f0am_equation c rs1 r rs2 info eqn :
  Forall (fun r => raised (RE.format_for_f0am c [r]) = None) rs1 →
  RE.select c r = Ok (Some (info, eqn)) →
  length (Py.split "=" eqn) ≠ 2%nat →
  RE.format_for_f0am c (rs1 ++ r :: rs2) = Raise ValueError.
Proof.
  intros H1 Hsel Hlen. apply first_failure_run; [done|].
  unfold RE.format_for_f0am. cbn [RE.run]. unfold RE.step. rewrite Hsel.
  bind_simpl. unfold RE.emit. cbn [RE.names_PF RE.i].
  destruct (format_rate_total
              (Py.strip (Py.drop match Py.find "R)" info with
                                 | Some k => (k + 2)%nat
                                 | None => 1%nat
                                 end info)) []) as (t & n & ->).
  bind_simpl. by destruct (Py.split "=" eqn) as [|a [|b [|d l]]].
Qed.

Lemma format_for_f0am_equation_witness :
  RE.format_for_f0am Ex.multi
    (["R) 1.0E-11 0.0 ;A + B = C"] ++ "R) 1.0E-11 0.0 ;A = B = C" :: [])
  = Raise ValueError.
Proof.
  apply (format_for_f0am_equation Ex.multi _ _ _ "R) 1.0E-11 0.0" "A = B = C").
  - constructor; [by vm_compute|constructor].
  - by vm_compute.
  - by vm_compute.
Defined.

End Failures.

(** ** The names of the rows *)

Section RowNames.

Lemma item0_split_free sep s w :
  Py.item0 (Py.split sep s) = Ok w → free_of sep w = true.
Proof.
  rewrite item0_first. intros [= <-]. apply first_item_no_sep.
Qed.

Lemma item0_split_forallb f sep s w :
  Py.forallb f s = true → Py.item0 (Py.split sep s) = Ok w →
  Py.forallb f w = true.
Proof.
  intros H. rewrite item0_first. intros [= <-]. by apply forallb_first_item.
Qed.

Lemma item1_split_free sep s w :
  Py.item1 (Py.split sep s) = Ok w → free_of sep w = true.
Proof.
  pose proof (split_no_sep_items sep s) as H.
  destruct (Py.split sep s) as [|a [|b l]]; [done..|]. intros [= <-].
  by apply Forall_cons in H as [_ [H _]%Forall_cons].
Qed.

Lemma last_split_free sep s : free_of sep (Py.last_or_empty (Py.split sep s)) = true.
Proof.
  pose proof (split_no_sep_items sep s) as H. unfold Py.last_or_empty.
  induction H as [|w ws Hw _ IH]; [done|]. by destruct ws.
Qed.

Lemma last_split_forallb f sep s :
  Py.forallb f s = true →
  Py.forallb f (Py.last_or_empty (Py.split sep s)) = true.
Proof.
  intros H%(forallb_split f sep). unfold Py.last_or_empty.
  induction H as [|w ws Hw _ IH]; [done|]. by destruct ws.
Qed.

Lemma extract_line_clean line r :
  SE.extract_line line = Ok (Some r) → clean_row r.
Proof.
  unfold SE.extract_line.
  destruct (Py.item0 (Py.split_ws line)) as [tok|]; [|done]. bind_simpl.
  destruct (negb _ && negb _); [|done].
  destruct (Py.item0 (Py.split "!" line)) as [before|] eqn:Hb; [|done].
  bind_simpl.
  destruct (Py.item0 (Py.split " " before)) as [mgname|] eqn:Hm; [|done].
  bind_simpl.
  destruct (Py.item1 (Py.split "!" line)) as [after|] eqn:Ha; [|done].
  bind_simpl.
  destruct (Py.item0 (Py.split Py.nl after)) as [text|] eqn:Ht; [|done].
  bind_simpl. intros [= <-]. unfold clean_row. simpl.
  apply item0_split_free in Hb. apply item1_split_free in Ha.
  split_and!.
  - by apply item0_split_free in Hm.
  - by apply (item0_split_forallb _ _ _ _ Hb) in Hm.
  - apply last_split_free.
  - apply last_split_forallb. by apply (item0_split_forallb _ _ _ _ Ha) in Ht.
  - apply last_split_forallb. by apply item0_split_free in Ht.
Qed.

Lemma extract_lines_clean sec rows :
  SE.extract_lines sec = Ok rows → Forall clean_row rows.
Proof.
  revert rows. induction sec as [|line sec IH]; intros rows.
  - intros [= <-]. constructor.
  - cbn [SE.extract_lines].
    destruct (SE.extract_line line) as [r|] eqn:Hl; [|done]. bind_simpl.
    destruct (SE.extract_lines sec) as [rs|]; [|done]. bind_simpl.
    intros [= <-]. specialize (IH _ eq_refl). destruct r as [r|]; [|done].
    constructor; [|done]. by eapply extract_line_clean.
Qed.

(** X7. No name that [extract_species] returns holds a space or a [!], and no
    common name holds an end of line: the names are single items of their
    lines. *)
Theorem extract_species_names lines string_start string_end rows :
  SE.extract_species lines string_start string_end = Ok rows →
  Forall clean_row rows.
Proof.
  unfold SE.extract_species.
  destruct (SE.section lines string_start string_end) as [sec|]; [|done].
  bind_simpl. destruct (SE.extract_lines sec) as [all_rows|] eqn:Hall; [|done].
  bind_simpl. intros [= <-]. apply extract_lines_clean in Hall.
  destruct (drop_duplicates_spec [] all_rows) as (_ & Hin & _).
  rewrite Forall_forall in *. intros r Hr. by apply Hall, Hin.
Qed.

Lemma extract_species_names_witness :
  Forall clean_row [SE.Row "X" "a1"; SE.Row "Y" "a2"; SE.Row "Z" "a1"].
Proof.
  apply (extract_species_names
    ((fun s => s +:+ Py.NL)
       <$> [".STS"; "a1 ! 1 X"; "a2 ! 2 Y"; "a3 ! 3 X"; "a1 ! 4 Z"; ".RXN"])
    ".STS" ".RXN").
  by vm_compute.
Defined.

End RowNames.

(** ** The reactant strings *)

Section Gstr.

Lemma gstr_lines_app idx a b :
  RE.gstr_lines idx (a ++ b)
  = RE.gstr_lines idx a +:+ RE.gstr_lines (idx + Z.of_nat (length a)) b.
Proof.
  revert idx. induction a as [|r a IH]; intros idx.
  - simpl. by rewrite app_empty, Z.add_0_r.
  - cbn [app RE.gstr_lines length]. rewrite IH, app_assoc_str.
    do 3 f_equal. lia.
Qed.

(** X16. The reactant strings are numbered by position in the equation, the photon
    counted: [HV] writes no [Gstr] entry and still takes a number, so that a
    species after it is numbered as if the photon were a species. *)
Theorem gstr_lines_photon idx pre reactant post :
  RE.gstr_lines idx (pre ++ reactant :: post)
  = RE.gstr_lines idx pre
    +:+ (if String.eqb reactant "HV" then EmptyString
         else "Gstr{i," +:+ Py.str_of_nat (idx + Z.of_nat (length pre))
              +:+ "} = '" +:+ reactant +:+ "'; ")
    +:+ RE.gstr_lines (idx + Z.of_nat (length pre) + 1) post.
Proof. rewrite gstr_lines_app. by cbn [RE.gstr_lines]. Qed.

End Gstr.
